(** * Smart Git extension: selection store, change enumeration, diff reader,
      validation, commit orchestration and the commit-message heuristics.

    A shallow embedding of the TypeScript services
    (FileSelectionService, GitDiffService, GitValidationService,
    CommitMessageGenerator and the two variants of GitService found in the
    sources) followed by the properties established about them.

    Conventions of the embedding:
    - a JavaScript string is a [string]; one [ascii] stands for one code unit
      in the range 0..255 (Latin-1), which covers every literal of the source;
    - a JavaScript array is a [list]; [workspaceState] is a finite map from
      keys to stored arrays;
    - [await] is sequential composition: the host serialises the handlers;
      a call that is not awaited runs up to its first suspension, and what
      is left of it is handed back, to run after the caller has returned;
    - calls into the host Git API, simple-git and the notification API are
      recorded in a log, and their outcome is given by the objects
      themselves, as functions of the calls made so far. *)

From Stdlib Require Import String Ascii List ZArith Lia Bool.
From stdpp Require Import base option list gmap sets strings.
Import ListNotations.

Local Open Scope list_scope.

(** ** JavaScript primitives used by the services *)

Module Js.

(** The line feed of ['\n'] and the double quote. *)
Definition nl : string := String "010"%char EmptyString.
Definition dquote : string := String "034"%char EmptyString.

(** A thrown value: an [Error] instance carrying its message, or any other
    value. *)
Inductive Thrown : Type :=
| JsError (message : string)
| JsNonError.

(** How an awaited call completes. *)
Inductive Completion (A : Type) : Type :=
| Normal (a : A)
| Throw (e : Thrown).
Arguments Normal {A} a.
Arguments Throw {A} e.

(** [error instanceof Error ? error.message : 'Unknown error'] *)
Definition errorMessage (error : Thrown) : string :=
  match error with
  | JsError m => m
  | JsNonError => "Unknown error"
  end.

(** [String.prototype.toLowerCase] on the code units 0..255. *)
Definition toLowerCaseChar (c : ascii) : ascii :=
  let n := nat_of_ascii c in
  if (Nat.leb 65 n && Nat.leb n 90)
     || (Nat.leb 192 n && Nat.leb n 222 && negb (Nat.eqb n 215))
  then ascii_of_nat (n + 32)
  else c.

Fixpoint toLowerCase (s : string) : string :=
  match s with
  | EmptyString => EmptyString
  | String c s' => String (toLowerCaseChar c) (toLowerCase s')
  end.

(** [String.prototype.startsWith] (the argument order of the method call:
    [startsWith s k] is [s.startsWith(k)]). *)
Fixpoint startsWith (s k : string) {struct k} : bool :=
  match k with
  | EmptyString => true
  | String c k' =>
      match s with
      | EmptyString => false
      | String d s' => Ascii.eqb d c && startsWith s' k'
      end
  end.

(** [String.prototype.includes]: [includes s k] is [s.includes(k)]. *)
Fixpoint includes (s k : string) : bool :=
  startsWith s k ||
  match s with
  | EmptyString => false
  | String _ s' => includes s' k
  end.

(** White space and line terminators removed by [trim], in 0..255. *)
Definition isWhiteSpace (c : ascii) : bool :=
  let n := nat_of_ascii c in
  (Nat.leb 9 n && Nat.leb n 13) || Nat.eqb n 32 || Nat.eqb n 160.

Fixpoint trimStart (s : string) : string :=
  match s with
  | EmptyString => EmptyString
  | String c s' => if isWhiteSpace c then trimStart s' else s
  end.

Fixpoint trimEnd (s : string) : string :=
  match s with
  | EmptyString => EmptyString
  | String c s' =>
      match trimEnd s' with
      | EmptyString => if isWhiteSpace c then EmptyString else String c EmptyString
      | t => String c t
      end
  end.

Definition trim (s : string) : string := trimEnd (trimStart s).

(** Truthiness of a string: only the empty string is falsy. *)
Definition truthy (s : string) : bool :=
  match s with
  | EmptyString => false
  | String _ _ => true
  end.

(** [s.split('\n')] *)
Fixpoint splitLines (s : string) : list string :=
  match s with
  | EmptyString => [EmptyString]
  | String c s' =>
      if Ascii.eqb c "010"%char then EmptyString :: splitLines s'
      else match splitLines s' with
           | l :: ls => String c l :: ls
           | [] => [String c EmptyString]
           end
  end.

(** [Array.prototype.join] *)
Fixpoint join (sep : string) (ls : list string) : string :=
  match ls with
  | [] => EmptyString
  | [l] => l
  | l :: ls' => l +:+ sep +:+ join sep ls'
  end.

(** [Array.prototype.indexOf]: the first index holding [x], or [-1]. *)
Fixpoint indexOfFrom (l : list string) (x : string) (i : Z) : Z :=
  match l with
  | [] => (-1)%Z
  | y :: l' => if String.eqb y x then i else indexOfFrom l' x (i + 1)%Z
  end.

Definition indexOf (l : list string) (x : string) : Z := indexOfFrom l x 0%Z.

(** [arr.splice(index, 1)] for an index that is not negative. *)
Definition splice1 (index : Z) (l : list string) : list string :=
  delete (Z.to_nat index) l.

(** [arr.push(x)] *)
Definition push (l : list string) (x : string) : list string := l ++ [x].

(** [new Set(iterable)], kept in insertion order as the spread
    [[...set]] enumerates it: adding a member again changes nothing. *)
Definition setAdd (s : list string) (x : string) : list string :=
  if bool_decide (x ∈ s) then s else s ++ [x].

Definition newSet (l : list string) : list string := fold_left setAdd l [].

End Js.

(** ** The host's data: URIs, changes and repository state *)

Module Api.

(** [vscode.Uri], reduced to its file-system path: [Uri.file(p).fsPath] is
    [p]. *)
Record Uri : Type := UriFile { fsPath : string }.

Record Change : Type := { uri : Uri; status : option nat }.

Record GitState : Type := {
  indexChanges : list Change;
  workingTreeChanges : list Change;
  untrackedChanges : list Change
}.

(** Calls that leave the extension, in the order they are made. *)
Inductive Event : Type :=
| RepoAdd (path : string)
| SimpleGitAdd (paths : list string)
| RepoCommit (message : string) (amend : bool)
| SimpleGitCommit (message : string) (amend : bool)
| ShowInformationMessage (text : string)
| ShowErrorMessage (text : string)
| FireGitStateChange.

(** The repository object of the host Git API. Its [state] may be missing at
    run time (the code checks for it); [add] and [commit] either resolve
    ([None]) or reject with a thrown value, depending on the calls made so
    far. *)
Record Repository : Type := {
  rootUri : Uri;
  state : option GitState;
  add : list Event → Uri → option Js.Thrown;
  commit : list Event → string → bool → option Js.Thrown
}.

(** A simple-git instance. *)
Record SimpleGit : Type := {
  sg_diff : list string → Js.Completion string;
  sg_add : list Event → list string → option Js.Thrown;
  sg_commit : list Event → string → bool → option Js.Thrown
}.

End Api.
Import Api.

(** ** FileSelectionService *)

Module FileSelectionService.
Import Js.

(** The key of [`selected-files:${repoPath}`]. *)
Definition selectionKey (repoPath : string) : string :=
  "selected-files:" +:+ repoPath.

(** [workspaceState.get<string[]>(key, [])] *)
Definition storedSelection (ws : gmap string (list string)) (repoPath : string)
  : list string :=
  default [] (ws !! selectionKey repoPath).

Definition getChangedFiles (st : GitState) : list Uri :=
  let changedFiles :=
    indexChanges st ++ workingTreeChanges st ++ untrackedChanges st in
  let uris := map uri changedFiles in
  let uniqueFilePaths := newSet (map fsPath uris) in
  map UriFile uniqueFilePaths.

Definition getSelectedFiles (ws : gmap string (list string)) (repoUri : Uri)
  : list Uri :=
  map UriFile (storedSelection ws (fsPath repoUri)).

Definition toggleFileSelection (fileUri repoUri : Uri)
  (ws : gmap string (list string)) : gmap string (list string) :=
  let repoPath := fsPath repoUri in
  let selectedPaths := storedSelection ws repoPath in
  let filePath := fsPath fileUri in
  let index := indexOf selectedPaths filePath in
  let selectedPaths' :=
    if (-1 <? index)%Z then splice1 index selectedPaths
    else push selectedPaths filePath in
  <[selectionKey repoPath := selectedPaths']> ws.

Definition setFileSelection (fileUri repoUri : Uri) (isSelected : bool)
  (ws : gmap string (list string)) : gmap string (list string) :=
  let repoPath := fsPath repoUri in
  let selectedPaths := storedSelection ws repoPath in
  let filePath := fsPath fileUri in
  let index := indexOf selectedPaths filePath in
  let selectedPaths' :=
    if isSelected && (index =? -1)%Z then push selectedPaths filePath
    else if negb isSelected && (-1 <? index)%Z then splice1 index selectedPaths
    else selectedPaths in
  <[selectionKey repoPath := selectedPaths']> ws.

Definition clearSelection (repoUri : Uri) (ws : gmap string (list string))
  : gmap string (list string) :=
  <[selectionKey (fsPath repoUri) := []]> ws.

End FileSelectionService.

(** ** GitDiffService *)

Module GitDiffService.
Import Js.

(** What the service reads from its surroundings: the simple-git instances
    keyed by repository root, and [vscode.workspace.openTextDocument]
    followed by [getText]. *)
Record Host : Type := {
  simpleGitInstances : gmap string SimpleGit;
  openTextDocument : Uri → Completion string
}.

Definition truncationMarker : string :=
  nl +:+ "... (diff truncated for AI analysis)".

(** The body of the [try] block of [getGitDiff], from the resolved output of
    [git.diff] on. *)
Definition capDiff (gitDiff relativePath changeType : string) : string :=
  let diff :=
    if truthy gitDiff then gitDiff else changeType +:+ ": " +:+ relativePath in
  if Nat.ltb 2000 (String.length diff)
  then
    let lines := splitLines diff in
    join nl (take 50 lines) +:+ truncationMarker
  else diff.

Definition getGitDiff (h : Host) (repository : Repository)
  (relativePath changeType : string) : string :=
  let fallback := changeType +:+ ": " +:+ relativePath in
  match simpleGitInstances h !! fsPath (rootUri repository) with
  | Some git =>
      match sg_diff git ["HEAD"; "--"; relativePath] with
      | Normal gitDiff => capDiff gitDiff relativePath changeType
      | Throw _ => fallback
      end
  | None => fallback
  end.

Definition getNewFileDiff (h : Host) (fileUri : Uri) (relativePath : string)
  : string :=
  match openTextDocument h fileUri with
  | Normal content =>
      let lines := splitLines content in
      "+++ " +:+ relativePath +:+ nl
      +:+ join nl (take 50 (map (λ line, "+" +:+ line) lines))
      +:+ (if Nat.ltb 50 (length lines) then nl +:+ "... (truncated)"
           else EmptyString)
  | Throw _ => "New file: " +:+ relativePath
  end.

Definition getFileDiff (h : Host) (repository : Repository) (fileUri : Uri)
  (relativePath changeType : string) : string :=
  if String.eqb changeType "A"
  then getNewFileDiff h fileUri relativePath
  else getGitDiff h repository relativePath changeType.

End GitDiffService.

(** ** GitValidationService *)

Module GitValidationService.
Import Js.

(** The repository argument as [validateCommitSetup] inspects it at run
    time: every member it tests may be absent. *)
Record RepositoryValue : Type := {
  rv_rootUri : option Uri;
  rv_add_is_function : bool;
  rv_commit_is_function : bool;
  rv_state : option GitState
}.

Record ValidationResult : Type := {
  isValid : bool;
  issues : list string
}.

(** [issues.push(text)] when the test holds. *)
Definition pushIf (test : bool) (text : string) (issues : list string)
  : list string :=
  if test then push issues text else issues.

(** [arr.length === 0] *)
Definition isEmpty {A} (l : list A) : bool :=
  match l with [] => true | _ => false end.

Definition validSelectedFiles (selectedFiles changedFiles : list Uri)
  : list Uri :=
  filter (λ selected,
            existsb (λ changed, String.eqb (fsPath changed) (fsPath selected))
                    changedFiles = true)
         selectedFiles.

(** No statement of the [try] block throws once the two leading guards are
    passed, so the [catch] clause is not part of the model. *)
Definition validateCommitSetup (repository : option RepositoryValue)
  (selectedFiles changedFiles : list Uri) : ValidationResult :=
  let issues : list string := [] in
  match repository with
  | None =>
      {| isValid := false; issues := push issues "No repository provided" |}
  | Some repository =>
      match rv_rootUri repository with
      | None =>
          {| isValid := false;
             issues := push issues "Repository has no root URI" |}
      | Some _ =>
          let issues :=
            pushIf (negb (rv_add_is_function repository))
                   "Repository.add method not available" issues in
          let issues :=
            pushIf (negb (rv_commit_is_function repository))
                   "Repository.commit method not available" issues in
          let issues :=
            pushIf (isEmpty selectedFiles)
                   "No files selected for commit" issues in
          let valid := validSelectedFiles selectedFiles changedFiles in
          let issues :=
            pushIf (isEmpty valid) "Selected files have no changes" issues in
          let issues :=
            pushIf (negb (bool_decide (is_Some (rv_state repository))))
                   "Repository state is not available" issues in
          {| isValid := isEmpty issues; issues := issues |}
      end
  end.

(** The five checks as the specification words them: all of them run, in
    order, and none stops the others. Used only to compare with
    [validateCommitSetup]. *)
Definition spec_validate (repository : option RepositoryValue)
  (selectedFiles changedFiles : list Uri) : ValidationResult :=
  let handle_present :=
    bool_decide (is_Some (repository ≫= rv_rootUri)) in
  let add_present :=
    from_option rv_add_is_function false repository in
  let commit_present :=
    from_option rv_commit_is_function false repository in
  let state_present :=
    bool_decide (is_Some (repository ≫= rv_state)) in
  let issues : list string := [] in
  let issues :=
    pushIf (negb handle_present)
           (match repository with
            | None => "No repository provided"
            | Some _ => "Repository has no root URI"
            end) issues in
  let issues :=
    pushIf (negb add_present) "Repository.add method not available" issues in
  let issues :=
    pushIf (negb commit_present)
           "Repository.commit method not available" issues in
  let issues :=
    pushIf (isEmpty selectedFiles) "No files selected for commit" issues in
  let issues :=
    pushIf (isEmpty (validSelectedFiles selectedFiles changedFiles))
           "Selected files have no changes" issues in
  let issues :=
    pushIf (negb state_present) "Repository state is not available" issues in
  {| isValid := isEmpty issues; issues := issues |}.

End GitValidationService.

(** ** CommitMessageGenerator *)

Module CommitMessageGenerator.
Import Js.

Record FileChangeAnalysis : Type := {
  fileName : string;
  changeType : string;
  diff : string;
  summary : string
}.

(** [getChangeTypeLabel]: the label of a status number. *)
Definition getChangeTypeLabel (status : nat) : string :=
  match status with
  | 0 => "U"
  | 1 => "A"
  | 2 => "M"
  | 3 => "D"
  | 4 => "R"
  | 5 => "C"
  | 6 => "U"
  | _ => "M"
  end.

(** [changes.find(change => change.uri.fsPath === fileUri.fsPath)] *)
Definition findChange (changes : list Change) (fileUri : Uri) : option Change :=
  find (λ change, String.eqb (fsPath (uri change)) (fsPath fileUri)) changes.

(** The change type of a file: an untracked entry is preferred to a staged
    one, and a staged one to a working-tree one. *)
Definition getFileChangeInfo (st : GitState) (fileUri : Uri)
  : option (string * Change) :=
  let stagedChange := findChange (indexChanges st) fileUri in
  let workingTreeChange := findChange (workingTreeChanges st) fileUri in
  let untrackedChange := findChange (untrackedChanges st) fileUri in
  match untrackedChange, stagedChange, workingTreeChange with
  | Some change, _, _ => Some ("A", change)
  | None, Some change, _ =>
      Some (getChangeTypeLabel (default 0 (status change)), change)
  | None, None, Some change =>
      Some (getChangeTypeLabel (default 0 (status change)), change)
  | None, None, None => None
  end.

Definition createChangeSummary (fileName changeType : string) : string :=
  if String.eqb changeType "A" then "Added new file: " +:+ fileName
  else if String.eqb changeType "D" then "Deleted file: " +:+ fileName
  else if String.eqb changeType "R" then "Renamed file: " +:+ fileName
  else if String.eqb changeType "M" then "Modified file: " +:+ fileName
  else "Changed file: " +:+ fileName.

(** The three fixed pieces of the template literal of
    [createDetailedCommitPrompt]. *)
Definition promptHead : string :=
  "Generate a concise, professional Git commit message following conventional commit format."
  +:+ nl +:+ nl +:+ "Files changed:" +:+ nl.

Definition promptMiddle : string :=
  nl +:+ nl +:+ "Detailed changes:" +:+ nl.

Definition promptTail : string :=
  nl +:+ nl +:+ "Please generate a commit message that:" +:+ nl
  +:+ "1. Uses conventional commit format (feat:, fix:, docs:, style:, refactor:, test:, chore:)"
  +:+ nl
  +:+ "2. Is concise but descriptive (50-72 characters for the title)" +:+ nl
  +:+ "3. Captures the main purpose of these changes" +:+ nl
  +:+ "4. Uses present tense (e.g., " +:+ dquote +:+ "add feature" +:+ dquote
  +:+ " not " +:+ dquote +:+ "added feature" +:+ dquote +:+ ")"
  +:+ nl +:+ nl
  +:+ "Return only the commit message, no additional text.".

Definition createDetailedCommitPrompt (diffsAndContext : list FileChangeAnalysis)
  : string :=
  let filesSummary :=
    join nl (map (λ item, "- " +:+ summary item) diffsAndContext) in
  let detailedChanges :=
    join (nl +:+ nl +:+ "---" +:+ nl +:+ nl)
         (map (λ item,
                 "File: " +:+ fileName item +:+ nl
                 +:+ "Change Type: " +:+ changeType item +:+ nl
                 +:+ "Diff:" +:+ nl +:+ diff item)
              diffsAndContext) in
  promptHead +:+ filesSummary +:+ promptMiddle +:+ detailedChanges
  +:+ promptTail.

(** [Object.entries] of an object literal with string keys: the pairs in the
    order they are written. *)
Definition typeMap : list (string * list string) :=
  [ ("fix", ["fix"; "bug"; "error"]);
    ("test", ["test"; "spec"]);
    ("docs", ["doc"; "readme"; ".md"]);
    ("refactor", ["refactor"; "restructure"]);
    ("style", ["style"; "format"]);
    ("chore", ["delete"; "remove"]) ].

Definition scopeMap : list (string * list string) :=
  [ ("deps", ["package.json"]);
    ("test", ["test"; "spec"]);
    ("docs", ["doc"; "readme"]);
    ("config", ["config"; ".json"; ".yml"]);
    ("ui", ["ui"; "component"]);
    ("api", ["api"; "service"]) ].

(** The loop shared by [determineCommitType] and [determineScope]: the first
    entry one of whose keywords occurs in the text, or the default. *)
Fixpoint firstMatch (entries : list (string * list string))
  (lowerPrompt fallback : string) : string :=
  match entries with
  | [] => fallback
  | (name, keywords) :: rest =>
      if existsb (λ keyword, includes lowerPrompt keyword) keywords
      then name
      else firstMatch rest lowerPrompt fallback
  end.

Definition determineCommitType (prompt : string) : string :=
  let lowerPrompt := toLowerCase prompt in
  firstMatch typeMap lowerPrompt "feat".

Definition determineScope (prompt : string) : string :=
  let lowerPrompt := toLowerCase prompt in
  firstMatch scopeMap lowerPrompt "".

Definition getDescriptionMap : list (string * list (string * string)) :=
  [ ("fix", [("bug", "resolve critical bug"); ("error", "handle error cases")]);
    ("feat", [("add", "add new feature");
              ("implement", "implement functionality")]) ].

(** [obj[key]] on an object literal with the given entries. *)
Fixpoint property {A} (entries : list (string * A)) (key : string) : option A :=
  match entries with
  | [] => None
  | (k, v) :: rest => if String.eqb k key then Some v else property rest key
  end.

Definition getDefaultDescription (commitType : string) : string :=
  let defaults :=
    [ ("feat", "add new functionality");
      ("fix", "resolve issues");
      ("docs", "update documentation");
      ("style", "format code");
      ("refactor", "improve structure");
      ("test", "add tests");
      ("chore", "update tasks") ] in
  default "update codebase" (property defaults commitType).

Fixpoint firstDescription (entries : list (string * string))
  (lowerPrompt : string) : option string :=
  match entries with
  | [] => None
  | (keyword, description) :: rest =>
      if includes lowerPrompt keyword then Some description
      else firstDescription rest lowerPrompt
  end.

Definition generateDescription (prompt commitType : string) : string :=
  let lowerPrompt := toLowerCase prompt in
  let descriptions := getDescriptionMap in
  match property descriptions commitType with
  | Some typeDescriptions =>
      match firstDescription typeDescriptions lowerPrompt with
      | Some description => description
      | None => getDefaultDescription commitType
      end
  | None => getDefaultDescription commitType
  end.

(** Nothing in the [try] block throws, so the promise always resolves to a
    string. *)
Definition generateIntelligentCommitMessage (prompt : string) : option string :=
  let commitType := determineCommitType prompt in
  let scope := determineScope prompt in
  let description := generateDescription prompt commitType in
  let scopePart := if truthy scope then "(" +:+ scope +:+ ")" else "" in
  Some (commitType +:+ scopePart +:+ ": " +:+ description).

End CommitMessageGenerator.

(** ** Sequential effects: the world the orchestration acts on *)

Module Effects.
Import Js.

(** What a command can change or be observed to do: the workspace-scoped
    key-value store and the log of outgoing calls. *)
Record World : Type := {
  workspaceState : gmap string (list string);
  log : list Event
}.

(** An asynchronous method: from a world to its completion and the world it
    leaves behind. A rejection keeps the effects made before it. *)
Definition M (A : Type) : Type := World → Completion A * World.

Definition ret {A} (a : A) : M A := λ w, (Normal a, w).

Definition bind {A B} (m : M A) (k : A → M B) : M B :=
  λ w, match m w with
       | (Normal a, w') => k a w'
       | (Throw e, w') => (Throw e, w')
       end.

Definition throw {A} (e : Thrown) : M A := λ w, (Throw e, w).

(** [try { body } catch (error) { handler }] *)
Definition tryCatch {A} (body : M A) (handler : Thrown → M A) : M A :=
  λ w, match body w with
       | (Normal a, w') => (Normal a, w')
       | (Throw e, w') => handler e w'
       end.

(** An awaited call that leaves the extension: it is logged, and resolves or
    rejects as [outcome] says of the calls made before it. *)
Definition external (ev : Event) (outcome : list Event → option Thrown)
  : M unit :=
  λ w,
    let w' := {| workspaceState := workspaceState w; log := log w ++ [ev] |} in
    match outcome (log w) with
    | None => (Normal tt, w')
    | Some e => (Throw e, w')
    end.

(** A call of the notification API or an event emitter: never rejects. *)
Definition notify (ev : Event) : M unit := external ev (λ _, None).

(** Reading and updating the store. *)
Definition readStore {A} (f : gmap string (list string) → A) : M A :=
  λ w, (Normal (f (workspaceState w)), w).

Definition updateStore
  (f : gmap string (list string) → gmap string (list string)) : M unit :=
  λ w, (Normal tt, {| workspaceState := f (workspaceState w); log := log w |}).

(** [for (const x of xs) { await body(x); }] *)
Fixpoint forOf {A} (xs : list A) (body : A → M unit) : M unit :=
  match xs with
  | [] => ret tt
  | x :: xs' => bind (body x) (λ _, forOf xs' body)
  end.

End Effects.

Declare Scope js_scope.
Delimit Scope js_scope with js.
Notation "x <- m ;; k" := (Effects.bind m (λ x, k))
  (at level 100, m at next level, right associativity) : js_scope.
Notation "m ;;; k" := (Effects.bind m (λ _, k))
  (at level 100, right associativity) : js_scope.

(** ** GitService: the commit orchestration *)

Module GitService.
Import Js Effects.
Local Open Scope js_scope.

(** The fields of the service its methods read: the simple-git instances by
    repository root, and [vscode.workspace.asRelativePath(uri, false)]. *)
Record Service : Type := {
  simpleGitInstances : gmap string SimpleGit;
  asRelativePath : Uri → string
}.

Definition getChangedFiles (repository : Repository) : M (list Uri) :=
  match state repository with
  | Some st => ret (FileSelectionService.getChangedFiles st)
  | None =>
      throw (JsError "Cannot read properties of undefined (reading 'indexChanges')")
  end.

Definition getSelectedFiles (repoUri : Uri) : M (list Uri) :=
  readStore (λ ws, FileSelectionService.getSelectedFiles ws repoUri).

Definition toggleFileSelection (fileUri repoUri : Uri) : M unit :=
  updateStore (FileSelectionService.toggleFileSelection fileUri repoUri) ;;;
  notify FireGitStateChange.

Definition setFileSelection (fileUri repoUri : Uri) (isSelected : bool)
  : M unit :=
  updateStore (FileSelectionService.setFileSelection fileUri repoUri isSelected) ;;;
  notify FireGitStateChange.

(** [await repository.add([uri])] *)
Definition repositoryAdd (repository : Repository) (u : Uri) : M unit :=
  external (RepoAdd (fsPath u)) (λ h, add repository h u).

Definition stageWithSimpleGit (s : Service) (repository : Repository)
  (files : list Uri) : M unit :=
  match simpleGitInstances s !! fsPath (rootUri repository) with
  | None => throw (JsError "Simple-git instance not found for repository")
  | Some simpleGitInstance =>
      tryCatch
        (let filePaths := map (asRelativePath s) files in
         external (SimpleGitAdd filePaths)
                  (λ h, sg_add simpleGitInstance h filePaths))
        (λ error,
           throw (JsError ("Failed to stage files: " +:+ errorMessage error)))
  end.

Definition stageSelectedFiles (s : Service) (repository : Repository)
  : M unit :=
  selectedUris <- getSelectedFiles (rootUri repository) ;;
  match selectedUris with
  | [] =>
      changedFiles <- getChangedFiles repository ;;
      match changedFiles with
      | [] => throw (JsError "No changed files to stage. Make some changes first.")
      | _ =>
          tryCatch (forOf changedFiles (repositoryAdd repository))
                   (λ _, stageWithSimpleGit s repository changedFiles)
      end
  | _ =>
      tryCatch (forOf selectedUris (repositoryAdd repository))
               (λ _, stageWithSimpleGit s repository selectedUris)
  end.

Definition commitWithSimpleGit (s : Service) (repository : Repository)
  (message : string) (amend : bool) : M unit :=
  match simpleGitInstances s !! fsPath (rootUri repository) with
  | None => throw (JsError "Simple-git instance not found for repository")
  | Some simpleGitInstance =>
      tryCatch
        (external (SimpleGitCommit message amend)
                  (λ h, sg_commit simpleGitInstance h message amend))
        (λ error, throw error)
  end.

Definition commit (s : Service) (repository : Repository) (message : string)
  (amend : bool) : M unit :=
  if negb (truthy (trim message))
  then throw (JsError "Commit message cannot be empty")
  else
    tryCatch
      ((match state repository with
        | None => throw (JsError "Repository state is not available")
        | Some _ => ret tt
        end) ;;;
       (if negb amend then stageSelectedFiles s repository else ret tt) ;;;
       tryCatch
         (external (RepoCommit message amend)
                   (λ h, Api.commit repository h message amend))
         (λ _, commitWithSimpleGit s repository message amend) ;;;
       notify (ShowInformationMessage "Commit successful!") ;;;
       updateStore (FileSelectionService.clearSelection (rootUri repository)) ;;;
       notify FireGitStateChange)
      (λ error,
         let errorMessage := errorMessage error in
         notify (ShowErrorMessage ("Commit failed: " +:+ errorMessage)) ;;;
         throw (JsError ("Commit failed: " +:+ errorMessage))).

End GitService.

(** ** The second variant of GitService found in the sources

    It has no simple-git fallback; its [commit] does not stage, and its
    [stageSelectedFiles] rejects an empty selection. *)

Module GitServiceAlt.
Import Js Effects.
Local Open Scope js_scope.

Definition stageSelectedFiles (repository : Repository) : M unit :=
  selectedUris <- GitService.getSelectedFiles (rootUri repository) ;;
  match selectedUris with
  | [] => throw (JsError "No files selected for staging")
  | _ =>
      tryCatch (forOf selectedUris (GitService.repositoryAdd repository))
               (λ error,
                  throw (JsError ("Failed to stage files: "
                                  +:+ errorMessage error)))
  end.

Definition commit (repository : Repository) (message : string) (amend : bool)
  : M unit :=
  if negb (truthy (trim message))
  then throw (JsError "Commit message cannot be empty")
  else
    tryCatch
      (external (RepoCommit message amend)
                (λ h, Api.commit repository h message amend) ;;;
       updateStore (FileSelectionService.clearSelection (rootUri repository)) ;;;
       notify FireGitStateChange)
      (λ error,
         throw (JsError ("Commit failed: " +:+ errorMessage error))).

End GitServiceAlt.

(** ** The specification's reading of the change enumeration *)

Module SpecReading.

(** Keep the first occurrence of every element. *)
Fixpoint firstOccurrences (l : list string) : list string :=
  match l with
  | [] => []
  | x :: l' => x :: filter (λ y, y ≠ x) (firstOccurrences l')
  end.

Definition paths (changes : list Change) : list string :=
  map (λ c, fsPath (uri c)) changes.

(** "First occurrence wins" under the priority untracked > staged >
    working-tree, as the specification words it. Used only to compare with
    [FileSelectionService.getChangedFiles]. *)
Definition spec_listChanges (st : GitState) : list Uri :=
  map UriFile
      (firstOccurrences
         (paths (untrackedChanges st) ++ paths (indexChanges st)
          ++ paths (workingTreeChanges st))).

(** The same priority when the categories are listed as the code lists them
    (staged, working-tree, untracked) and, of a path found in several
    categories, the occurrence in the category of highest priority is the one
    kept. Used only to compare with
    [FileSelectionService.getChangedFiles]. *)
Definition spec_keepByPriority (st : GitState) : list Uri :=
  let untracked := firstOccurrences (paths (untrackedChanges st)) in
  let staged := firstOccurrences (paths (indexChanges st)) in
  let working := firstOccurrences (paths (workingTreeChanges st)) in
  map UriFile
      (filter (λ p, p ∉ untracked) staged
       ++ filter (λ p, (p ∉ untracked) ∧ (p ∉ staged)) working
       ++ untracked).

(** The SelectionSet of a repository: the set of the stored paths. *)
Definition selectionSet (ws : gmap string (list string)) (repoPath : string)
  : gset string :=
  list_to_set (FileSelectionService.storedSelection ws repoPath).

End SpecReading.

(** ** Auxiliary notions used in the proofs *)

Module ProofSupport.
Import Js.

(** What [toggleFileSelection] does to the stored array. *)
Definition toggled (l : list string) (x : string) : list string :=
  if (-1 <? indexOf l x)%Z then splice1 (indexOf l x) l else push l x.

(** What [setFileSelection] does to the stored array. *)
Definition selected (l : list string) (x : string) (isSelected : bool)
  : list string :=
  if isSelected && (indexOf l x =? -1)%Z then push l x
  else if negb isSelected && (-1 <? indexOf l x)%Z
       then splice1 (indexOf l x) l
       else l.

(** A string made of white space only (the empty string included). *)
Fixpoint onlyWhiteSpace (s : string) : bool :=
  match s with
  | EmptyString => true
  | String c s' => isWhiteSpace c && onlyWhiteSpace s'
  end.

(** A string without a line feed. *)
Fixpoint singleLine (s : string) : bool :=
  match s with
  | EmptyString => true
  | String c s' => negb (Ascii.eqb c "010"%char) && singleLine s'
  end.

(** The stores the service can be in: the operations applied, in any order,
    to the store in which no key was written yet. *)
Inductive reachable : gmap string (list string) → Prop :=
| reachable_empty : reachable ∅
| reachable_toggle ws fileUri repoUri :
    reachable ws →
    reachable (FileSelectionService.toggleFileSelection fileUri repoUri ws)
| reachable_set ws fileUri repoUri isSelected :
    reachable ws →
    reachable
      (FileSelectionService.setFileSelection fileUri repoUri isSelected ws)
| reachable_clear ws repoUri :
    reachable ws →
    reachable (FileSelectionService.clearSelection repoUri ws).

(** The issue a check contributes: its text when it fails, nothing
    otherwise. *)
Definition issueIf (test : bool) (text : string) : list string :=
  if test then [text] else [].

(** The commit step goes through: the host API accepts the commit, or it
    refuses and the simple-git instance of the repository accepts it. *)
Definition commitStepResolves (s : GitService.Service)
  (repository : Repository) (message : string) (amend : bool)
  (h : list Event) : Prop :=
  Api.commit repository h message amend = None
  ∨ (is_Some (Api.commit repository h message amend)
     ∧ ∃ git,
         GitService.simpleGitInstances s !! fsPath (rootUri repository)
         = Some git
         ∧ sg_commit git (h ++ [RepoCommit message amend]) message amend
           = None).

(** The calls of [repository.add] for the given files, one per file. *)
Definition addCalls (files : list Uri) : list Event :=
  map (λ u, RepoAdd (fsPath u)) files.

(** The files a commit that does not amend stages: the selected ones or,
    with nothing selected, the changed ones (there are none to be had
    without the repository state). *)
Definition filesToStage (repository : Repository)
  (ws : gmap string (list string)) : list Uri :=
  match FileSelectionService.getSelectedFiles ws (rootUri repository) with
  | [] => from_option FileSelectionService.getChangedFiles [] (state repository)
  | selectedUris => selectedUris
  end.

(** The calls to one of the two Git clients, as opposed to notifications. *)
Definition clientCall (ev : Event) : Prop :=
  match ev with
  | RepoAdd _ | SimpleGitAdd _ | RepoCommit _ _ | SimpleGitCommit _ _ => True
  | ShowInformationMessage _ | ShowErrorMessage _ | FireGitStateChange => False
  end.

(** A method that leaves the store alone and only calls the Git clients. *)
Definition quiet {A} (m : Effects.M A) : Prop :=
  ∀ w,
    Effects.workspaceState (m w).2 = Effects.workspaceState w
    ∧ ∃ evs, Effects.log (m w).2 = Effects.log w ++ evs
             ∧ Forall clientCall evs.

End ProofSupport.

(** ** Sample inputs *)

Module Samples.
Import Js Effects.

Fixpoint repeatString (n : nat) (s : string) : string :=
  match n with
  | O => EmptyString
  | S n' => s +:+ repeatString n' s
  end.

(** A diff of sixty lines of a hundred characters each. *)
Definition longDiff : string :=
  join nl (replicate 60 (repeatString 100 "x")).

Definition neverRejects {A B} : A → B → option Thrown := λ _ _, None.

Definition sampleGit : SimpleGit :=
  {| sg_diff := λ _, Normal longDiff;
     sg_add := neverRejects;
     sg_commit := λ _ _ _, None |}.

Definition sampleState : GitState :=
  {| indexChanges := [];
     workingTreeChanges :=
       [ {| uri := UriFile "/repo/b.txt"; status := Some 5 |};
         {| uri := UriFile "/repo/c.txt"; status := Some 5 |} ];
     untrackedChanges := [] |}.

Definition sampleRepository : Repository :=
  {| rootUri := UriFile "/repo";
     state := Some sampleState;
     add := neverRejects;
     commit := λ _ _ _, None |}.

Definition sampleHost : GitDiffService.Host :=
  {| GitDiffService.simpleGitInstances := {[ "/repo" := sampleGit ]};
     GitDiffService.openTextDocument := λ _, Throw JsNonError |}.

(** [asRelativePath] for files below [/repo/]. *)
Definition sampleService : GitService.Service :=
  {| GitService.simpleGitInstances := {[ "/repo" := sampleGit ]};
     GitService.asRelativePath :=
       λ u, String.substring 6 (String.length (fsPath u) - 6) (fsPath u) |}.

Definition emptyWorld : World := {| workspaceState := ∅; log := [] |}.

(** A repository in which nothing has changed. *)
Definition cleanRepository : Repository :=
  {| rootUri := UriFile "/repo";
     state := Some {| indexChanges := [];
                      workingTreeChanges := [];
                      untrackedChanges := [] |};
     add := neverRejects;
     commit := λ _ _ _, None |}.

(** The scenario in which both clients refuse to stage the selected
    [a.txt]. *)
Definition refusingGit : SimpleGit :=
  {| sg_diff := λ _, Throw (JsError "diff failed");
     sg_add := λ _ _, Some (JsError "fallback add failed");
     sg_commit := λ _ _ _, Some (JsError "fallback commit failed") |}.

Definition refusingRepository : Repository :=
  {| rootUri := UriFile "/repo";
     state := Some sampleState;
     add := λ _ _, Some (JsError "primary add failed");
     commit := λ _ _ _, Some (JsError "primary commit failed") |}.

Definition refusingService : GitService.Service :=
  {| GitService.simpleGitInstances := {[ "/repo" := refusingGit ]};
     GitService.asRelativePath := GitService.asRelativePath sampleService |}.

Definition selectedWorld : World :=
  {| workspaceState :=
       {[ FileSelectionService.selectionKey "/repo" := ["/repo/a.txt"] ]};
     log := [] |}.

(** A state in which [b.txt] is listed twice, as staged and as untracked,
    after the untracked [a.txt]. *)
Definition stagedAndUntracked : GitState :=
  {| indexChanges := [ {| uri := UriFile "/repo/b.txt"; status := Some 0 |} ];
     workingTreeChanges := [];
     untrackedChanges :=
       [ {| uri := UriFile "/repo/a.txt"; status := Some 7 |};
         {| uri := UriFile "/repo/b.txt"; status := Some 7 |} ] |}.

End Samples.

(** ** Further JavaScript primitives *)

Module JsText.
Import Js.

(** [s.split(sep)] for a separator of one character. *)
Fixpoint splitOn (sep : ascii) (s : string) : list string :=
  match s with
  | EmptyString => [EmptyString]
  | String c s' =>
      if Ascii.eqb c sep then EmptyString :: splitOn sep s'
      else match splitOn sep s' with
           | l :: ls => String c l :: ls
           | [] => [String c EmptyString]
           end
  end.

(** [s.substring(0, n)] *)
Fixpoint substring0 (n : nat) (s : string) : string :=
  match n, s with
  | S n', String c s' => String c (substring0 n' s')
  | _, _ => EmptyString
  end.

(** [s.endsWith(c)] for one character. *)
Fixpoint endsWithChar (s : string) (c : ascii) : bool :=
  match s with
  | EmptyString => false
  | String d EmptyString => Ascii.eqb d c
  | String _ s' => endsWithChar s' c
  end.

(** [s.startsWith(c)] for one character. *)
Definition startsWithChar (s : string) (c : ascii) : bool :=
  match s with
  | EmptyString => false
  | String d _ => Ascii.eqb d c
  end.

(** The string without its last character. *)
Fixpoint dropLast (s : string) : string :=
  match s with
  | EmptyString => EmptyString
  | String _ EmptyString => EmptyString
  | String c s' => String c (dropLast s')
  end.

(** [s.slice(1, -1)] *)
Definition slice1 (s : string) : string :=
  match s with
  | EmptyString => EmptyString
  | String _ s' => dropLast s'
  end.

(** What is left of [s] after a prefix that matches the literal [k] of a
    regular expression with the flag [i]; [k] is written in lower case. *)
Fixpoint afterIgnoreCase (s k : string) {struct k} : option string :=
  match k with
  | EmptyString => Some s
  | String c k' =>
      match s with
      | EmptyString => None
      | String d s' =>
          if Ascii.eqb (toLowerCaseChar d) c then afterIgnoreCase s' k'
          else None
      end
  end.

(** [s.replace(re, '')], where [re] matches, at the start only and
    ignoring case: the word commit, one or more white-space characters, the
    word message with its colon, and any white space after it. *)
Definition removeCommitMessagePrefix (s : string) : string :=
  match afterIgnoreCase s "commit" with
  | Some r1 =>
      match r1 with
      | String c _ =>
          if isWhiteSpace c
          then match afterIgnoreCase (trimStart r1) "message:" with
               | Some r2 => trimStart r2
               | None => s
               end
          else s
      | EmptyString => s
      end
  | None => s
  end.

End JsText.

(** ** GitValidationService: the commit message *)

Module CommitMessageValidation.
Import Js JsText GitValidationService.

(** [arr[0]] of the array a [split] returns. *)
Definition firstLineOf (s : string) : string :=
  match splitOn "010" s with
  | l :: _ => l
  | [] => EmptyString
  end.

(** The test against the conventional-commit pattern only writes to the
    console, so it is left out. *)
Definition validateCommitMessage (message : string) : ValidationResult :=
  let issues : list string := [] in
  if negb (truthy message) || Nat.eqb (String.length (trim message)) 0
  then {| isValid := false;
          issues := push issues "Commit message cannot be empty" |}
  else
    let trimmedMessage := trim message in
    let issues :=
      pushIf (Nat.ltb (String.length trimmedMessage) 10)
             "Commit message should be at least 10 characters long" issues in
    let firstLine := firstLineOf trimmedMessage in
    let issues :=
      pushIf (Nat.ltb 72 (String.length firstLine))
             "First line should not exceed 72 characters" issues in
    {| isValid := isEmpty issues; issues := issues |}.

End CommitMessageValidation.

(** ** CommitMessageGenerator: analysis, assistant and fallbacks *)

Module CommitMessageFlow.
Import Js JsText Effects CommitMessageGenerator.
Local Open Scope js_scope.

(** What the generator reads from its surroundings: the diff service with
    its host, [vscode.workspace.asRelativePath(uri)], whether the Copilot
    Chat extension is there and active, and how its command completes for a
    prompt, given the calls made so far: with a string ([Some]) or with a
    value of another type ([None]). *)
Record Host : Type := {
  diffHost : GitDiffService.Host;
  asRelativePath : Uri → string;
  copilotActive : bool;
  copilotCommand : list Event → string → Completion (option string)
}.

Definition rules : list (list string * string) :=
  [ (["added"; "new"], "feat: add new functionality");
    (["deleted"; "removed"], "chore: remove unused files");
    (["test"; "spec"], "test: add or update tests");
    (["readme"; "documentation"; ".md"], "docs: update documentation");
    (["package.json"; "dependencies"], "chore: update dependencies");
    (["fix"; "bug"; "error"], "fix: resolve issues");
    (["refactor"; "restructure"], "refactor: improve code structure");
    (["style"; "format"], "style: format code") ].

Fixpoint firstRule (rs : list (list string * string)) (lowerPrompt : string)
  : option string :=
  match rs with
  | [] => None
  | (keywords, message) :: rest =>
      if existsb (λ keyword, includes lowerPrompt keyword) keywords
      then Some message
      else firstRule rest lowerPrompt
  end.

Definition generateRuleBasedCommitMessage (prompt : string) : string :=
  let lowerPrompt := toLowerCase prompt in
  default "feat: update codebase" (firstRule rules lowerPrompt).

Definition cleanupAIResponse (response : string) : string :=
  let cleaned := trim response in
  let cleaned :=
    if (startsWithChar cleaned "034" && endsWithChar cleaned "034")
       || (startsWithChar cleaned "'" && endsWithChar cleaned "'")
    then slice1 cleaned else cleaned in
  let cleaned := removeCommitMessagePrefix cleaned in
  let lines := splitOn "010" cleaned in
  let lines :=
    match lines with
    | l :: rest =>
        if Nat.ltb 72 (String.length l)
        then (substring0 69 l +:+ "...") :: rest
        else lines
    | [] => lines
    end in
  trim (join nl lines).

(** The [catch] of [tryGitHubCopilotChat] turns a rejection of the command
    into [undefined]. *)
Definition tryGitHubCopilotChat (h : Host) (prompt : string)
  : M (option string) :=
  λ w,
    if negb (copilotActive h) then (Normal None, w)
    else match copilotCommand h (log w) prompt with
         | Normal (Some result) =>
             if truthy (trim result)
             then (Normal (Some (cleanupAIResponse result)), w)
             else (Normal None, w)
         | Normal None => (Normal None, w)
         | Throw _ => (Normal None, w)
         end.

(** A string or [undefined] used as a condition. *)
Definition truthyOption (o : option string) : bool :=
  match o with
  | Some s => truthy s
  | None => false
  end.

Definition requestAICommitMessage (h : Host) (prompt : string)
  : M (option string) :=
  copilotMessage <- tryGitHubCopilotChat h prompt ;;
  if truthyOption copilotMessage then ret copilotMessage
  else ret (generateIntelligentCommitMessage prompt).

(** [fileUri.fsPath.split('/').pop() ?? 'unknown'] *)
Definition fileNameOf (fileUri : Uri) : string :=
  default "unknown" (last (splitOn "/" (fsPath fileUri))).

(** Reading [repository.state.indexChanges] throws when the state is
    missing. *)
Definition analyzeFileChange (h : Host) (repository : Repository)
  (fileUri : Uri) : Completion (option FileChangeAnalysis) :=
  let fileName := fileNameOf fileUri in
  let relativePath := asRelativePath h fileUri in
  match state repository with
  | None =>
      Throw (JsError
               "Cannot read properties of undefined (reading 'indexChanges')")
  | Some st =>
      match getFileChangeInfo st fileUri with
      | None => Normal None
      | Some (changeType, _) =>
          let diff :=
            GitDiffService.getFileDiff (diffHost h) repository fileUri
              relativePath changeType in
          let summary := createChangeSummary fileName changeType in
          Normal (Some {| fileName := fileName;
                          changeType := changeType;
                          diff := substring0 1500 diff;
                          summary := summary |})
      end
  end.

(** The loop of [getSelectedFilesDiffs]: a file whose analysis is undefined
    or throws is passed over. *)
Fixpoint getSelectedFilesDiffs (h : Host) (repository : Repository)
  (selectedFiles : list Uri) : list FileChangeAnalysis :=
  match selectedFiles with
  | [] => []
  | fileUri :: rest =>
      match analyzeFileChange h repository fileUri with
      | Normal (Some fileAnalysis) =>
          fileAnalysis :: getSelectedFilesDiffs h repository rest
      | Normal None | Throw _ => getSelectedFilesDiffs h repository rest
      end
  end.

Definition generateCommitMessage (h : Host) (repository : Repository)
  (selectedFiles : list Uri) : M (option string) :=
  tryCatch
    (match selectedFiles with
     | [] =>
         throw (JsError "No files selected for commit message generation")
     | _ =>
         let diffsAndContext :=
           getSelectedFilesDiffs h repository selectedFiles in
         match diffsAndContext with
         | [] =>
             throw (JsError "No analyzable changes found in selected files")
         | _ =>
             let prompt := createDetailedCommitPrompt diffsAndContext in
             aiMessage <- requestAICommitMessage h prompt ;;
             if truthyOption aiMessage then ret aiMessage
             else ret (Some (generateRuleBasedCommitMessage prompt))
         end
     end)
    (λ error,
       notify (ShowErrorMessage ("Failed to generate commit message: "
                                 +:+ errorMessage error)) ;;;
       ret None).

(** [GitService.generateCommitMessage]: the selection comes from the
    store. *)
Definition generateCommitMessageFor (h : Host) (repository : Repository)
  : M (option string) :=
  selectedFiles <- GitService.getSelectedFiles (rootUri repository) ;;
  generateCommitMessage h repository selectedFiles.

End CommitMessageFlow.

(** ** GitService: validation of the setup, commit and push *)

Module GitServiceMore.
Import Js Effects GitValidationService.
Local Open Scope js_scope.

(** A repository of the declared type as [validateCommitSetup] sees it: the
    root URI and both methods are there. *)
Definition repositoryValue (repository : Repository) : RepositoryValue :=
  {| rv_rootUri := Some (rootUri repository);
     rv_add_is_function := true;
     rv_commit_is_function := true;
     rv_state := state repository |}.

(** [GitService.validateCommitSetup] *)
Definition validateCommitSetup (repository : Repository)
  : M ValidationResult :=
  selectedFiles <- GitService.getSelectedFiles (rootUri repository) ;;
  changedFiles <- GitService.getChangedFiles repository ;;
  ret (GitValidationService.validateCommitSetup
         (Some (repositoryValue repository)) selectedFiles changedFiles).

(** The calls of [repository.push()] are recorded beside the world, each by
    the log it was made at. *)
Record PushWorld : Type := {
  world : World;
  pushes : list (list Event)
}.

(** An asynchronous method that may push. *)
Definition MP (A : Type) : Type := PushWorld → Completion A * PushWorld.

(** A method that does not push, run where pushes are recorded. *)
Definition liftP {A} (m : M A) : MP A :=
  λ pw, let '(r, w') := m (world pw) in
        (r, {| world := w'; pushes := pushes pw |}).

Definition bindP {A B} (m : MP A) (k : A → MP B) : MP B :=
  λ pw, match m pw with
        | (Normal a, pw') => k a pw'
        | (Throw e, pw') => (Throw e, pw')
        end.

Definition tryCatchP {A} (body : MP A) (handler : Thrown → MP A) : MP A :=
  λ pw, match body pw with
        | (Normal a, pw') => (Normal a, pw')
        | (Throw e, pw') => handler e pw'
        end.

(** [await repository.push()]: the call is recorded, and resolves or rejects
    as [push] says of the calls made so far. *)
Definition repositoryPush (push : list Event → option Thrown) : MP unit :=
  λ pw,
    let pw' := {| world := world pw;
                  pushes := pushes pw ++ [log (world pw)] |} in
    match push (log (world pw)) with
    | None => (Normal tt, pw')
    | Some e => (Throw e, pw')
    end.

(** [GitService.commitAndPush]; the progress notification around the push
    is left out. *)
Definition commitAndPush (s : GitService.Service) (repository : Repository)
  (push : list Event → option Thrown) (message : string) (amend : bool)
  : MP unit :=
  bindP (liftP (GitService.commit s repository message amend))
    (λ _,
       tryCatchP
         (bindP (repositoryPush push)
            (λ _, liftP (notify (ShowInformationMessage "Push successful."))))
         (λ error,
            liftP (notify (ShowErrorMessage
                             ("Push failed: " +:+ errorMessage error))))).

End GitServiceMore.

(** ** CommitPanelProvider: the handlers of the commit panel *)

Module CommitPanelProvider.
Import Js Effects.
Local Open Scope js_scope.

Record WebviewMessage : Type := {
  type : string;
  message : option string;
  amend : option bool
}.

Definition handleCommit (s : GitService.Service) (activeRepo : Repository)
  (data : WebviewMessage) : M unit :=
  tryCatch
    (GitService.commit s activeRepo (default "" (message data))
       (default false (amend data)))
    (λ error,
       notify (ShowErrorMessage ("Commit failed: " +:+ errorMessage error))).

Definition handleCommitAndPush (s : GitService.Service)
  (activeRepo : Repository) (push : list Event → option Thrown)
  (data : WebviewMessage) : GitServiceMore.MP unit :=
  GitServiceMore.tryCatchP
    (GitServiceMore.commitAndPush s activeRepo push
       (default "" (message data)) (default false (amend data)))
    (λ error,
       GitServiceMore.liftP
         (notify (ShowErrorMessage ("Commit and push failed: "
                                    +:+ errorMessage error)))).

End CommitPanelProvider.

(** ** CommitViewProvider: the tree of changed files *)

Module CommitViewProvider.
Import Js Effects.
Local Open Scope js_scope.

Record FileTreeItem : Type := {
  resourceUri : Uri;
  repository : Repository;
  isSelected : bool;
  changeType : string
}.

Inductive TreeItem : Type :=
| PlainItem (label : string)
| RepositoryTreeItem (repository : Repository) (fileCount : nat)
| FileItem (item : FileTreeItem).

(** The labels of the view; a missing status falls to the default. *)
Definition getChangeTypeLabel (status : option nat) : string :=
  match status with
  | Some 0 => "M"
  | Some 1 => "A"
  | Some 2 => "D"
  | Some 3 => "R"
  | Some 4 => "C"
  | Some 5 => "U"
  | Some 6 => "I"
  | Some 7 => "M"
  | _ => "M"
  end.

(** [getFileChangeInfo] over the three lookups of [findFileChanges]. *)
Definition getFileChangeInfo (st : GitState) (u : Uri)
  : option nat * string :=
  let indexChange :=
    CommitMessageGenerator.findChange (indexChanges st) u in
  let workingTreeChange :=
    CommitMessageGenerator.findChange (workingTreeChanges st) u in
  let untrackedChange :=
    CommitMessageGenerator.findChange (untrackedChanges st) u in
  match untrackedChange, indexChange, workingTreeChange with
  | Some _, _, _ => (Some 5, "U")
  | None, Some i, Some _ => (status i, "MM")
  | None, Some i, None => (status i, getChangeTypeLabel (status i))
  | None, None, Some t => (status t, getChangeTypeLabel (status t))
  | None, None, None => (Some 0, "M")
  end.

(** The changed files come from [GitService.getChangedFiles], which throws
    on a repository without state; past that call the state is there. *)
Definition getRepositoryFiles (element : Repository) : M (list TreeItem) :=
  changedFiles <- GitService.getChangedFiles element ;;
  selectedFiles <- GitService.getSelectedFiles (rootUri element) ;;
  let selectedFilePaths := map fsPath selectedFiles in
  match state element with
  | None => ret []
  | Some st =>
      ret (map (λ u,
                  let isSelected :=
                    bool_decide (fsPath u ∈ selectedFilePaths) in
                  let changeInfo := getFileChangeInfo st u in
                  FileItem {| resourceUri := u;
                              repository := element;
                              isSelected := isSelected;
                              changeType := changeInfo.2 |})
               changedFiles)
  end.

(** [Promise.all] over the repositories, one after the other. *)
Fixpoint repositoryItems (repos : list Repository) : M (list TreeItem) :=
  match repos with
  | [] => ret []
  | repo :: rest =>
      changedFiles <- GitService.getChangedFiles repo ;;
      items <- repositoryItems rest ;;
      ret (RepositoryTreeItem repo (length changedFiles) :: items)
  end.

Definition getRootLevelItems (repos : list Repository) : M (list TreeItem) :=
  match repos with
  | [] => ret [PlainItem "No Git repositories found."]
  | _ => repositoryItems repos
  end.

Definition getChildren (repos : list Repository) (element : option TreeItem)
  : M (list TreeItem) :=
  match element with
  | None => getRootLevelItems repos
  | Some (RepositoryTreeItem repo _) => getRepositoryFiles repo
  | Some _ => ret []
  end.

(** A call of [gitService.setFileSelection] that is not awaited. What the
    method does before it first suspends happens at the call: the stored
    array is read and changed, and [workspaceState.update] is called with
    it, from which call on the store holds it. What comes after the
    [await]s, the state-change notification, is handed back as the part
    that is still to run. *)
Definition setFileSelectionCall (fileUri repoUri : Uri) (isSelected : bool)
  : M (M unit) :=
  updateStore (FileSelectionService.setFileSelection fileUri repoUri isSelected) ;;;
  ret (notify FireGitStateChange).

(** The handler calls [setFileSelection] for each file item without
    awaiting it, and returns. Its result lists what is left to run once it
    has returned, in the order of the calls. The refresh of the tree that
    ends the handler changes nothing of the world modelled here. *)
Fixpoint onDidChangeCheckboxState (items : list (TreeItem * bool))
  : M (list (M unit)) :=
  match items with
  | [] => ret []
  | (FileItem f, checked) :: rest =>
      pending <- setFileSelectionCall (resourceUri f)
                   (rootUri (repository f)) checked ;;
      later <- onDidChangeCheckboxState rest ;;
      ret (pending :: later)
  | _ :: rest => onDidChangeCheckboxState rest
  end.

(** What was left pending runs after the handler has returned, one part
    after the other; nobody handles a rejection of one of them, and the
    others run all the same. *)
Fixpoint settle (pending : list (M unit)) : M unit :=
  match pending with
  | [] => ret tt
  | p :: rest => tryCatch p (λ _, ret tt) ;;; settle rest
  end.

End CommitViewProvider.

(** ** More sample inputs *)

Module MoreSamples.
Import Js Effects.

Definition plainHost : CommitMessageFlow.Host :=
  {| CommitMessageFlow.diffHost := Samples.sampleHost;
     CommitMessageFlow.asRelativePath :=
       GitService.asRelativePath Samples.sampleService;
     CommitMessageFlow.copilotActive := false;
     CommitMessageFlow.copilotCommand := λ _ _, Throw JsNonError |}.

(** A store in which [b.txt] is selected, with an empty log. *)
Definition selectedB : World :=
  {| workspaceState :=
       {[ FileSelectionService.selectionKey "/repo" := ["/repo/b.txt"] ]};
     log := [] |}.

(** A store whose selection names a file that has no change. *)
Definition staleWorld : World :=
  {| workspaceState :=
       {[ FileSelectionService.selectionKey "/repo" := ["/repo/gone.txt"] ]};
     log := [] |}.

Definition statelessRepository : Repository :=
  {| rootUri := UriFile "/repo";
     state := None;
     add := Samples.neverRejects;
     commit := λ _ _ _, None |}.

End MoreSamples.

(** ** Further auxiliary notions *)

Module ProofSupportMore.
Import Js Effects.

(** A string that does not begin with white space. *)
Definition startsClean (s : string) : Prop :=
  match s with
  | EmptyString => True
  | String c _ => isWhiteSpace c = false
  end.

(** A string in which the character [c] does not occur. *)
Fixpoint lacksChar (c : ascii) (s : string) : bool :=
  match s with
  | EmptyString => true
  | String d s' => negb (Ascii.eqb d c) && lacksChar c s'
  end.

(** The calls that stage files. *)
Definition stagingCall (ev : Event) : Prop :=
  match ev with
  | RepoAdd _ | SimpleGitAdd _ => True
  | _ => False
  end.

(** What staging [files] from the world [w] has come to, [r] in the world
    [w'], in terms of the answers of the two clients: the host API accepted
    every file, asked one after the other; or it refused the file at index
    [k], after which the fallback client was asked once, for all the
    files. *)
Definition stagingOutcome (s : GitService.Service) (repository : Repository)
  (files : list Uri) (w : World) (r : Completion unit) (w' : World) : Prop :=
  workspaceState w' = workspaceState w
  ∧ ((r = Normal tt
      ∧ (∀ i u, files !! i = Some u →
                add repository (log w ++ ProofSupport.addCalls (take i files)) u
                = None)
      ∧ log w' = log w ++ ProofSupport.addCalls files)
     ∨ (∃ k u e,
          files !! k = Some u
          ∧ (∀ i v, i < k → files !! i = Some v →
                    add repository
                      (log w ++ ProofSupport.addCalls (take i files)) v
                    = None)
          ∧ add repository (log w ++ ProofSupport.addCalls (take k files)) u
            = Some e
          ∧ let attempted :=
              log w ++ ProofSupport.addCalls (take (S k) files) in
            match GitService.simpleGitInstances s
                  !! fsPath (rootUri repository) with
            | None =>
                log w' = attempted
                ∧ r = Throw (JsError
                               "Simple-git instance not found for repository")
            | Some git =>
                let filePaths := map (GitService.asRelativePath s) files in
                log w' = attempted ++ [SimpleGitAdd filePaths]
                ∧ r = match sg_add git attempted filePaths with
                      | None => Normal tt
                      | Some e' =>
                          Throw (JsError ("Failed to stage files: "
                                          +:+ errorMessage e'))
                      end
            end)).

(** What a commit that went through ends with. *)
Definition successTail : list Event :=
  [ShowInformationMessage "Commit successful!"; FireGitStateChange].

(** The quotes a response is wrapped in, if any, taken off as
    [cleanupAIResponse] does it. *)
Definition unquote (cleaned : string) : string :=
  if (JsText.startsWithChar cleaned "034" && JsText.endsWithChar cleaned "034")
     || (JsText.startsWithChar cleaned "'" && JsText.endsWithChar cleaned "'")
  then JsText.slice1 cleaned else cleaned.

(** A response of a quote, a line feed, eighty letters and a quote. *)
Definition quotedLongLine : string :=
  dquote +:+ nl +:+ Samples.repeatString 80 "x" +:+ dquote.

(** The number of file items among the items of a check box event. *)
Fixpoint countFileItems (items : list (CommitViewProvider.TreeItem * bool))
  : nat :=
  match items with
  | [] => 0
  | (CommitViewProvider.FileItem _, _) :: rest => S (countFileItems rest)
  | _ :: rest => countFileItems rest
  end.

#[export] Instance Uri_eq_dec : EqDecision Uri.
Proof. solve_decision. Defined.

End ProofSupportMore.

(** * Properties *)

(** ** Arrays: [indexOf], [splice], [push] *)

Section ArrayFacts.
Import Js ProofSupport.

Lemma indexOfFrom_absent (l : list string) x i :
  x ∉ l → indexOfFrom l x i = (-1)%Z.
Proof.
  revert i. induction l as [|y l IH]; intros i Hx; simpl; [done|].
  destruct (String.eqb_spec y x) as [->|Hne].
  - exfalso. apply Hx. left.
  - apply IH. intros Hin. apply Hx. by right.
Qed.

Lemma indexOfFrom_present (l : list string) x i :
  x ∈ l →
  ∃ n, indexOfFrom l x i = (i + Z.of_nat n)%Z
       ∧ l !! n = Some x ∧ x ∉ take n l.
Proof.
  revert i. induction l as [|y l IH]; intros i Hx; simpl.
  - by apply elem_of_nil in Hx.
  - destruct (String.eqb_spec y x) as [->|Hne].
    + exists 0. split; [lia|]. split; [done|]. simpl. apply not_elem_of_nil.
    + apply elem_of_cons in Hx as [Heq|Hx]; [congruence|].
      destruct (IH (i + 1)%Z Hx) as (n & Hn & Hl & Ht).
      exists (S n). split; [lia|]. split; [done|].
      simpl. intros [?|?]%elem_of_cons; [congruence|done].
Qed.

Lemma indexOf_absent (l : list string) x : x ∉ l → indexOf l x = (-1)%Z.
Proof. apply indexOfFrom_absent. Qed.

Lemma indexOf_present (l : list string) x :
  x ∈ l →
  ∃ n, indexOf l x = Z.of_nat n ∧ l !! n = Some x ∧ x ∉ take n l.
Proof.
  intros Hx. destruct (indexOfFrom_present l x 0 Hx) as (n & Hn & ?).
  exists n. split; [|done]. unfold indexOf. lia.
Qed.

Lemma toggled_absent (l : list string) x : x ∉ l → toggled l x = l ++ [x].
Proof. intros Hx. unfold toggled. by rewrite (indexOf_absent _ _ Hx). Qed.

Lemma toggled_present (l : list string) x :
  x ∈ l →
  ∃ n, l !! n = Some x ∧ (x ∉ take n l) ∧ toggled l x = delete n l.
Proof.
  intros Hx. destruct (indexOf_present l x Hx) as (n & Hn & Hl & Ht).
  exists n. split; [done|]. split; [done|].
  unfold toggled, splice1. rewrite Hn.
  assert ((-1 <? Z.of_nat n)%Z = true) as -> by lia.
  by rewrite Nat2Z.id.
Qed.

Lemma NoDup_delete_lookup (l : list string) n x :
  NoDup l → l !! n = Some x → x ∉ delete n l.
Proof.
  intros Hnd Hl Hin.
  pose proof (delete_Permutation l n x Hl) as Hp.
  rewrite Hp in Hnd. apply NoDup_cons in Hnd as [Hx _]. done.
Qed.

Lemma NoDup_delete (l : list string) n : NoDup l → NoDup (delete n l).
Proof. intros Hnd. eapply sublist_NoDup; [done|apply sublist_delete]. Qed.

Lemma NoDup_push (l : list string) x : NoDup l → x ∉ l → NoDup (push l x).
Proof.
  intros Hnd Hx. unfold push. apply NoDup_app. split; [done|].
  split; [|apply NoDup_singleton].
  intros y Hy ->%list_elem_of_singleton. done.
Qed.

Lemma toggled_NoDup (l : list string) x : NoDup l → NoDup (toggled l x).
Proof.
  intros Hnd. destruct (decide (x ∈ l)) as [Hx|Hx].
  - destruct (toggled_present l x Hx) as (n & _ & _ & ->).
    by apply NoDup_delete.
  - rewrite (toggled_absent l x Hx). by apply NoDup_push.
Qed.

(** Toggling an absent path twice gives back the very same array; toggling a
    present one moves it to the end. *)
Lemma toggled_twice_absent (l : list string) x :
  x ∉ l → toggled (toggled l x) x = l.
Proof.
  intros Hx. rewrite (toggled_absent l x Hx).
  assert (x ∈ l ++ [x]) as Hin by (apply elem_of_app; right; left).
  destruct (toggled_present _ _ Hin) as (n & Hl & Ht & ->).
  assert (n = length l) as ->.
  { destruct (decide (n < length l)) as [Hlt|Hge].
    - rewrite lookup_app_l in Hl by done.
      exfalso. apply Hx. eapply list_elem_of_lookup_2, Hl.
    - apply lookup_lt_Some in Hl. rewrite length_app in Hl. simpl in Hl. lia. }
  replace (l ++ [x]) with (l ++ x :: []) by done.
  rewrite delete_middle. by rewrite app_nil_r.
Qed.

Lemma toggled_twice_set (l : list string) x :
  NoDup l →
  list_to_set (toggled (toggled l x) x) =@{gset string} list_to_set l.
Proof.
  intros Hnd. destruct (decide (x ∈ l)) as [Hx|Hx].
  - destruct (toggled_present l x Hx) as (n & Hl & _ & ->).
    rewrite toggled_absent by by eapply NoDup_delete_lookup.
    apply set_eq. intros y.
    rewrite !elem_of_list_to_set, elem_of_app, list_elem_of_singleton.
    rewrite (delete_Permutation l n x Hl) at 2.
    rewrite elem_of_cons. tauto.
  - by rewrite toggled_twice_absent.
Qed.

End ArrayFacts.

(** ** The selection store *)

Section SelectionStore.
Import Js ProofSupport FileSelectionService SpecReading.

Implicit Types (ws : gmap string (list string)) (fileUri repoUri : Uri).

Lemma storedSelection_insert ws repoPath v repoPath' :
  storedSelection (<[selectionKey repoPath := v]> ws) repoPath'
  = if decide (selectionKey repoPath = selectionKey repoPath') then v
    else storedSelection ws repoPath'.
Proof.
  unfold storedSelection. rewrite lookup_insert.
  by destruct (decide (selectionKey repoPath = selectionKey repoPath')).
Qed.

Lemma storedSelection_key ws repoPath repoPath' :
  selectionKey repoPath = selectionKey repoPath' →
  storedSelection ws repoPath = storedSelection ws repoPath'.
Proof. unfold storedSelection. by intros ->. Qed.

Lemma storedSelection_empty repoPath : storedSelection ∅ repoPath = [].
Proof. unfold storedSelection. by rewrite lookup_empty. Qed.

Lemma toggleFileSelection_stored fileUri repoUri ws repoPath' :
  storedSelection (toggleFileSelection fileUri repoUri ws) repoPath'
  = if decide (selectionKey (fsPath repoUri) = selectionKey repoPath')
    then toggled (storedSelection ws repoPath') (fsPath fileUri)
    else storedSelection ws repoPath'.
Proof.
  unfold toggleFileSelection. rewrite storedSelection_insert.
  destruct (decide _) as [Hk|]; [|done].
  by rewrite (storedSelection_key _ _ _ Hk).
Qed.

Lemma setFileSelection_stored fileUri repoUri b ws repoPath' :
  storedSelection (setFileSelection fileUri repoUri b ws) repoPath'
  = if decide (selectionKey (fsPath repoUri) = selectionKey repoPath')
    then selected (storedSelection ws repoPath') (fsPath fileUri) b
    else storedSelection ws repoPath'.
Proof.
  unfold setFileSelection. rewrite storedSelection_insert.
  destruct (decide _) as [Hk|]; [|done].
  by rewrite (storedSelection_key _ _ _ Hk).
Qed.

Lemma clearSelection_stored repoUri ws repoPath' :
  storedSelection (clearSelection repoUri ws) repoPath'
  = if decide (selectionKey (fsPath repoUri) = selectionKey repoPath')
    then [] else storedSelection ws repoPath'.
Proof. unfold clearSelection. apply storedSelection_insert. Qed.

Lemma selected_NoDup (l : list string) x b : NoDup l → NoDup (selected l x b).
Proof.
  intros Hnd. unfold selected.
  destruct b; simpl.
  - destruct (Z.eqb_spec (indexOf l x) (-1)) as [Hi|Hi]; [|done].
    apply NoDup_push; [done|]. intros Hx.
    destruct (indexOf_present l x Hx) as (n & Hn & _). lia.
  - destruct (-1 <? indexOf l x)%Z; [|done]. by apply NoDup_delete.
Qed.

(** C8. Toggling the same file twice in the same repository leaves the
    SelectionSet of every repository as it was, whenever the stored array of
    the toggled repository holds no path twice (the state every sequence of
    store operations produces). The stored array itself may come back
    reordered: a path that was selected ends up last. *)
Theorem toggle_twice_selectionSet ws fileUri repoUri repoPath' :
  NoDup (storedSelection ws (fsPath repoUri)) →
  selectionSet
    (toggleFileSelection fileUri repoUri
       (toggleFileSelection fileUri repoUri ws)) repoPath'
  = selectionSet ws repoPath'.
Proof.
  intros Hnd. unfold selectionSet.
  rewrite !toggleFileSelection_stored.
  destruct (decide _) as [Hk|]; [|done].
  apply toggled_twice_set.
  by rewrite <- (storedSelection_key _ _ _ Hk).
Qed.

Lemma toggle_twice_selectionSet_witness :
  NoDup (storedSelection
           (<[selectionKey "/repo" := ["/repo/a.txt"; "/repo/b.txt"]]> ∅)
           "/repo")
  ∧ selectionSet
      (toggleFileSelection (UriFile "/repo/a.txt") (UriFile "/repo")
         (toggleFileSelection (UriFile "/repo/a.txt") (UriFile "/repo")
            (<[selectionKey "/repo" := ["/repo/a.txt"; "/repo/b.txt"]]> ∅)))
      "/repo"
    = selectionSet
        (<[selectionKey "/repo" := ["/repo/a.txt"; "/repo/b.txt"]]> ∅)
        "/repo".
Proof.
  assert (NoDup (storedSelection
           (<[selectionKey "/repo" := ["/repo/a.txt"; "/repo/b.txt"]]> ∅)
           "/repo")) as H.
  { apply (bool_decide_unpack _). vm_compute. exact I. }
  split; [exact H|].
  exact (toggle_twice_selectionSet _ (UriFile "/repo/a.txt") (UriFile "/repo")
           "/repo" H).
Defined.

(** The array is restored only up to order. *)
Example toggle_twice_reorders :
  storedSelection
    (toggleFileSelection (UriFile "/repo/a.txt") (UriFile "/repo")
       (toggleFileSelection (UriFile "/repo/a.txt") (UriFile "/repo")
          (<[selectionKey "/repo" := ["/repo/a.txt"; "/repo/b.txt"]]> ∅)))
    "/repo"
  = ["/repo/b.txt"; "/repo/a.txt"].
Proof. vm_compute. reflexivity. Qed.

(** C10. Each store operation keeps every stored array free of duplicates. *)
Theorem selection_operations_keep_NoDup ws fileUri repoUri repoPath' :
  NoDup (storedSelection ws repoPath') →
  NoDup (storedSelection (toggleFileSelection fileUri repoUri ws) repoPath')
  ∧ (∀ isSelected,
       NoDup (storedSelection
                (setFileSelection fileUri repoUri isSelected ws) repoPath'))
  ∧ NoDup (storedSelection (clearSelection repoUri ws) repoPath').
Proof.
  intros Hnd. split; [|split; [intros b|]].
  - rewrite toggleFileSelection_stored.
    destruct (decide _); [by apply toggled_NoDup|done].
  - rewrite setFileSelection_stored.
    destruct (decide _); [by apply selected_NoDup|done].
  - rewrite clearSelection_stored.
    destruct (decide _); [apply NoDup_nil_2|done].
Qed.

Lemma selection_operations_keep_NoDup_witness :
  NoDup (storedSelection (<[selectionKey "/repo" := ["/repo/a.txt"]]> ∅)
                         "/repo")
  ∧ NoDup (storedSelection
             (toggleFileSelection (UriFile "/repo/b.txt") (UriFile "/repo")
                (<[selectionKey "/repo" := ["/repo/a.txt"]]> ∅))
             "/repo").
Proof.
  assert (NoDup (storedSelection
                   (<[selectionKey "/repo" := ["/repo/a.txt"]]> ∅) "/repo"))
    as H.
  { apply (bool_decide_unpack _). vm_compute. exact I. }
  split; [exact H|].
  exact (proj1 (selection_operations_keep_NoDup _ (UriFile "/repo/b.txt")
                  (UriFile "/repo") "/repo" H)).
Defined.

(** The invariant holds of the untouched store, hence of every store the
    operations can produce. *)
Lemma reachable_NoDup ws repoPath :
  reachable ws → NoDup (storedSelection ws repoPath).
Proof.
  induction 1 as [|ws f r _ IH|ws f r b _ IH|ws r _ IH].
  - rewrite storedSelection_empty. apply NoDup_nil_2.
  - rewrite toggleFileSelection_stored.
    destruct (decide _); [by apply toggled_NoDup|done].
  - rewrite setFileSelection_stored.
    destruct (decide _); [by apply selected_NoDup|done].
  - rewrite clearSelection_stored.
    destruct (decide _); [apply NoDup_nil_2|done].
Qed.

End SelectionStore.

(** ** The change enumeration *)

Section ChangeEnumeration.
Import Js FileSelectionService SpecReading.

Lemma firstOccurrences_elem (l : list string) x :
  x ∈ firstOccurrences l ↔ x ∈ l.
Proof.
  induction l as [|y l IH]; simpl; [done|].
  rewrite !elem_of_cons, list_elem_of_filter, IH.
  destruct (decide (x = y)); tauto.
Qed.

Lemma firstOccurrences_NoDup (l : list string) : NoDup (firstOccurrences l).
Proof.
  induction l as [|y l IH]; simpl; [apply NoDup_nil_2|].
  apply NoDup_cons. split.
  - rewrite list_elem_of_filter. intros [Hne _]. by apply Hne.
  - by apply NoDup_filter.
Qed.

Lemma filter_filter_ne (P : string → Prop) `{!∀ y, Decision (P y)}
  (l : list string) x :
  ¬ P x → filter P (filter (λ y, y ≠ x) l) = filter P l.
Proof.
  intros HP. rewrite list_filter_filter.
  apply list_filter_iff. intros y. split; [tauto|].
  intros Hy. split; [done|]. by intros ->.
Qed.

(** [new Set] realised by repeated [add] keeps exactly the first
    occurrences, whatever is already in the set. *)
Lemma fold_setAdd (l acc : list string) :
  fold_left setAdd l acc
  = acc ++ filter (λ y, y ∉ acc) (firstOccurrences l).
Proof.
  revert acc. induction l as [|x l IH]; intros acc; simpl.
  - by rewrite app_nil_r.
  - rewrite IH. unfold setAdd. case_bool_decide as Hx.
    + rewrite filter_cons_False by (intros Hn; by apply Hn).
      rewrite filter_filter_ne by (intros Hn; by apply Hn). done.
    + rewrite filter_cons_True by done.
      rewrite <- app_assoc. simpl. do 2 f_equal.
      rewrite list_filter_filter. apply list_filter_iff.
      intros y. rewrite elem_of_app, list_elem_of_singleton. tauto.
Qed.

Lemma newSet_firstOccurrences (l : list string) :
  newSet l = firstOccurrences l.
Proof.
  unfold newSet. rewrite fold_setAdd. simpl.
  induction (firstOccurrences l) as [|y k IH]; [done|].
  rewrite filter_cons_True by apply not_elem_of_nil. by f_equal.
Qed.

Lemma firstOccurrences_app (l1 l2 : list string) :
  firstOccurrences (l1 ++ l2)
  = firstOccurrences l1 ++ filter (λ y, y ∉ l1) (firstOccurrences l2).
Proof.
  rewrite <- (newSet_firstOccurrences (l1 ++ l2)). unfold newSet.
  rewrite fold_left_app. fold (newSet l1).
  rewrite newSet_firstOccurrences, fold_setAdd. f_equal.
  apply list_filter_iff. intros y. by rewrite firstOccurrences_elem.
Qed.

Lemma getChangedFiles_paths (st : GitState) :
  map fsPath (getChangedFiles st)
  = firstOccurrences
      (paths (indexChanges st) ++ paths (workingTreeChanges st)
       ++ paths (untrackedChanges st)).
Proof.
  unfold getChangedFiles, paths.
  rewrite map_map. simpl. rewrite map_id.
  rewrite newSet_firstOccurrences. f_equal.
  by rewrite !map_map, <- !map_app.
Qed.

(** C3, as the code has it. The returned paths hold no path twice, are
    exactly the paths of the three categories, and the first occurrence wins
    under the order staged, working-tree, untracked: first the staged paths,
    then the working-tree paths that are not staged, then the untracked
    paths that are in neither. *)
Theorem getChangedFiles_deduplicated (st : GitState) :
  let staged := paths (indexChanges st) in
  let working := paths (workingTreeChanges st) in
  let untracked := paths (untrackedChanges st) in
  let result := map fsPath (getChangedFiles st) in
  NoDup result
  ∧ (∀ p, p ∈ result ↔ p ∈ staged ∨ p ∈ working ∨ p ∈ untracked)
  ∧ result
    = firstOccurrences staged
      ++ filter (λ p, p ∉ staged) (firstOccurrences working)
      ++ filter (λ p, (p ∉ staged) ∧ (p ∉ working))
               (firstOccurrences untracked).
Proof.
  simpl. rewrite getChangedFiles_paths. split; [|split].
  - apply firstOccurrences_NoDup.
  - intros p. by rewrite firstOccurrences_elem, !elem_of_app.
  - rewrite !firstOccurrences_app, filter_app, list_filter_filter.
    do 2 f_equal.
Qed.

(** C3, as worded, fails on a path found in two categories: [b.txt] is
    staged and also untracked, listed there after the untracked [a.txt]. The
    code keeps the staged occurrence of [b.txt], which puts it first; under
    the priority untracked > staged the untracked occurrence is the one
    kept, which puts [b.txt] after [a.txt], whether the categories are
    listed by priority or in the code's order. *)
Lemma getChangedFiles_priority_counterexample :
  "/repo/b.txt" ∈ paths (indexChanges Samples.stagedAndUntracked)
  ∧ "/repo/b.txt" ∈ paths (untrackedChanges Samples.stagedAndUntracked)
  ∧ getChangedFiles Samples.stagedAndUntracked
    = [UriFile "/repo/b.txt"; UriFile "/repo/a.txt"]
  ∧ spec_listChanges Samples.stagedAndUntracked
    = [UriFile "/repo/a.txt"; UriFile "/repo/b.txt"]
  ∧ spec_keepByPriority Samples.stagedAndUntracked
    = [UriFile "/repo/a.txt"; UriFile "/repo/b.txt"]
  ∧ getChangedFiles Samples.stagedAndUntracked
    ≠ spec_listChanges Samples.stagedAndUntracked
  ∧ getChangedFiles Samples.stagedAndUntracked
    ≠ spec_keepByPriority Samples.stagedAndUntracked.
Proof.
  split; [apply (bool_decide_unpack _); vm_compute; exact I|].
  split; [apply (bool_decide_unpack _); vm_compute; exact I|].
  split; [by vm_compute|]. split; [by vm_compute|]. split; [by vm_compute|].
  split; vm_compute; discriminate.
Qed.

End ChangeEnumeration.

(** ** Strings: lower-casing, containment, trimming *)

Section StringFacts.
Import Js ProofSupport.

Lemma append_nil_l (b : string) : EmptyString +:+ b = b.
Proof. reflexivity. Qed.

Lemma append_cons (c : ascii) (a b : string) :
  String c a +:+ b = String c (a +:+ b).
Proof. reflexivity. Qed.

Lemma length_append (a b : string) :
  String.length (a +:+ b) = String.length a + String.length b.
Proof.
  induction a as [|c a IH]; [done|].
  rewrite append_cons. simpl. by rewrite IH.
Qed.

Lemma append_assoc (a b c : string) : (a +:+ b) +:+ c = a +:+ (b +:+ c).
Proof.
  induction a as [|x a IH]; [done|].
  by rewrite !append_cons, IH.
Qed.

Lemma append_empty_r (a : string) : a +:+ EmptyString = a.
Proof.
  induction a as [|x a IH]; [done|].
  by rewrite append_cons, IH.
Qed.

Lemma toLowerCase_append (a b : string) :
  toLowerCase (a +:+ b) = toLowerCase a +:+ toLowerCase b.
Proof.
  induction a as [|c a IH]; [done|].
  rewrite append_cons. simpl. by rewrite IH, append_cons.
Qed.

Lemma startsWith_append (a b k : string) :
  startsWith a k = true → startsWith (a +:+ b) k = true.
Proof.
  revert a. induction k as [|c k IH]; intros a; simpl; [done|].
  destruct a as [|d a]; [done|].
  rewrite append_cons.
  intros [Hc Hk]%andb_prop. rewrite Hc. simpl. by apply IH.
Qed.

Lemma includes_append_l (a b k : string) :
  includes a k = true → includes (a +:+ b) k = true.
Proof.
  induction a as [|c a IH].
  - simpl. rewrite orb_false_r. intros Hk.
    destruct k; [|done]. by destruct b.
  - rewrite append_cons. intros [Hs|Hi]%orb_prop.
    + apply orb_true_intro. left.
      by apply (startsWith_append (String c a) b k).
    + apply orb_true_intro. right. by apply IH.
Qed.

Lemma includes_append_r (a b k : string) :
  includes b k = true → includes (a +:+ b) k = true.
Proof.
  intros Hb. induction a as [|c a IH]; [done|].
  rewrite append_cons. apply orb_true_intro. by right.
Qed.

(** A keyword of the fixed tail stays a keyword of the whole prompt. *)
Lemma includes_prompt (p1 p2 p3 p4 tail k : string) :
  includes (toLowerCase tail) k = true →
  includes (toLowerCase (p1 +:+ p2 +:+ p3 +:+ p4 +:+ tail)) k = true.
Proof.
  intros Hk. rewrite !toLowerCase_append.
  by do 4 apply includes_append_r.
Qed.

Lemma trimStart_onlyWhiteSpace (s : string) :
  onlyWhiteSpace s = true → trimStart s = EmptyString.
Proof.
  induction s as [|c s IH]; simpl; [done|].
  intros [Hc Hs]%andb_prop. rewrite Hc. by apply IH.
Qed.

Lemma trimEnd_empty (s : string) :
  trimEnd s = EmptyString → onlyWhiteSpace s = true.
Proof.
  induction s as [|c s IH]; simpl; [done|].
  destruct (trimEnd s) eqn:Hs; [|done].
  destruct (isWhiteSpace c); [|done]. intros _. by apply IH.
Qed.

Lemma trimStart_empty (s : string) :
  onlyWhiteSpace (trimStart s) = true → onlyWhiteSpace s = true.
Proof.
  induction s as [|c s IH]; simpl; [done|].
  destruct (isWhiteSpace c) eqn:Hc; simpl; [done|].
  by rewrite Hc.
Qed.

(** [!message.trim()] holds exactly of the messages made of white space. *)
Lemma trim_falsy (s : string) :
  truthy (trim s) = false ↔ onlyWhiteSpace s = true.
Proof.
  unfold trim. split.
  - intros Ht. apply trimStart_empty, trimEnd_empty.
    by destruct (trimEnd (trimStart s)).
  - intros Hs. by rewrite trimStart_onlyWhiteSpace.
Qed.

End StringFacts.

(** ** The commit-message heuristics *)

Section Heuristics.
Import Js CommitMessageGenerator.

Lemma prompt_includes_fix (diffsAndContext : list FileChangeAnalysis) :
  includes (toLowerCase (createDetailedCommitPrompt diffsAndContext)) "fix"
  = true.
Proof.
  unfold createDetailedCommitPrompt. apply includes_prompt.
  vm_compute. reflexivity.
Qed.

(** C2. Whatever the analysed files and their diffs are, the prompt built
    from them is classified as [fix], and so the message of the intelligent
    generation starts with that type. *)
Theorem assembled_prompt_is_fix (diffsAndContext : list FileChangeAnalysis) :
  diffsAndContext ≠ [] →
  determineCommitType (createDetailedCommitPrompt diffsAndContext) = "fix"
  ∧ ∃ rest,
      generateIntelligentCommitMessage
        (createDetailedCommitPrompt diffsAndContext)
      = Some ("fix" +:+ rest).
Proof.
  intros _.
  assert (determineCommitType (createDetailedCommitPrompt diffsAndContext)
          = "fix") as Ht.
  { unfold determineCommitType, typeMap. cbn [firstMatch existsb].
    by rewrite prompt_includes_fix. }
  split; [done|].
  unfold generateIntelligentCommitMessage. rewrite Ht. by eexists.
Qed.

Lemma assembled_prompt_is_fix_witness :
  determineCommitType
    (createDetailedCommitPrompt
       [ {| fileName := "README.md"; changeType := "M";
            diff := "+ documentation only";
            summary := "Modified file: README.md" |} ])
  = "fix".
Proof.
  refine (proj1 (assembled_prompt_is_fix
                   [ {| fileName := "README.md"; changeType := "M";
                        diff := "+ documentation only";
                        summary := "Modified file: README.md" |} ] _)).
  discriminate.
Defined.

(** The order untracked, staged, working-tree is that of the change type of
    a single file: an untracked entry makes the file an added one whatever
    the other two lists hold. *)
Lemma getFileChangeInfo_untracked_first (st : GitState) (fileUri : Uri)
  (change : Change) :
  findChange (untrackedChanges st) fileUri = Some change →
  getFileChangeInfo st fileUri = Some ("A", change).
Proof. intros H. unfold getFileChangeInfo. by rewrite H. Qed.

(** C9, as the code has it: the scope table is scanned in its own order, and
    its first entry is [deps] for [package.json]. *)
Theorem readme_prompt_is_docs (prompt : string) :
  let lowerPrompt := toLowerCase prompt in
  includes lowerPrompt "readme" = true →
  includes lowerPrompt "fix" = false →
  includes lowerPrompt "bug" = false →
  includes lowerPrompt "error" = false →
  includes lowerPrompt "test" = false →
  includes lowerPrompt "spec" = false →
  includes lowerPrompt "package.json" = false →
  determineCommitType prompt = "docs"
  ∧ determineScope prompt = "docs"
  ∧ generateDescription prompt "docs" = "update documentation"
  ∧ generateIntelligentCommitMessage prompt
    = Some "docs(docs): update documentation".
Proof.
  intros lp Hreadme Hfix Hbug Herror Htest Hspec Hpkg.
  assert (determineCommitType prompt = "docs") as Ht.
  { unfold determineCommitType, typeMap. cbn [firstMatch existsb]. fold lp.
    rewrite Hfix, Hbug, Herror, Htest, Hspec, Hreadme.
    by destruct (includes lp "doc"). }
  assert (determineScope prompt = "docs") as Hs.
  { unfold determineScope, scopeMap. cbn [firstMatch existsb]. fold lp.
    rewrite Hpkg, Htest, Hspec, Hreadme.
    by destruct (includes lp "doc"). }
  split; [done|]. split; [done|]. split; [done|].
  unfold generateIntelligentCommitMessage. by rewrite Ht, Hs.
Qed.

Lemma readme_prompt_is_docs_witness :
  generateIntelligentCommitMessage "Update the README" 
  = Some "docs(docs): update documentation".
Proof.
  refine (proj2 (proj2 (proj2
            (readme_prompt_is_docs "Update the README" _ _ _ _ _ _ _))));
    vm_compute; reflexivity.
Defined.

(** C9, as worded, fails: a prompt with [readme] and [update] and none of
    the earlier type keywords gets the scope [deps] once it names
    [package.json]. *)
Lemma readme_prompt_counterexample :
  let prompt := "update readme and package.json" in
  let lowerPrompt := toLowerCase prompt in
  lowerPrompt = prompt
  ∧ includes lowerPrompt "readme" = true
  ∧ includes lowerPrompt "update" = true
  ∧ existsb (includes lowerPrompt) ["fix"; "bug"; "error"; "test"; "spec"]
    = false
  ∧ determineCommitType prompt = "docs"
  ∧ determineScope prompt = "deps"
  ∧ generateIntelligentCommitMessage prompt
    = Some "docs(deps): update documentation"
  ∧ generateIntelligentCommitMessage prompt
    ≠ Some "docs(docs): update documentation".
Proof. vm_compute. repeat split; discriminate. Qed.

End Heuristics.

(** ** Validation *)

Section Validation.
Import Js ProofSupport GitValidationService.

Lemma pushIf_app (test : bool) (text : string) (issues : list string) :
  pushIf test text issues = issues ++ issueIf test text.
Proof. destruct test; simpl; [done|]. by rewrite app_nil_r. Qed.

Lemma isEmpty_nil {A} (l : list A) : isEmpty l = true ↔ l = [].
Proof. by destruct l. Qed.

(** C7, as the code has it. A missing repository or a missing root URI ends
    the validation with that single issue. Otherwise the remaining checks all
    run, in order, each one adding its issue whatever the others found. In
    every case the result is valid exactly when no issue was recorded. *)
Theorem validateCommitSetup_checks (repository : option RepositoryValue)
  (selectedFiles changedFiles : list Uri) :
  let result := validateCommitSetup repository selectedFiles changedFiles in
  (isValid result = true ↔ issues result = [])
  ∧ issues result
    = match repository with
      | None => ["No repository provided"]
      | Some r =>
          match rv_rootUri r with
          | None => ["Repository has no root URI"]
          | Some _ =>
              issueIf (negb (rv_add_is_function r))
                      "Repository.add method not available"
              ++ issueIf (negb (rv_commit_is_function r))
                         "Repository.commit method not available"
              ++ issueIf (isEmpty selectedFiles)
                         "No files selected for commit"
              ++ issueIf (isEmpty (validSelectedFiles selectedFiles
                                                      changedFiles))
                         "Selected files have no changes"
              ++ issueIf (negb (bool_decide (is_Some (rv_state r))))
                         "Repository state is not available"
          end
      end.
Proof.
  unfold validateCommitSetup.
  destruct repository as [r|]; [|by split].
  destruct (rv_rootUri r) as [u|]; [|by split].
  cbn [isValid issues]. split; [apply isEmpty_nil|].
  rewrite !pushIf_app. simpl. by rewrite <- !app_assoc.
Qed.

(** Past the two guards the code and the specification's reading agree. *)
Lemma validateCommitSetup_spec (r : RepositoryValue) (u : Uri)
  (selectedFiles changedFiles : list Uri) :
  rv_rootUri r = Some u →
  validateCommitSetup (Some r) selectedFiles changedFiles
  = spec_validate (Some r) selectedFiles changedFiles.
Proof.
  intros Hu. unfold validateCommitSetup, spec_validate. simpl. rewrite Hu.
  simpl. destruct (rv_state r); reflexivity.
Qed.

(** C7, as worded, fails: without a repository the validation stops at the
    first issue, although the selection is empty as well. *)
Lemma validateCommitSetup_short_circuit_counterexample :
  issues (validateCommitSetup None [] []) = ["No repository provided"]
  ∧ ("No files selected for commit" ∉ issues (validateCommitSetup None [] []))
  ∧ ("No files selected for commit" ∈ issues (spec_validate None [] []))
  ∧ validateCommitSetup None [] [] ≠ spec_validate None [] [].
Proof.
  split; [reflexivity|]. split.
  - intros Hin. apply list_elem_of_singleton in Hin. discriminate.
  - split; [|discriminate].
    vm_compute. do 3 right. left.
Qed.

End Validation.

(** ** The commit orchestration *)

Section Orchestration.
Import Js Effects ProofSupport ProofSupportMore.

Lemma quiet_ret {A} (a : A) : quiet (ret a).
Proof.
  intros w. split; [done|]. exists []. by rewrite app_nil_r.
Qed.

Lemma quiet_throw {A} (e : Thrown) : quiet (@throw A e).
Proof.
  intros w. split; [done|]. exists []. by rewrite app_nil_r.
Qed.

Lemma quiet_readStore {A} (f : gmap string (list string) → A) :
  quiet (readStore f).
Proof.
  intros w. split; [done|]. exists []. by rewrite app_nil_r.
Qed.

Lemma quiet_external (ev : Event) outcome :
  clientCall ev → quiet (external ev outcome).
Proof.
  intros Hev w. unfold external.
  destruct (outcome (log w)); simpl; (split; [done|]);
    exists [ev]; (split; [done|]); by apply Forall_singleton.
Qed.

Lemma quiet_bind {A B} (m : M A) (k : A → M B) :
  quiet m → (∀ a, quiet (k a)) → quiet (bind m k).
Proof.
  intros Hm Hk w. unfold bind.
  destruct (Hm w) as (Hs & evs & Hl & Hc).
  destruct (m w) as [[a|e] w1]; simpl in *.
  - destruct (Hk a w1) as (Hs' & evs' & Hl' & Hc').
    split; [congruence|]. exists (evs ++ evs').
    split; [|by apply Forall_app]. rewrite Hl', Hl. by rewrite app_assoc.
  - split; [done|]. by exists evs.
Qed.

Lemma quiet_tryCatch {A} (body : M A) (handler : Thrown → M A) :
  quiet body → (∀ e, quiet (handler e)) → quiet (tryCatch body handler).
Proof.
  intros Hm Hk w. unfold tryCatch.
  destruct (Hm w) as (Hs & evs & Hl & Hc).
  destruct (body w) as [[a|e] w1]; simpl in *.
  - split; [done|]. by exists evs.
  - destruct (Hk e w1) as (Hs' & evs' & Hl' & Hc').
    split; [congruence|]. exists (evs ++ evs').
    split; [|by apply Forall_app]. rewrite Hl', Hl. by rewrite app_assoc.
Qed.

Lemma quiet_forOf {A} (xs : list A) (body : A → M unit) :
  (∀ x, quiet (body x)) → quiet (forOf xs body).
Proof.
  intros Hb. induction xs as [|x xs IH]; simpl.
  - apply quiet_ret.
  - apply quiet_bind; [apply Hb|]. intros _. apply IH.
Qed.

Lemma quiet_repositoryAdd repository u :
  quiet (GitService.repositoryAdd repository u).
Proof. by apply quiet_external. Qed.

Lemma quiet_stageWithSimpleGit s repository files :
  quiet (GitService.stageWithSimpleGit s repository files).
Proof.
  unfold GitService.stageWithSimpleGit.
  destruct (_ !! _); [|apply quiet_throw].
  apply quiet_tryCatch; [by apply quiet_external|].
  intros e. apply quiet_throw.
Qed.

Lemma quiet_stageSelectedFiles s repository :
  quiet (GitService.stageSelectedFiles s repository).
Proof.
  unfold GitService.stageSelectedFiles.
  apply quiet_bind; [apply quiet_readStore|]. intros selectedUris.
  destruct selectedUris as [|u us].
  - apply quiet_bind.
    + unfold GitService.getChangedFiles.
      destruct (state repository); [apply quiet_ret|apply quiet_throw].
    + intros [|c cs]; [apply quiet_throw|].
      apply quiet_tryCatch;
        [apply quiet_forOf, quiet_repositoryAdd
        |intros _; apply quiet_stageWithSimpleGit].
  - apply quiet_tryCatch;
      [apply quiet_forOf, quiet_repositoryAdd
      |intros _; apply quiet_stageWithSimpleGit].
Qed.

Lemma quiet_commitWithSimpleGit s repository message amend :
  quiet (GitService.commitWithSimpleGit s repository message amend).
Proof.
  unfold GitService.commitWithSimpleGit.
  destruct (_ !! _); [|apply quiet_throw].
  apply quiet_tryCatch; [by apply quiet_external|].
  intros e. apply quiet_throw.
Qed.

(** Everything [commit] does before it reports success. *)
Lemma quiet_commit_attempt s repository message amend :
  quiet
    (bind (match state repository with
           | None => throw (JsError "Repository state is not available")
           | Some _ => ret tt
           end)
       (λ _, bind (if negb amend
                   then GitService.stageSelectedFiles s repository
                   else ret tt)
               (λ _, tryCatch
                       (external (RepoCommit message amend)
                          (λ h, Api.commit repository h message amend))
                       (λ _, GitService.commitWithSimpleGit s repository
                               message amend)))).
Proof.
  apply quiet_bind.
  { destruct (state repository); [apply quiet_ret|apply quiet_throw]. }
  intros _. apply quiet_bind.
  { destruct amend; [apply quiet_ret|apply quiet_stageSelectedFiles]. }
  intros _. apply quiet_tryCatch; [by apply quiet_external|].
  intros _. apply quiet_commitWithSimpleGit.
Qed.

Lemma bind_assoc {A B C} (m : M A) (k : A → M B) (k' : B → M C) w :
  bind (bind m k) k' w = bind m (λ a, bind (k a) k') w.
Proof. unfold bind. by destruct (m w) as [[a|e] w1]. Qed.

Lemma bind_assoc3 {A B C D} (m : M A) (k : A → M B) (k' : B → M C)
  (k'' : C → M D) w :
  bind (bind m (λ a, bind (k a) k')) k'' w
  = bind m (λ a, bind (k a) (λ b, bind (k' b) k'')) w.
Proof.
  unfold bind. destruct (m w) as [[a|e] w1]; [|done].
  by destruct (k a w1) as [[b|e] w2].
Qed.

(** When a commit resolves: the message is not blank, the repository state
    is there, staging (skipped when amending) went through, and one of the
    two clients accepted the commit. *)
Lemma commit_resolves_iff (s : GitService.Service) (repository : Repository)
  (message : string) (amend : bool) (w : World) :
  let staged :=
    if amend then (Normal tt, w)
    else GitService.stageSelectedFiles s repository w in
  (GitService.commit s repository message amend w).1 = Normal tt
  ↔ truthy (trim message) = true
    ∧ is_Some (state repository)
    ∧ staged.1 = Normal tt
    ∧ commitStepResolves s repository message amend (log staged.2).
Proof.
  cbn zeta. unfold GitService.commit, commitStepResolves.
  destruct (truthy (trim message)); simpl; [|split; [done|by intros [? _]]].
  unfold tryCatch at 1, bind at 1.
  destruct (state repository) as [st|]; simpl.
  2:{ split; [done|]. intros (_ & [? ?] & _). done. }
  unfold bind at 1.
  assert ((if negb amend then GitService.stageSelectedFiles s repository
           else ret ()) w
          = (if amend then (Normal (), w)
             else GitService.stageSelectedFiles s repository w)) as ->
    by by destruct amend.
  destruct (if amend then _ else _) as [[[]|e] w1]; simpl.
  2:{ split; [done|]. intros (_ & _ & ? & _). done. }
  unfold bind at 1, tryCatch at 1, external at 1.
  destruct (Api.commit repository (log w1) message amend) as [e|] eqn:Hc;
    simpl.
  - unfold GitService.commitWithSimpleGit.
    destruct (_ !! _) as [git|]; simpl.
    + unfold tryCatch, external. simpl.
      destruct (sg_commit git _ message amend) as [e'|] eqn:Hg; simpl.
      * split; [done|]. intros (_ & _ & _ & [?|(_ & git' & ? & ?)]);
          simplify_eq.
      * split; [|done]. intros _. split; [done|]. split; [by eexists|].
        split; [done|]. right. split; [by eexists|]. by exists git.
    + split; [done|]. intros (_ & _ & _ & [?|(_ & git' & ? & ?)]);
        simplify_eq.
  - split; [|done]. intros _. split; [done|]. split; [by eexists|].
    split; [done|]. by left.
Qed.

(** Both outcomes occur. *)
Example commit_succeeds :
  let '(r, w') :=
    GitService.commit Samples.sampleService Samples.sampleRepository
      "docs: update" false Samples.emptyWorld in
  r = Normal tt
  ∧ log w'
    = [RepoAdd "/repo/b.txt"; RepoAdd "/repo/c.txt";
       RepoCommit "docs: update" false;
       ShowInformationMessage "Commit successful!"; FireGitStateChange].
Proof. vm_compute. by split. Qed.

Example commit_fails_when_both_clients_refuse :
  let '(r, w') :=
    GitService.commit Samples.refusingService Samples.refusingRepository
      "docs: update" false Samples.selectedWorld in
  r = Throw (JsError
               "Commit failed: Failed to stage files: fallback add failed")
  ∧ log w'
    = [RepoAdd "/repo/a.txt"; SimpleGitAdd ["a.txt"];
       ShowErrorMessage
         "Commit failed: Failed to stage files: fallback add failed"]
  ∧ FileSelectionService.storedSelection (workspaceState w') "/repo"
    = ["/repo/a.txt"].
Proof. vm_compute. by repeat split. Qed.

(** C6. A message of white space only is refused with the world untouched:
    no client call, no notification, no store update. The second variant of
    the service does the same. *)
Theorem commit_rejects_blank_message (s : GitService.Service)
  (repository : Repository) (message : string) (amend : bool) (w : World) :
  onlyWhiteSpace message = true →
  GitService.commit s repository message amend w
  = (Throw (JsError "Commit message cannot be empty"), w)
  ∧ GitServiceAlt.commit repository message amend w
    = (Throw (JsError "Commit message cannot be empty"), w).
Proof.
  intros Hm. apply trim_falsy in Hm.
  unfold GitService.commit, GitServiceAlt.commit. by rewrite Hm.
Qed.

Lemma commit_rejects_blank_message_witness :
  GitService.commit Samples.sampleService Samples.sampleRepository
    "   " false Samples.selectedWorld
  = (Throw (JsError "Commit message cannot be empty"), Samples.selectedWorld).
Proof.
  refine (proj1 (commit_rejects_blank_message Samples.sampleService
                   Samples.sampleRepository "   " false
                   Samples.selectedWorld _)).
  vm_compute. reflexivity.
Defined.

Lemma commit_rejects_empty_message_example :
  GitService.commit Samples.sampleService Samples.sampleRepository
    "" false Samples.selectedWorld
  = (Throw (JsError "Commit message cannot be empty"), Samples.selectedWorld).
Proof. reflexivity. Qed.

Lemma addCalls_history (h : list Event) (u : Uri) (l : list Uri) :
  h ++ addCalls (u :: l) = (h ++ [RepoAdd (fsPath u)]) ++ addCalls l.
Proof. unfold addCalls. simpl. by rewrite <- app_assoc. Qed.

(** The primary client is asked file by file, in order, until it refuses:
    the loop resolves when every answer is an acceptance, and rejects with
    the first refusal. *)
Lemma forOf_repositoryAdd (repository : Repository) (files : list Uri)
  (w : World) :
  let '(r, w') := forOf files (GitService.repositoryAdd repository) w in
  workspaceState w' = workspaceState w
  ∧ ((r = Normal tt
      ∧ (∀ i u, files !! i = Some u →
                add repository (log w ++ addCalls (take i files)) u = None)
      ∧ log w' = log w ++ addCalls files)
     ∨ (∃ k u e,
          files !! k = Some u
          ∧ (∀ i v, i < k → files !! i = Some v →
                    add repository (log w ++ addCalls (take i files)) v = None)
          ∧ add repository (log w ++ addCalls (take k files)) u = Some e
          ∧ r = Throw e
          ∧ log w' = log w ++ addCalls (take (S k) files))).
Proof.
  revert w. induction files as [|u files IH]; intros w.
  - simpl. split; [done|]. left. split; [done|].
    split; [|by rewrite app_nil_r]. intros i v Hv. done.
  - cbn [forOf]. unfold bind, GitService.repositoryAdd at 1, external.
    destruct (add repository (log w) u) as [e|] eqn:Hadd.
    + split; [done|]. right. exists 0, u, e.
      split; [done|]. split; [intros i v Hi; lia|].
      split; [simpl; by rewrite app_nil_r|]. by split.
    + specialize (IH {| workspaceState := workspaceState w;
                        log := log w ++ [RepoAdd (fsPath u)] |}).
      destruct (forOf files _ _) as [r w'].
      destruct IH as [Hs Hl]. split; [done|]. cbn [log] in Hl.
      destruct Hl as [(-> & Hall & Hl)
                     |(k & v & e & Hk & Hbefore & Hat & -> & Hl)].
      * left. split; [done|]. split.
        -- intros [|i] x Hx.
           ++ injection Hx as <-. simpl. by rewrite app_nil_r.
           ++ cbn [take]. rewrite addCalls_history. by apply Hall.
        -- rewrite Hl. by rewrite addCalls_history.
      * right. exists (S k), v, e. split; [done|]. split.
        -- intros [|i] x Hi Hx.
           ++ injection Hx as <-. simpl. by rewrite app_nil_r.
           ++ cbn [take]. rewrite addCalls_history.
              apply Hbefore; [lia|done].
        -- split; [cbn [take]; by rewrite addCalls_history|].
           split; [done|]. rewrite Hl. cbn [take].
           by rewrite addCalls_history.
Qed.

(** Staging a list of files: the host API first, the fallback client once
    the host API has refused a file. *)
Lemma stage_files_outcome (s : GitService.Service) (repository : Repository)
  (files : list Uri) (w : World) :
  let '(r, w') :=
    tryCatch (forOf files (GitService.repositoryAdd repository))
             (λ _, GitService.stageWithSimpleGit s repository files) w in
  stagingOutcome s repository files w r w'.
Proof.
  unfold tryCatch at 1, stagingOutcome.
  pose proof (forOf_repositoryAdd repository files w) as Hfor.
  destruct (forOf files _ w) as [[[]|e] w1]; cbn beta iota in Hfor |- *;
    destruct Hfor as [Hs [(Hr & Hall & Hl)
                         |(k & u & e' & Hk & Hbefore & Hat & Hr & Hl)]];
    try discriminate.
  - split; [done|]. by left.
  - unfold GitService.stageWithSimpleGit.
    destruct (GitService.simpleGitInstances s !! fsPath (rootUri repository))
      as [git|].
    + unfold tryCatch, external, throw. cbn zeta. rewrite Hl.
      destruct (sg_add git _ _) eqn:Hsg; cbn beta iota;
        (split; [done|]); right; exists k, u, e';
        (do 3 (split; [done|])); cbn [log]; rewrite ?Hsg; by split.
    + unfold throw. cbn beta iota.
      split; [done|]. right. exists k, u, e'.
      do 3 (split; [done|]). by split.
Qed.

(** The outcome tells when staging has resolved: every file was accepted
    by the host API, or the file it first refused was followed by an
    acceptance of all files by the fallback client. *)
Lemma staging_resolves_iff (s : GitService.Service) (repository : Repository)
  (files : list Uri) (w : World) (r : Completion unit) (w' : World) :
  stagingOutcome s repository files w r w' →
  r = Normal tt
  ↔ (∀ i u, files !! i = Some u →
            add repository (log w ++ addCalls (take i files)) u = None)
    ∨ (∃ k u e git,
         files !! k = Some u
         ∧ (∀ i v, i < k → files !! i = Some v →
                   add repository (log w ++ addCalls (take i files)) v = None)
         ∧ add repository (log w ++ addCalls (take k files)) u = Some e
         ∧ GitService.simpleGitInstances s !! fsPath (rootUri repository)
           = Some git
         ∧ sg_add git (log w ++ addCalls (take (S k) files))
             (map (GitService.asRelativePath s) files) = None).
Proof.
  intros [Hs [(Hr & Hall & Hl)|(k & u & e & Hk & Hbefore & Hat & Hout)]].
  - split; [by left|done].
  - cbn zeta in Hout. split.
    + intros Hr. right.
      destruct (GitService.simpleGitInstances s
                !! fsPath (rootUri repository)) as [git|];
        destruct Hout as [Hl Hr']; [|congruence].
      destruct (sg_add git _ _) eqn:Hsg; [congruence|].
      by exists k, u, e, git.
    + intros [Hall|(k' & u' & e' & git & Hk' & Hbefore' & Hat' & Hgit & Hsg)].
      * rewrite (Hall k u Hk) in Hat. discriminate.
      * assert (k' = k) as ->.
        { destruct (lt_eq_lt_dec k' k) as [[Hlt|Heq]|Hgt]; [|done|].
          - rewrite (Hbefore k' u' Hlt Hk') in Hat'. discriminate.
          - rewrite (Hbefore' k u Hgt Hk) in Hat. discriminate. }
        rewrite Hgit in Hout. destruct Hout as [_ ->]. by rewrite Hsg.
Qed.

(** With nothing selected and nothing changed there is nothing to aim at,
    and staging rejects before any client is called. *)
Lemma stage_nothing_changed (s : GitService.Service)
  (repository : Repository) (st : GitState) (w : World) :
  state repository = Some st →
  FileSelectionService.storedSelection (workspaceState w)
    (fsPath (rootUri repository)) = [] →
  FileSelectionService.getChangedFiles st = [] →
  GitService.stageSelectedFiles s repository w
  = (Throw (JsError "No changed files to stage. Make some changes first."), w).
Proof.
  intros Hst Hsel Hch.
  unfold GitService.stageSelectedFiles, GitService.getSelectedFiles,
    GitService.getChangedFiles, readStore, FileSelectionService.getSelectedFiles.
  unfold bind at 1. rewrite Hsel, Hst. cbn [map].
  unfold bind, ret. by rewrite Hch.
Qed.

(** The second variant refuses an empty selection instead. *)
Lemma alt_stage_empty_selection (repository : Repository) (w : World) :
  FileSelectionService.storedSelection (workspaceState w)
    (fsPath (rootUri repository)) = [] →
  GitServiceAlt.stageSelectedFiles repository w
  = (Throw (JsError "No files selected for staging"), w).
Proof.
  intros Hsel.
  unfold GitServiceAlt.stageSelectedFiles, GitService.getSelectedFiles,
    readStore, FileSelectionService.getSelectedFiles.
  unfold bind. by rewrite Hsel.
Qed.

(** [stageSelectedFiles] stages the selected files or, with nothing
    selected, the changed ones; with neither it rejects at once. *)
Lemma stageSelectedFiles_outcome (s : GitService.Service)
  (repository : Repository) (w : World) :
  let files := filesToStage repository (workspaceState w) in
  let '(r, w') := GitService.stageSelectedFiles s repository w in
  match files with
  | [] => (∃ e, r = Throw e) ∧ w' = w
  | _ :: _ => stagingOutcome s repository files w r w'
  end.
Proof.
  cbn zeta.
  unfold GitService.stageSelectedFiles, GitService.getSelectedFiles,
    readStore, filesToStage.
  unfold bind at 1.
  destruct (FileSelectionService.getSelectedFiles _ _) as [|u us].
  - unfold GitService.getChangedFiles.
    destruct (state repository) as [st|]; cbn [from_option].
    + unfold bind at 1, ret.
      destruct (FileSelectionService.getChangedFiles st) as [|c cs].
      * unfold throw. split; [by eexists|done].
      * apply (stage_files_outcome s repository (c :: cs) w).
    + unfold bind, throw. split; [by eexists|done].
  - apply (stage_files_outcome s repository (u :: us) w).
Qed.

Lemma stageSelectedFiles_resolves_iff (s : GitService.Service)
  (repository : Repository) (w : World) :
  let files := filesToStage repository (workspaceState w) in
  (GitService.stageSelectedFiles s repository w).1 = Normal tt
  ↔ files ≠ []
    ∧ ((∀ i u, files !! i = Some u →
               add repository (log w ++ addCalls (take i files)) u = None)
       ∨ (∃ k u e git,
            files !! k = Some u
            ∧ (∀ i v, i < k → files !! i = Some v →
                      add repository (log w ++ addCalls (take i files)) v
                      = None)
            ∧ add repository (log w ++ addCalls (take k files)) u = Some e
            ∧ GitService.simpleGitInstances s !! fsPath (rootUri repository)
              = Some git
            ∧ sg_add git (log w ++ addCalls (take (S k) files))
                (map (GitService.asRelativePath s) files) = None)).
Proof.
  cbn zeta. pose proof (stageSelectedFiles_outcome s repository w) as H.
  cbn zeta in H.
  destruct (GitService.stageSelectedFiles s repository w) as [r w'].
  cbn [fst].
  destruct (filesToStage repository (workspaceState w)) as [|f fs] eqn:Hf.
  - destruct H as [[e ->] _]. split; [done|]. by intros [? _].
  - rewrite (staging_resolves_iff _ _ _ _ _ _ H). split.
    + intros Hr. by split.
    + by intros [_ Hr].
Qed.

(** C4, as the code has it. With nothing selected, the variant of the
    service without the fallback client refuses to stage, before any call.
    The variant with the fallback client refuses as well when nothing has
    changed; otherwise it aims at the changed files: the host API is asked
    to add each of them in turn and staging resolves when it accepts them
    all; once it refuses one, the fallback client is given all of them by
    relative path, and staging resolves exactly when it accepts them. *)
Theorem stage_empty_selection_targets_changes (s : GitService.Service)
  (repository : Repository) (st : GitState) (w : World) :
  state repository = Some st →
  FileSelectionService.storedSelection (workspaceState w)
    (fsPath (rootUri repository)) = [] →
  let changed := FileSelectionService.getChangedFiles st in
  GitServiceAlt.stageSelectedFiles repository w
  = (Throw (JsError "No files selected for staging"), w)
  ∧ let '(r, w') := GitService.stageSelectedFiles s repository w in
    match changed with
    | [] =>
        r = Throw (JsError
                     "No changed files to stage. Make some changes first.")
        ∧ w' = w
    | _ :: _ =>
        workspaceState w' = workspaceState w
        ∧ ((r = Normal tt
            ∧ (∀ i u, changed !! i = Some u →
                      add repository (log w ++ addCalls (take i changed)) u
                      = None)
            ∧ log w' = log w ++ addCalls changed)
           ∨ (∃ k u e,
                changed !! k = Some u
                ∧ (∀ i v, i < k → changed !! i = Some v →
                          add repository
                            (log w ++ addCalls (take i changed)) v
                          = None)
                ∧ add repository (log w ++ addCalls (take k changed)) u
                  = Some e
                ∧ let attempted :=
                    log w ++ addCalls (take (S k) changed) in
                  match GitService.simpleGitInstances s
                        !! fsPath (rootUri repository) with
                  | None =>
                      log w' = attempted
                      ∧ r = Throw (JsError
                                     "Simple-git instance not found for repository")
                  | Some git =>
                      let filePaths :=
                        map (GitService.asRelativePath s) changed in
                      log w' = attempted ++ [SimpleGitAdd filePaths]
                      ∧ r = match sg_add git attempted filePaths with
                            | None => Normal tt
                            | Some e' =>
                                Throw (JsError ("Failed to stage files: "
                                                +:+ errorMessage e'))
                            end
                  end))
    end.
Proof.
  intros Hst Hsel changed.
  split; [by apply alt_stage_empty_selection|].
  destruct changed as [|c cs] eqn:Hch.
  - rewrite (stage_nothing_changed s repository st w Hst Hsel Hch). by split.
  - pose proof (stageSelectedFiles_outcome s repository w) as H.
    cbn zeta in H. unfold filesToStage in H.
    unfold FileSelectionService.getSelectedFiles in H.
    rewrite Hsel, Hst in H. cbn [map from_option] in H.
    fold changed in H. rewrite Hch in H.
    destruct (GitService.stageSelectedFiles s repository w) as [r w'].
    exact H.
Qed.

Lemma stage_empty_selection_targets_changes_witness :
  GitServiceAlt.stageSelectedFiles Samples.sampleRepository
    Samples.emptyWorld
  = (Throw (JsError "No files selected for staging"), Samples.emptyWorld)
  ∧ let '(r, w') :=
      GitService.stageSelectedFiles Samples.sampleService
        Samples.sampleRepository Samples.emptyWorld in
    stagingOutcome Samples.sampleService Samples.sampleRepository
      [UriFile "/repo/b.txt"; UriFile "/repo/c.txt"] Samples.emptyWorld
      r w'.
Proof.
  apply (stage_empty_selection_targets_changes Samples.sampleService
           Samples.sampleRepository Samples.sampleState Samples.emptyWorld).
  - reflexivity.
  - vm_compute. reflexivity.
Defined.

(** C4, as worded, fails. In the scenario of the specification, nothing
    selected and [b.txt] and [c.txt] changed, the variant of the service
    without the fallback client refuses to stage and calls no client, and
    its commit goes through without a file having been staged. In the
    variant with the fallback client, with nothing selected and nothing
    changed, staging fails outright too. *)
Lemma stage_empty_selection_counterexample :
  FileSelectionService.getSelectedFiles (workspaceState Samples.emptyWorld)
    (rootUri Samples.sampleRepository) = []
  ∧ FileSelectionService.getChangedFiles Samples.sampleState
    = [UriFile "/repo/b.txt"; UriFile "/repo/c.txt"]
  ∧ GitServiceAlt.stageSelectedFiles Samples.sampleRepository
      Samples.emptyWorld
    = (Throw (JsError "No files selected for staging"), Samples.emptyWorld)
  ∧ (GitServiceAlt.commit Samples.sampleRepository "docs: update" false
       Samples.emptyWorld).1 = Normal tt
  ∧ log (GitServiceAlt.commit Samples.sampleRepository "docs: update" false
           Samples.emptyWorld).2
    = [RepoCommit "docs: update" false; FireGitStateChange]
  ∧ GitService.stageSelectedFiles Samples.sampleService
      Samples.cleanRepository Samples.emptyWorld
    = (Throw (JsError "No changed files to stage. Make some changes first."),
       Samples.emptyWorld).
Proof.
  split; [by vm_compute|]. split; [by vm_compute|].
  split; [by vm_compute|]. split; [by vm_compute|].
  split; by vm_compute.
Qed.

(** The scenario of the specification in the variant with the fallback
    client: nothing selected, [b.txt] and [c.txt] changed, and both get
    staged. *)
Example stage_empty_selection_scenario :
  let '(r, w') :=
    GitService.stageSelectedFiles Samples.sampleService
      Samples.sampleRepository Samples.emptyWorld in
  r = Normal tt ∧ log w' = [RepoAdd "/repo/b.txt"; RepoAdd "/repo/c.txt"].
Proof. vm_compute. by split. Qed.

(** C5. A commit resolves exactly when the message is not blank, the
    repository state is there, staging (skipped when amending) has resolved
    and the commit was accepted by the host API or, that one refusing, by
    the fallback client; staging resolves exactly when there is a file to
    stage and the host API accepts them all or, once it has refused one,
    the fallback client accepts them. A commit that resolves has cleared
    the selection of the repository and fired the state-change
    notification, after client calls only; a commit that rejects does so
    with an [Error], leaves the whole store as it was, and fires no
    state-change notification. *)
Theorem commit_clears_on_success_only (s : GitService.Service)
  (repository : Repository) (message : string) (amend : bool) (w : World) :
  let files := filesToStage repository (workspaceState w) in
  let staged :=
    if amend then (Normal tt, w)
    else GitService.stageSelectedFiles s repository w in
  let h := log staged.2 in
  let '(r, w') := GitService.commit s repository message amend w in
  (r = Normal tt
   ↔ onlyWhiteSpace message = false
     ∧ is_Some (state repository)
     ∧ staged.1 = Normal tt
     ∧ (Api.commit repository h message amend = None
        ∨ (is_Some (Api.commit repository h message amend)
           ∧ ∃ git,
               GitService.simpleGitInstances s !! fsPath (rootUri repository)
               = Some git
               ∧ sg_commit git (h ++ [RepoCommit message amend]) message amend
                 = None)))
  ∧ (staged.1 = Normal tt
     ↔ amend = true
       ∨ (files ≠ []
          ∧ ((∀ i u, files !! i = Some u →
                     add repository (log w ++ addCalls (take i files)) u
                     = None)
             ∨ (∃ k u e git,
                  files !! k = Some u
                  ∧ (∀ i v, i < k → files !! i = Some v →
                            add repository
                              (log w ++ addCalls (take i files)) v
                            = None)
                  ∧ add repository (log w ++ addCalls (take k files)) u
                    = Some e
                  ∧ GitService.simpleGitInstances s
                    !! fsPath (rootUri repository) = Some git
                  ∧ sg_add git (log w ++ addCalls (take (S k) files))
                      (map (GitService.asRelativePath s) files) = None))))
  ∧ match r with
    | Normal _ =>
        workspaceState w'
        = FileSelectionService.clearSelection (rootUri repository)
            (workspaceState w)
        ∧ FileSelectionService.storedSelection (workspaceState w')
            (fsPath (rootUri repository)) = []
        ∧ ∃ calls,
            Forall clientCall calls
            ∧ log w'
              = log w ++ calls
                ++ [ShowInformationMessage "Commit successful!";
                    FireGitStateChange]
    | Throw e =>
        workspaceState w' = workspaceState w
        ∧ (∃ text, e = JsError text)
        ∧ ∃ evs, log w' = log w ++ evs ∧ (FireGitStateChange ∉ evs)
    end.
Proof.
  cbn zeta.
  pose proof (commit_resolves_iff s repository message amend w) as Hiff.
  cbn zeta in Hiff. unfold commitStepResolves in Hiff.
  pose proof (stageSelectedFiles_resolves_iff s repository w) as Hstage.
  cbn zeta in Hstage.
  assert (match GitService.commit s repository message amend w with
          | (Normal _, w') =>
              workspaceState w'
              = FileSelectionService.clearSelection (rootUri repository)
                  (workspaceState w)
              ∧ FileSelectionService.storedSelection (workspaceState w')
                  (fsPath (rootUri repository)) = []
              ∧ ∃ calls,
                  Forall clientCall calls
                  ∧ log w'
                    = log w ++ calls
                      ++ [ShowInformationMessage "Commit successful!";
                          FireGitStateChange]
          | (Throw e, w') =>
              workspaceState w' = workspaceState w
              ∧ (∃ text, e = JsError text)
              ∧ ∃ evs, log w' = log w ++ evs ∧ (FireGitStateChange ∉ evs)
          end) as Hout.
  { unfold GitService.commit.
    destruct (truthy (trim message)); simpl.
    2:{ unfold throw. split; [done|]. split; [by eexists|].
        exists []. rewrite app_nil_r. split; [done|].
        apply not_elem_of_nil. }
    unfold tryCatch at 1.
    rewrite <- bind_assoc3.
    pose proof (quiet_commit_attempt s repository message amend w)
      as (Hs & calls & Hl & Hc).
    unfold bind at 1.
    destruct (bind _ _ w) as [[[]|e] w1]; simpl in Hs, Hl.
    - simpl. split; [by rewrite Hs|].
      split.
      { rewrite Hs. rewrite clearSelection_stored.
        by destruct (decide _). }
      exists calls. split; [done|].
      rewrite Hl. by rewrite <- !app_assoc.
    - simpl. split; [done|]. split; [by eexists|].
      eexists. split; [rewrite Hl; by rewrite <- app_assoc|].
      intros [Hin|Hin]%elem_of_app.
      + eapply Forall_forall in Hc; [|exact Hin]. exact Hc.
      + apply list_elem_of_singleton in Hin. discriminate. }
  destruct (GitService.commit s repository message amend w) as [r w'].
  cbn [fst] in Hiff. split; [|split].
  - rewrite Hiff.
    assert (truthy (trim message) = true ↔ onlyWhiteSpace message = false)
      as ->; [|done].
    pose proof (trim_falsy message) as Ht.
    destruct (truthy (trim message)), (onlyWhiteSpace message);
      intuition congruence.
  - destruct amend; cbn [fst].
    + split; [by left|done].
    + rewrite Hstage. split; [by right|]. by intros [?|?].
  - by destruct r as [[]|e].
Qed.

End Orchestration.

(** ** The diff reader *)

Section DiffReader.
Import Js ProofSupport GitDiffService.

Lemma splitLines_nonempty (s : string) : splitLines s ≠ [].
Proof.
  induction s as [|c s IH]; simpl; [done|].
  destruct (Ascii.eqb c "010"); [done|]. by destruct (splitLines s).
Qed.

Lemma join_cons_cons (sep l l' : string) (ls : list string) :
  join sep (l :: l' :: ls) = l +:+ sep +:+ join sep (l' :: ls).
Proof. reflexivity. Qed.

Lemma join_cons_char (sep : string) (c : ascii) (l : string)
  (ls : list string) :
  join sep (String c l :: ls) = String c (join sep (l :: ls)).
Proof. by destruct ls. Qed.

(** Splitting at the line feeds and joining with line feeds is the
    identity. *)
Lemma join_splitLines (s : string) : join nl (splitLines s) = s.
Proof.
  induction s as [|c s IH]; [done|]. simpl.
  destruct (Ascii.eqb_spec c "010") as [->|Hc].
  - pose proof (splitLines_nonempty s) as Hne.
    destruct (splitLines s) as [|l ls]; [done|].
    rewrite join_cons_cons, IH. reflexivity.
  - pose proof (splitLines_nonempty s) as Hne.
    destruct (splitLines s) as [|l ls]; [done|].
    by rewrite join_cons_char, IH.
Qed.

Lemma length_join_take (n : nat) (ls : list string) :
  String.length (join nl (take n ls)) ≤ String.length (join nl ls).
Proof.
  revert n. induction ls as [|l ls IH]; intros n.
  - by rewrite take_nil.
  - destruct n as [|n]; [simpl; lia|].
    rewrite firstn_cons.
    destruct ls as [|l' ls]; [by rewrite take_nil|].
    specialize (IH n). rewrite join_cons_cons, !length_append.
    destruct n as [|n]; [simpl; lia|].
    rewrite firstn_cons in *. rewrite join_cons_cons, !length_append. lia.
Qed.

Lemma splitLines_singleLine (l : string) :
  singleLine l = true → splitLines l = [l].
Proof.
  induction l as [|c l IH]; simpl; [done|].
  intros [Hc Hl]%andb_prop. apply negb_true_iff in Hc. rewrite Hc.
  by rewrite (IH Hl).
Qed.

Lemma splitLines_line_append (l rest : string) :
  singleLine l = true →
  splitLines (l +:+ nl +:+ rest) = l :: splitLines rest.
Proof.
  induction l as [|c l IH]; [done|].
  rewrite append_cons. simpl.
  intros [Hc Hl]%andb_prop. apply negb_true_iff in Hc. rewrite Hc.
  by rewrite (IH Hl).
Qed.

Lemma splitLines_join (ls : list string) :
  ls ≠ [] → Forall (λ l, singleLine l = true) ls →
  splitLines (join nl ls) = ls.
Proof.
  induction ls as [|l ls IH]; [done|]. intros _ Hall.
  apply Forall_cons in Hall as [Hl Hls].
  destruct ls as [|l' ls]; [by apply splitLines_singleLine|].
  rewrite join_cons_cons, splitLines_line_append by done.
  by rewrite IH.
Qed.

Lemma splitLines_lines (s : string) :
  Forall (λ l, singleLine l = true) (splitLines s).
Proof.
  induction s as [|c s IH]; simpl; [by apply Forall_singleton|].
  destruct (Ascii.eqb c "010") eqn:Hc; [by apply Forall_cons|].
  destruct (splitLines s) as [|l ls].
  { apply Forall_singleton. simpl. by rewrite Hc. }
  apply Forall_cons in IH as [Hl Hls]. apply Forall_cons. split; [|done].
  simpl. by rewrite Hc.
Qed.

Lemma join_snoc (ls : list string) (m : string) :
  ls ≠ [] → join nl (ls ++ [m]) = join nl ls +:+ nl +:+ m.
Proof.
  induction ls as [|l ls IH]; [done|]. intros _.
  destruct ls as [|l' ls]; [done|].
  change ((l :: l' :: ls) ++ [m]) with (l :: l' :: (ls ++ [m])).
  rewrite !join_cons_cons.
  change (l' :: ls ++ [m]) with ((l' :: ls) ++ [m]).
  rewrite IH by done. by rewrite !append_assoc.
Qed.

Lemma truncationMarker_line :
  truncationMarker = nl +:+ "... (diff truncated for AI analysis)".
Proof. reflexivity. Qed.

(** What [capDiff] returns for a diff over the threshold. *)
Lemma truncated_lines (d : string) :
  let out := join nl (take 50 (splitLines d)) +:+ truncationMarker in
  splitLines out
  = take 50 (splitLines d) ++ ["... (diff truncated for AI analysis)"]
  ∧ length (splitLines out) ≤ 51
  ∧ String.length out ≤ String.length d + 37.
Proof.
  pose proof (splitLines_nonempty d) as Hne.
  pose proof (splitLines_lines d) as Hall.
  assert (take 50 (splitLines d) ≠ []) as Hne'.
  { destruct (splitLines d); [done|]. by rewrite firstn_cons. }
  cbn zeta. rewrite truncationMarker_line, <- join_snoc by done.
  rewrite splitLines_join.
  - split; [done|]. split.
    + rewrite length_app, length_take. cbn [length]. lia.
    + rewrite join_snoc, !length_append by done.
      pose proof (length_join_take 50 (splitLines d)) as Hlen.
      rewrite join_splitLines in Hlen.
      change (String.length nl) with 1.
      change (String.length "... (diff truncated for AI analysis)") with 36.
      lia.
  - by destruct (take 50 (splitLines d)).
  - apply Forall_app. split; [by apply Forall_take|].
    by apply Forall_singleton.
Qed.

(** C1, as the code has it. When [git.diff] resolves, let [d] be the string
    it resolves to, or the placeholder [changeType: relativePath] when that
    string is empty. If [d] has at most 2000 characters, [d] is returned as
    it is; otherwise [d] is cut to its first fifty lines, followed by the
    marker line. The result then has at most 51 lines and at most 37
    characters more than [d]; its length is not bounded by 2000. *)
Theorem getFileDiff_truncates_by_lines (h : Host) (repository : Repository)
  (fileUri : Uri) (relativePath changeType : string) (git : SimpleGit)
  (gitDiff : string) :
  changeType ≠ "A" →
  simpleGitInstances h !! fsPath (rootUri repository) = Some git →
  sg_diff git ["HEAD"; "--"; relativePath] = Normal gitDiff →
  let d :=
    if truthy gitDiff then gitDiff else changeType +:+ ": " +:+ relativePath in
  let out := getFileDiff h repository fileUri relativePath changeType in
  (String.length d ≤ 2000 → out = d)
  ∧ (2000 < String.length d →
     splitLines out
     = take 50 (splitLines d) ++ ["... (diff truncated for AI analysis)"]
     ∧ length (splitLines out) ≤ 51
     ∧ String.length out ≤ String.length d + 37).
Proof.
  intros Hct Hgit Hdiff d out.
  assert (out = capDiff gitDiff relativePath changeType) as ->.
  { unfold out, getFileDiff, getGitDiff.
    apply String.eqb_neq in Hct. by rewrite Hct, Hgit, Hdiff. }
  unfold capDiff. fold d. split.
  - intros Hle. apply Nat.ltb_ge in Hle. by rewrite Hle.
  - intros Hlt. apply Nat.ltb_lt in Hlt. rewrite Hlt.
    apply truncated_lines.
Qed.

Lemma getFileDiff_truncates_by_lines_witness :
  let out :=
    getFileDiff Samples.sampleHost Samples.sampleRepository
      (UriFile "/repo/b.txt") "b.txt" "M" in
  (String.length Samples.longDiff ≤ 2000 → out = Samples.longDiff)
  ∧ (2000 < String.length Samples.longDiff →
     splitLines out
     = take 50 (splitLines Samples.longDiff)
       ++ ["... (diff truncated for AI analysis)"]
     ∧ length (splitLines out) ≤ 51
     ∧ String.length out ≤ String.length Samples.longDiff + 37).
Proof.
  apply (getFileDiff_truncates_by_lines Samples.sampleHost
           Samples.sampleRepository (UriFile "/repo/b.txt") "b.txt" "M"
           Samples.sampleGit Samples.longDiff).
  - discriminate.
  - vm_compute. reflexivity.
  - reflexivity.
Defined.

(** Without a simple-git instance, or when [git.diff] rejects, the one-line
    placeholder is returned, whatever its length. *)
Lemma getFileDiff_placeholder (h : Host) (repository : Repository)
  (fileUri : Uri) (relativePath changeType : string) :
  changeType ≠ "A" →
  match simpleGitInstances h !! fsPath (rootUri repository) with
  | None => True
  | Some git =>
      ∃ e, sg_diff git ["HEAD"; "--"; relativePath] = Throw e
  end →
  getFileDiff h repository fileUri relativePath changeType
  = changeType +:+ ": " +:+ relativePath.
Proof.
  intros Hct Hgit. unfold getFileDiff, getGitDiff.
  apply String.eqb_neq in Hct. rewrite Hct.
  destruct (_ !! _) as [git|]; [|done].
  by destruct Hgit as [e ->].
Qed.

(** C1, as worded, fails: a diff of sixty lines of a hundred characters is
    cut to fifty lines, and what is returned is 5086 characters long. *)
Lemma getFileDiff_cap_counterexample :
  Z.of_nat (String.length Samples.longDiff) = 6059%Z
  ∧ Z.of_nat
      (String.length
         (getFileDiff Samples.sampleHost Samples.sampleRepository
            (UriFile "/repo/b.txt") "b.txt" "M")) = 5086%Z
  ∧ 2000 < String.length
             (getFileDiff Samples.sampleHost Samples.sampleRepository
                (UriFile "/repo/b.txt") "b.txt" "M").
Proof.
  split; [vm_compute; reflexivity|].
  assert (Z.of_nat
            (String.length
               (getFileDiff Samples.sampleHost Samples.sampleRepository
                  (UriFile "/repo/b.txt") "b.txt" "M")) = 5086%Z) as H
    by (vm_compute; reflexivity).
  split; [exact H|]. lia.
Qed.

End DiffReader.

(** ** More on the selection store *)

Section SelectionStoreMore.
Import Js ProofSupport FileSelectionService SpecReading.

Implicit Types (ws : gmap string (list string)) (fileUri repoUri : Uri).

Lemma selectionKey_inj repoPath repoPath' :
  selectionKey repoPath = selectionKey repoPath' → repoPath = repoPath'.
Proof. unfold selectionKey. apply String.app_inj. Qed.

Lemma selected_true_absent (l : list string) x :
  x ∉ l → selected l x true = l ++ [x].
Proof. intros Hx. unfold selected. by rewrite (indexOf_absent _ _ Hx). Qed.

Lemma selected_true_present (l : list string) x :
  x ∈ l → selected l x true = l.
Proof.
  intros Hx. unfold selected.
  destruct (indexOf_present l x Hx) as (n & -> & _). simpl.
  by assert ((Z.of_nat n =? -1)%Z = false) as -> by (apply Z.eqb_neq; lia).
Qed.

Lemma selected_false_absent (l : list string) x :
  x ∉ l → selected l x false = l.
Proof. intros Hx. unfold selected. by rewrite (indexOf_absent _ _ Hx). Qed.

Lemma selected_false_present (l : list string) x :
  x ∈ l →
  ∃ n, l !! n = Some x ∧ selected l x false = delete n l.
Proof.
  intros Hx. destruct (indexOf_present l x Hx) as (n & Hn & Hl & _).
  exists n. split; [done|]. unfold selected, splice1. rewrite Hn. simpl.
  assert ((-1 <? Z.of_nat n)%Z = true) as -> by lia.
  by rewrite Nat2Z.id.
Qed.

Lemma toggled_selected (l : list string) x :
  toggled l x = selected l x (bool_decide (x ∉ l)).
Proof.
  destruct (decide (x ∈ l)) as [Hx|Hx].
  - rewrite bool_decide_eq_false_2 by (intros Hn; by apply Hn).
    destruct (indexOf_present l x Hx) as (m & Hm & _).
    unfold toggled, selected. rewrite Hm. simpl.
    by assert ((-1 <? Z.of_nat m)%Z = true) as -> by lia.
  - rewrite bool_decide_eq_true_2 by done.
    by rewrite toggled_absent, selected_true_absent.
Qed.

Lemma elem_of_delete_other (l : list string) n x p :
  l !! n = Some x → p ≠ x → p ∈ delete n l ↔ p ∈ l.
Proof.
  intros Hl Hne. rewrite (delete_Permutation l n x Hl) at 2.
  rewrite elem_of_cons. tauto.
Qed.

Lemma selected_elem (l : list string) x b p :
  NoDup l →
  p ∈ selected l x b ↔ (if decide (p = x) then b = true else p ∈ l).
Proof.
  intros Hnd. destruct b.
  - destruct (decide (x ∈ l)) as [Hx|Hx].
    + rewrite selected_true_present by done.
      destruct (decide (p = x)) as [->|]; [tauto|done].
    + rewrite selected_true_absent by done.
      rewrite elem_of_app, list_elem_of_singleton.
      destruct (decide (p = x)) as [->|]; tauto.
  - destruct (decide (x ∈ l)) as [Hx|Hx].
    + destruct (selected_false_present l x Hx) as (n & Hl & ->).
      destruct (decide (p = x)) as [->|Hne].
      * split; [|done]. intros Hin.
        exfalso. exact (NoDup_delete_lookup l n x Hnd Hl Hin).
      * exact (elem_of_delete_other l n x p Hl Hne).
    + rewrite selected_false_absent by done.
      destruct (decide (p = x)) as [->|]; [|done].
      split; [done|discriminate].
Qed.

(** X1. Toggling is setting to the opposite of what the store holds. *)
Theorem toggle_is_set_to_opposite ws fileUri repoUri :
  toggleFileSelection fileUri repoUri ws
  = setFileSelection fileUri repoUri
      (bool_decide (fsPath fileUri ∉ storedSelection ws (fsPath repoUri))) ws.
Proof.
  unfold toggleFileSelection, setFileSelection. f_equal.
  apply toggled_selected.
Qed.

(** X2. After [setFileSelection] the file is selected exactly when asked to be,
    and no other path enters or leaves the selection. *)
Theorem setFileSelection_membership ws fileUri repoUri isSelected p :
  NoDup (storedSelection ws (fsPath repoUri)) →
  p ∈ storedSelection (setFileSelection fileUri repoUri isSelected ws)
        (fsPath repoUri)
  ↔ (if decide (p = fsPath fileUri) then isSelected = true
     else p ∈ storedSelection ws (fsPath repoUri)).
Proof.
  intros Hnd. rewrite setFileSelection_stored.
  rewrite decide_True by done. by apply selected_elem.
Qed.

Lemma setFileSelection_membership_witness :
  "/repo/a.txt"
  ∈ storedSelection
      (setFileSelection (UriFile "/repo/a.txt") (UriFile "/repo") true ∅)
      "/repo"
  ↔ true = true.
Proof.
  refine (setFileSelection_membership ∅ (UriFile "/repo/a.txt")
            (UriFile "/repo") true "/repo/a.txt" _).
  apply (bool_decide_unpack _). vm_compute. exact I.
Defined.

(** X3. Toggling flips the file and touches no other path. *)
Theorem toggleFileSelection_membership ws fileUri repoUri p :
  NoDup (storedSelection ws (fsPath repoUri)) →
  p ∈ storedSelection (toggleFileSelection fileUri repoUri ws)
        (fsPath repoUri)
  ↔ (if decide (p = fsPath fileUri)
     then p ∉ storedSelection ws (fsPath repoUri)
     else p ∈ storedSelection ws (fsPath repoUri)).
Proof.
  intros Hnd. rewrite toggleFileSelection_stored.
  rewrite decide_True by done. rewrite toggled_selected.
  rewrite selected_elem by done.
  destruct (decide (p = fsPath fileUri)) as [->|]; [|done].
  by rewrite bool_decide_eq_true.
Qed.

Lemma toggleFileSelection_membership_witness :
  "/repo/a.txt"
  ∈ storedSelection
      (toggleFileSelection (UriFile "/repo/a.txt") (UriFile "/repo") ∅)
      "/repo"
  ↔ "/repo/a.txt" ∉ storedSelection ∅ "/repo".
Proof.
  refine (toggleFileSelection_membership ∅ (UriFile "/repo/a.txt")
            (UriFile "/repo") "/repo/a.txt" _).
  apply (bool_decide_unpack _). vm_compute. exact I.
Defined.

(** X4. Setting a file to the state it is in already leaves every stored array
    as it was. *)
Theorem setFileSelection_same_state ws fileUri repoUri isSelected repoPath' :
  bool_decide (fsPath fileUri ∈ storedSelection ws (fsPath repoUri))
  = isSelected →
  storedSelection (setFileSelection fileUri repoUri isSelected ws) repoPath'
  = storedSelection ws repoPath'.
Proof.
  intros Hb. rewrite setFileSelection_stored.
  destruct (decide _) as [Hk|]; [|done].
  apply selectionKey_inj in Hk. subst repoPath'.
  destruct isSelected.
  - apply bool_decide_eq_true in Hb. by apply selected_true_present.
  - apply bool_decide_eq_false in Hb. by apply selected_false_absent.
Qed.

Lemma setFileSelection_same_state_witness :
  storedSelection
    (setFileSelection (UriFile "/repo/a.txt") (UriFile "/repo") false ∅)
    "/repo"
  = storedSelection ∅ "/repo".
Proof.
  refine (setFileSelection_same_state ∅ (UriFile "/repo/a.txt")
            (UriFile "/repo") false "/repo" _).
  vm_compute. reflexivity.
Defined.

(** X5. No operation on one repository changes the selection of another. *)
Theorem selection_of_other_repository_kept ws fileUri repoUri repoPath' :
  fsPath repoUri ≠ repoPath' →
  storedSelection (toggleFileSelection fileUri repoUri ws) repoPath'
  = storedSelection ws repoPath'
  ∧ (∀ isSelected,
       storedSelection (setFileSelection fileUri repoUri isSelected ws)
         repoPath'
       = storedSelection ws repoPath')
  ∧ storedSelection (clearSelection repoUri ws) repoPath'
    = storedSelection ws repoPath'.
Proof.
  intros Hne.
  assert (selectionKey (fsPath repoUri) ≠ selectionKey repoPath') as Hk.
  { intros Hk. by apply selectionKey_inj in Hk. }
  split; [|split; [intros b|]].
  - rewrite toggleFileSelection_stored. by rewrite decide_False.
  - rewrite setFileSelection_stored. by rewrite decide_False.
  - rewrite clearSelection_stored. by rewrite decide_False.
Qed.

Lemma selection_of_other_repository_kept_witness :
  storedSelection
    (clearSelection (UriFile "/repo")
       (<[selectionKey "/other" := ["/other/x.txt"]]> ∅))
    "/other"
  = storedSelection (<[selectionKey "/other" := ["/other/x.txt"]]> ∅)
      "/other".
Proof.
  refine (proj2 (proj2 (selection_of_other_repository_kept
                          (<[selectionKey "/other" := ["/other/x.txt"]]> ∅)
                          (UriFile "/repo/a.txt") (UriFile "/repo")
                          "/other" _))).
  discriminate.
Defined.

(** After [clearSelection] nothing is selected in that repository, whatever
    was stored before. *)
Theorem clearSelection_getSelectedFiles ws repoUri :
  getSelectedFiles (clearSelection repoUri ws) repoUri = [].
Proof.
  unfold getSelectedFiles. rewrite clearSelection_stored.
  by rewrite decide_True.
Qed.

End SelectionStoreMore.

(** ** More on the change enumeration *)

Section ChangeEnumerationMore.
Import Js FileSelectionService SpecReading CommitMessageGenerator.

Lemma uri_elem_of_map (u : Uri) (l : list string) :
  u ∈ map UriFile l ↔ fsPath u ∈ l.
Proof.
  rewrite list_elem_of_fmap. split.
  - intros (p & -> & Hp). done.
  - intros Hp. exists (fsPath u). split; [by destruct u|done].
Qed.

Lemma getChangedFiles_elem (st : GitState) (u : Uri) :
  u ∈ getChangedFiles st
  ↔ fsPath u ∈ paths (indexChanges st)
    ∨ fsPath u ∈ paths (workingTreeChanges st)
    ∨ fsPath u ∈ paths (untrackedChanges st).
Proof.
  pose proof (getChangedFiles_paths st) as Hp.
  assert (getChangedFiles st = map UriFile (map fsPath (getChangedFiles st)))
    as ->.
  { unfold getChangedFiles.
    set (X := newSet _). f_equal.
    rewrite (map_map UriFile fsPath). simpl. by rewrite map_id. }
  rewrite uri_elem_of_map, Hp, firstOccurrences_elem, !elem_of_app. tauto.
Qed.

Lemma findChange_Some (changes : list Change) (u : Uri) :
  is_Some (findChange changes u) ↔ fsPath u ∈ paths changes.
Proof.
  unfold findChange, paths. induction changes as [|c cs IH]; simpl.
  - split; [by intros [? ?]|]. by intros ?%elem_of_nil.
  - destruct (String.eqb_spec (fsPath (uri c)) (fsPath u)) as [He|Hne].
    + split; [|by eexists]. intros _. rewrite He. left.
    + rewrite IH, elem_of_cons. split; [tauto|].
      intros [Heq|?]; [congruence|done].
Qed.

Lemma findChange_None (changes : list Change) (u : Uri) :
  findChange changes u = None ↔ fsPath u ∉ paths changes.
Proof.
  pose proof (findChange_Some changes u) as H.
  destruct (findChange changes u) as [c|].
  - split; [done|]. intros Hn. exfalso. apply Hn, H. by eexists.
  - split; [|done]. intros _ Hin. apply H in Hin as [? ?]. done.
Qed.

Lemma getFileChangeInfo_is_Some (st : GitState) (u : Uri) :
  is_Some (getFileChangeInfo st u) ↔ u ∈ getChangedFiles st.
Proof.
  rewrite getChangedFiles_elem, <- !findChange_Some.
  unfold getFileChangeInfo.
  destruct (findChange (untrackedChanges st) u),
    (findChange (indexChanges st) u),
    (findChange (workingTreeChanges st) u); simpl;
    first
      [ split;
        [ intros _;
          first [ left; by eexists
                | right; left; by eexists
                | right; right; by eexists ]
        | intros _; by eexists ]
      | split;
        [ intros [? ?]; done
        | intros [[? ?]|[[? ?]|[? ?]]]; done ] ].
Qed.

(** X6. A file has a change type exactly when the enumeration lists it: the
    analysis passes over no changed file, and over every other file. *)
Theorem getFileChangeInfo_iff_changed (st : GitState) (u : Uri) :
  is_Some (getFileChangeInfo st u) ↔ u ∈ getChangedFiles st.
Proof. apply getFileChangeInfo_is_Some. Qed.

(** X7. The enumeration counts every changed path once, however many of the
    three lists name it. *)
Theorem getChangedFiles_length (st : GitState) :
  length (getChangedFiles st)
  = size (list_to_set
            (paths (indexChanges st) ++ paths (workingTreeChanges st)
             ++ paths (untrackedChanges st)) : gset string).
Proof.
  rewrite <- (length_map fsPath), getChangedFiles_paths.
  set (l := paths (indexChanges st) ++ _).
  rewrite <- (size_list_to_set (C:=gset string) (firstOccurrences l))
    by apply firstOccurrences_NoDup.
  f_equal. apply set_eq. intros p.
  by rewrite !elem_of_list_to_set, firstOccurrences_elem.
Qed.

End ChangeEnumerationMore.

(** ** More on the diff reader *)

Section DiffReaderMore.
Import Js ProofSupport GitDiffService.

Lemma singleLine_append (a b : string) :
  singleLine a = true → singleLine b = true → singleLine (a +:+ b) = true.
Proof.
  intros Ha Hb. induction a as [|c a IH]; [done|].
  rewrite append_cons. simpl in *.
  apply andb_prop in Ha as [Hc Ha]. rewrite Hc. by apply IH.
Qed.

(** X8. The diff of an added file, line by line: the header with the path, the
    first fifty lines of the document, each after a plus sign, and the
    marker when the document has more lines. *)
Theorem getNewFileDiff_lines (h : Host) (repository : Repository)
  (fileUri : Uri) (relativePath content : string) :
  openTextDocument h fileUri = Normal content →
  singleLine relativePath = true →
  let out := getFileDiff h repository fileUri relativePath "A" in
  splitLines out
  = ("+++ " +:+ relativePath)
    :: map (λ line, "+" +:+ line) (take 50 (splitLines content))
    ++ (if Nat.ltb 50 (length (splitLines content))
        then ["... (truncated)"] else [])
  ∧ length (splitLines out) ≤ 52.
Proof.
  intros Hdoc Hrel out.
  assert (splitLines out
          = ("+++ " +:+ relativePath)
            :: map (λ line, "+" +:+ line) (take 50 (splitLines content))
            ++ (if Nat.ltb 50 (length (splitLines content))
                then ["... (truncated)"] else [])) as Hout.
  { unfold out, getFileDiff, getNewFileDiff. rewrite Hdoc.
    change (String.eqb "A" "A") with true. cbn iota.
    rewrite firstn_map.
    set (L := map (λ line, "+" +:+ line) (take 50 (splitLines content))).
    assert (L ≠ []) as HL.
    { unfold L. pose proof (splitLines_nonempty content).
      by destruct (splitLines content). }
    assert (Forall (λ l, singleLine l = true) L) as Hall.
    { unfold L. apply Forall_forall. intros l Hl.
      apply list_elem_of_fmap in Hl as (l' & -> & Hl').
      apply singleLine_append; [done|].
      pose proof (splitLines_lines content) as Hc.
      eapply Forall_forall in Hc; [exact Hc|].
      apply elem_of_take in Hl' as (i & Hi & _).
      by eapply list_elem_of_lookup_2. }
    rewrite <- (append_assoc "+++ " relativePath).
    rewrite splitLines_line_append
      by by apply (singleLine_append "+++ " relativePath).
    f_equal.
    destruct (Nat.ltb 50 (length (splitLines content))).
    - rewrite <- join_snoc by done.
      rewrite splitLines_join; [done|by destruct L|].
      apply Forall_app. split; [done|]. by apply Forall_singleton.
    - rewrite append_empty_r, app_nil_r. by apply splitLines_join. }
  split; [done|]. rewrite Hout. cbn [length].
  rewrite length_app, length_map, length_take.
  destruct (Nat.ltb 50 _); cbn [length]; lia.
Qed.

Lemma getNewFileDiff_lines_witness :
  let h :=
    {| simpleGitInstances := ∅;
       openTextDocument := λ _, Normal ("first" +:+ nl +:+ "second") |} in
  splitLines
    (getFileDiff h Samples.sampleRepository (UriFile "/repo/n.txt")
       "n.txt" "A")
  = ["+++ n.txt"; "+first"; "+second"].
Proof.
  refine (proj1 (getNewFileDiff_lines _ Samples.sampleRepository
                   (UriFile "/repo/n.txt") "n.txt"
                   ("first" +:+ nl +:+ "second") _ _));
    reflexivity.
Defined.

(** A document that cannot be opened gives the one-line placeholder. *)
Lemma getNewFileDiff_unreadable (h : Host) (repository : Repository)
  (fileUri : Uri) (relativePath : string) (e : Thrown) :
  openTextDocument h fileUri = Throw e →
  getFileDiff h repository fileUri relativePath "A"
  = "New file: " +:+ relativePath.
Proof.
  intros Hdoc. unfold getFileDiff, getNewFileDiff. by rewrite Hdoc.
Qed.

End DiffReaderMore.

(** ** More on trimming *)

Section TrimFacts.
Import Js ProofSupport ProofSupportMore.

Lemma trimStart_startsClean (s : string) : startsClean (trimStart s).
Proof.
  induction s as [|c s IH]; simpl; [done|].
  by destruct (isWhiteSpace c) eqn:Hc.
Qed.

Lemma trimStart_clean (s : string) : startsClean s → trimStart s = s.
Proof. destruct s as [|c s]; simpl; [done|]. by intros ->. Qed.

Lemma trimEnd_startsClean (s : string) :
  startsClean s → startsClean (trimEnd s).
Proof.
  destruct s as [|c s]; simpl; [done|]. intros Hc.
  destruct (trimEnd s); [by rewrite Hc|done].
Qed.

Lemma trimEnd_idem (s : string) : trimEnd (trimEnd s) = trimEnd s.
Proof.
  induction s as [|c s IH]; simpl; [done|].
  destruct (trimEnd s) as [|d r] eqn:Hr.
  - destruct (isWhiteSpace c) eqn:Hc; simpl; [done|]. by rewrite Hc.
  - change (trimEnd (String c (String d r)))
      with (match trimEnd (String d r) with
            | EmptyString =>
                if isWhiteSpace c then EmptyString else String c EmptyString
            | t => String c t
            end).
    by rewrite IH.
Qed.

(** Trimming what is trimmed changes nothing. *)
Lemma trim_idem (s : string) : trim (trim s) = trim s.
Proof.
  unfold trim. rewrite (trimStart_clean (trimEnd (trimStart s))).
  - apply trimEnd_idem.
  - apply trimEnd_startsClean, trimStart_startsClean.
Qed.

Lemma length_zero_empty (s : string) :
  Nat.eqb (String.length s) 0 = negb (truthy s).
Proof. by destruct s. Qed.

Lemma truthy_trim (s : string) : truthy (trim s) = true → truthy s = true.
Proof. by destruct s. Qed.

End TrimFacts.

(** ** More on validation *)

Section ValidationMore.
Import Js JsText ProofSupport GitValidationService CommitMessageValidation.

Lemma validateCommitMessage_blank (message : string) :
  truthy (trim message) = false →
  validateCommitMessage message
  = {| isValid := false; issues := ["Commit message cannot be empty"] |}.
Proof.
  intros Ht. unfold validateCommitMessage.
  rewrite length_zero_empty, Ht. simpl. by rewrite orb_true_r.
Qed.

Lemma validateCommitMessage_filled (message : string) :
  truthy (trim message) = true →
  validateCommitMessage message
  = {| isValid :=
         negb (Nat.ltb (String.length (trim message)) 10)
         && negb (Nat.ltb 72 (String.length (firstLineOf (trim message))));
       issues :=
         issueIf (Nat.ltb (String.length (trim message)) 10)
                 "Commit message should be at least 10 characters long"
         ++ issueIf (Nat.ltb 72 (String.length (firstLineOf (trim message))))
                    "First line should not exceed 72 characters" |}.
Proof.
  intros Ht. unfold validateCommitMessage.
  rewrite length_zero_empty, Ht, (truthy_trim _ Ht). simpl.
  by destruct (Nat.ltb _ 10), (Nat.ltb 72 _).
Qed.

(** X9. A message is accepted exactly when, once trimmed, it has at least ten
    characters and a first line of at most 72; a message of white space only
    gets the single issue that it is empty; white space around a message
    makes no difference. *)
Theorem validateCommitMessage_accepts (message : string) :
  let result := validateCommitMessage message in
  (isValid result = true ↔ issues result = [])
  ∧ (isValid result = true
     ↔ 10 ≤ String.length (trim message)
       ∧ String.length (firstLineOf (trim message)) ≤ 72)
  ∧ (issues result = ["Commit message cannot be empty"]
     ↔ onlyWhiteSpace message = true)
  ∧ validateCommitMessage (trim message) = result.
Proof.
  cbn zeta. destruct (truthy (trim message)) eqn:Ht.
  - rewrite (validateCommitMessage_filled _ Ht).
    assert (truthy (trim (trim message)) = true) as Ht'
      by by rewrite trim_idem.
    rewrite (validateCommitMessage_filled _ Ht'), trim_idem.
    cbn [isValid issues].
    assert (onlyWhiteSpace message = true ↔ False) as Hw.
    { rewrite <- trim_falsy, Ht. split; [discriminate|done]. }
    rewrite Hw.
    destruct (Nat.ltb_spec (String.length (trim message)) 10),
      (Nat.ltb_spec 72 (String.length (firstLineOf (trim message))));
      simpl; repeat split;
      try done; try (intros; discriminate); try (intros; lia);
      try (intros [? ?]; lia).
  - rewrite (validateCommitMessage_blank _ Ht).
    assert (truthy (trim (trim message)) = false) as Ht'
      by by rewrite trim_idem.
    rewrite (validateCommitMessage_blank _ Ht'). cbn [isValid issues].
    assert (trim message = EmptyString) as He
      by by destruct (trim message).
    rewrite He. simpl.
    split; [split; discriminate|].
    split; [split; [discriminate|intros [? _]; lia]|].
    split; [|done]. split; [intros _; by apply trim_falsy|done].
Qed.

End ValidationMore.

(** ** More on the validation of the setup *)

Section SetupValidationMore.
Import Js Effects ProofSupport GitValidationService.

Lemma validSelectedFiles_elem (selectedFiles changedFiles : list Uri)
  (f : Uri) :
  f ∈ validSelectedFiles selectedFiles changedFiles
  ↔ f ∈ selectedFiles ∧ fsPath f ∈ map fsPath changedFiles.
Proof.
  unfold validSelectedFiles. rewrite list_elem_of_filter.
  rewrite existsb_exists, list_elem_of_fmap. split.
  - intros [(c & Hc & He) Hf]. split; [done|].
    exists c. apply String.eqb_eq in He. split; [done|].
    by apply list_elem_of_In.
  - intros [Hf (c & He & Hc)]. split; [|done].
    exists c. split; [by apply list_elem_of_In|]. by apply String.eqb_eq.
Qed.

Lemma isEmpty_false {A} (l : list A) : isEmpty l = false ↔ ∃ x, x ∈ l.
Proof.
  destruct l as [|x l]; simpl.
  - split; [done|]. intros [x Hx]. by apply elem_of_nil in Hx.
  - split; [|done]. intros _. exists x. left.
Qed.

Lemma validateCommitSetup_isValid (r : RepositoryValue) (u : Uri)
  (selectedFiles changedFiles : list Uri) :
  rv_rootUri r = Some u →
  isValid (validateCommitSetup (Some r) selectedFiles changedFiles) = true
  ↔ rv_add_is_function r = true
    ∧ rv_commit_is_function r = true
    ∧ is_Some (rv_state r)
    ∧ ∃ f, f ∈ selectedFiles ∧ fsPath f ∈ map fsPath changedFiles.
Proof.
  intros Hu. unfold validateCommitSetup. rewrite Hu. cbn [isValid].
  rewrite isEmpty_nil, !pushIf_app. simpl.
  assert ((∃ f, f ∈ selectedFiles ∧ fsPath f ∈ map fsPath changedFiles)
          ↔ isEmpty (validSelectedFiles selectedFiles changedFiles) = false)
    as ->.
  { rewrite isEmpty_false. split.
    - intros (f & Hf). exists f. by apply validSelectedFiles_elem.
    - intros (f & Hf). exists f. by apply validSelectedFiles_elem. }
  assert (isEmpty (validSelectedFiles selectedFiles changedFiles) = false
          → isEmpty selectedFiles = false) as Hsel.
  { intros (f & [Hf _]%validSelectedFiles_elem)%isEmpty_false.
    apply isEmpty_false. by exists f. }
  destruct (rv_add_is_function r), (rv_commit_is_function r),
    (rv_state r) as [st|],
    (isEmpty (validSelectedFiles selectedFiles changedFiles)) eqn:Hv,
    (isEmpty selectedFiles) eqn:Hs; simpl;
    try (specialize (Hsel eq_refl); discriminate);
    (split; [try discriminate; intros _; repeat split; by eauto
            |try done; intros (? & ? & [? ?] & ?); done]).
Qed.

(** X10. For a repository with its root URI, the setup is valid exactly when the
    two methods and the state are there and at least one selected file is
    among the changed files. *)
Theorem validateCommitSetup_valid_iff (r : RepositoryValue) (u : Uri)
  (selectedFiles changedFiles : list Uri) :
  rv_rootUri r = Some u →
  isValid (validateCommitSetup (Some r) selectedFiles changedFiles) = true
  ↔ rv_add_is_function r = true
    ∧ rv_commit_is_function r = true
    ∧ is_Some (rv_state r)
    ∧ ∃ f, f ∈ selectedFiles ∧ fsPath f ∈ map fsPath changedFiles.
Proof. apply validateCommitSetup_isValid. Qed.

Lemma validateCommitSetup_valid_iff_witness :
  isValid (validateCommitSetup
             (Some (GitServiceMore.repositoryValue Samples.sampleRepository))
             [UriFile "/repo/b.txt"]
             [UriFile "/repo/b.txt"; UriFile "/repo/c.txt"]) = true
  ↔ true = true
    ∧ true = true
    ∧ is_Some (Some Samples.sampleState)
    ∧ ∃ f, f ∈ [UriFile "/repo/b.txt"]
           ∧ fsPath f
             ∈ map fsPath [UriFile "/repo/b.txt"; UriFile "/repo/c.txt"].
Proof.
  exact (validateCommitSetup_valid_iff
           (GitServiceMore.repositoryValue Samples.sampleRepository)
           (UriFile "/repo") [UriFile "/repo/b.txt"]
           [UriFile "/repo/b.txt"; UriFile "/repo/c.txt"] eq_refl).
Defined.

(** X11. Through the service, a repository without state makes the validation
    throw, so the issue about the missing state is never reported; with the
    state there, the validation resolves, leaves the world alone, and is
    valid exactly when a stored path is among the changed files. *)
Theorem service_validateCommitSetup (repository : Repository) (w : World) :
  match GitServiceMore.validateCommitSetup repository w with
  | (Normal result, w') =>
      w' = w
      ∧ ("Repository state is not available" ∉ issues result)
      ∧ ∃ st, state repository = Some st
              ∧ (isValid result = true
                 ↔ ∃ p, p ∈ FileSelectionService.storedSelection
                              (workspaceState w) (fsPath (rootUri repository))
                        ∧ UriFile p ∈ FileSelectionService.getChangedFiles st)
  | (Throw e, w') => w' = w ∧ state repository = None
  end.
Proof.
  unfold GitServiceMore.validateCommitSetup, GitService.getSelectedFiles,
    GitService.getChangedFiles, readStore, bind, ret, throw.
  destruct (state repository) as [st|] eqn:Hst; [|done].
  split; [done|].
  set (sel := FileSelectionService.getSelectedFiles _ _).
  set (chg := FileSelectionService.getChangedFiles st).
  split.
  - unfold validateCommitSetup, GitServiceMore.repositoryValue.
    cbn [rv_rootUri rv_add_is_function rv_commit_is_function rv_state issues].
    rewrite Hst, !pushIf_app.
    destruct (isEmpty sel), (isEmpty (validSelectedFiles sel chg)); simpl;
      intros Hin;
      repeat (apply elem_of_cons in Hin as [Hin|Hin]; [discriminate|]);
      by apply elem_of_nil in Hin.
  - exists st. split; [done|].
    rewrite (validateCommitSetup_isValid _ (rootUri repository))
      by done.
    cbn [GitServiceMore.repositoryValue rv_add_is_function
         rv_commit_is_function rv_state].
    rewrite Hst. split.
    + intros (_ & _ & _ & f & Hf & Hc). exists (fsPath f). split.
      * unfold sel, FileSelectionService.getSelectedFiles in Hf.
        by apply uri_elem_of_map in Hf.
      * apply list_elem_of_fmap in Hc as (c & Hc & Hin).
        assert (UriFile (fsPath f) = c) as ->; [|done].
        destruct c. simpl in Hc. by rewrite Hc.
    + intros (p & Hp & Hc). split; [done|]. split; [done|].
      split; [by eexists|]. exists (UriFile p). split.
      * unfold sel, FileSelectionService.getSelectedFiles.
        by apply uri_elem_of_map.
      * apply list_elem_of_fmap. by exists (UriFile p).
Qed.

End SetupValidationMore.

(** ** More on the commit-message heuristics *)

Section HeuristicsMore.
Import Js JsText ProofSupport GitValidationService CommitMessageValidation
  CommitMessageGenerator CommitMessageFlow.

Lemma prompt_includes_tail (diffsAndContext : list FileChangeAnalysis)
  (k : string) :
  includes (toLowerCase promptTail) k = true →
  includes (toLowerCase (createDetailedCommitPrompt diffsAndContext)) k
  = true.
Proof. intros Hk. unfold createDetailedCommitPrompt. by apply includes_prompt. Qed.

(** X12. The message the keyword heuristics give for an assembled prompt, in
    full: the type is [fix], the scope is [deps] when the prompt names
    [package.json] and [test] otherwise, and the description follows the
    words [bug] and [error]. *)
Theorem assembled_prompt_message (diffsAndContext : list FileChangeAnalysis) :
  let prompt := createDetailedCommitPrompt diffsAndContext in
  let lowerPrompt := toLowerCase prompt in
  generateIntelligentCommitMessage prompt
  = Some ("fix("
          +:+ (if includes lowerPrompt "package.json" then "deps" else "test")
          +:+ "): "
          +:+ (if includes lowerPrompt "bug" then "resolve critical bug"
               else if includes lowerPrompt "error" then "handle error cases"
               else "resolve issues")).
Proof.
  intros prompt lp.
  assert (includes lp "fix" = true) as Hfix
    by (apply prompt_includes_tail; vm_compute; reflexivity).
  assert (includes lp "test" = true) as Htest
    by (apply prompt_includes_tail; vm_compute; reflexivity).
  unfold generateIntelligentCommitMessage.
  assert (determineCommitType prompt = "fix") as ->.
  { unfold determineCommitType, typeMap. cbn [firstMatch existsb].
    fold lp. by rewrite Hfix. }
  assert (determineScope prompt
          = if includes lp "package.json" then "deps" else "test") as ->.
  { unfold determineScope, scopeMap. cbn [firstMatch existsb]. fold lp.
    rewrite Htest. by destruct (includes lp "package.json"). }
  assert (generateDescription prompt "fix"
          = if includes lp "bug" then "resolve critical bug"
            else if includes lp "error" then "handle error cases"
            else "resolve issues") as ->.
  { unfold generateDescription. fold lp.
    change (property getDescriptionMap "fix")
      with (Some [("bug", "resolve critical bug");
                  ("error", "handle error cases")]).
    cbn [firstDescription].
    by destruct (includes lp "bug"), (includes lp "error"). }
  by destruct (includes lp "package.json").
Qed.

(** X13. The rule-based generator answers every assembled prompt alike: the
    template itself holds the word [added] of its first rule. *)
Theorem assembled_prompt_rule_based (diffsAndContext : list FileChangeAnalysis) :
  generateRuleBasedCommitMessage (createDetailedCommitPrompt diffsAndContext)
  = "feat: add new functionality".
Proof.
  unfold generateRuleBasedCommitMessage, rules. cbn [firstRule existsb].
  rewrite prompt_includes_tail by (vm_compute; reflexivity). reflexivity.
Qed.

Lemma firstMatch_elem (entries : list (string * list string))
  (lowerPrompt fallback : string) :
  firstMatch entries lowerPrompt fallback ∈ fallback :: map fst entries.
Proof.
  induction entries as [|[name keywords] rest IH]; simpl; [left|].
  destruct (existsb _ keywords).
  - right. left.
  - apply elem_of_cons in IH as [->|IH]; [left|]. right. by right.
Qed.

Lemma firstDescription_elem (entries : list (string * string))
  (lowerPrompt d : string) :
  firstDescription entries lowerPrompt = Some d → d ∈ map snd entries.
Proof.
  induction entries as [|[keyword description] rest IH]; simpl; [done|].
  destruct (includes lowerPrompt keyword).
  - intros [= ->]. left.
  - intros H. right. by apply IH.
Qed.

Lemma generateDescription_elem (prompt commitType : string) :
  generateDescription prompt commitType
  ∈ [ "resolve critical bug"; "handle error cases"; "add new feature";
      "implement functionality"; getDefaultDescription commitType ].
Proof.
  unfold generateDescription, getDescriptionMap. cbn [property].
  destruct (String.eqb "fix" commitType).
  { destruct (firstDescription _ _) as [d|] eqn:Hd; [|by do 4 right; left].
    apply firstDescription_elem in Hd. simpl in Hd.
    apply elem_of_cons in Hd as [->|Hd]; [left|].
    apply elem_of_cons in Hd as [->|Hd]; [right; left|].
    by apply elem_of_nil in Hd. }
  destruct (String.eqb "feat" commitType).
  { destruct (firstDescription _ _) as [d|] eqn:Hd; [|by do 4 right; left].
    apply firstDescription_elem in Hd. simpl in Hd.
    apply elem_of_cons in Hd as [->|Hd]; [do 2 right; left|].
    apply elem_of_cons in Hd as [->|Hd]; [do 3 right; left|].
    by apply elem_of_nil in Hd. }
  do 4 right. left.
Qed.

(** X14. Whatever the prompt, the keyword heuristics give a message, and that
    message passes [validateCommitMessage] without an issue. *)
Theorem generated_message_is_valid (prompt : string) :
  ∃ message,
    generateIntelligentCommitMessage prompt = Some message
    ∧ validateCommitMessage message = {| isValid := true; issues := [] |}.
Proof.
  unfold generateIntelligentCommitMessage. eexists. split; [done|].
  pose proof (firstMatch_elem typeMap (toLowerCase prompt) "feat") as Ht.
  pose proof (firstMatch_elem scopeMap (toLowerCase prompt) "") as Hs.
  fold (determineCommitType prompt) in Ht.
  fold (determineScope prompt) in Hs.
  pose proof (generateDescription_elem prompt (determineCommitType prompt))
    as Hd.
  revert Hd.
  generalize (generateDescription prompt (determineCommitType prompt)).
  revert Ht Hs.
  generalize (determineCommitType prompt), (determineScope prompt).
  intros t sc Ht Hs d Hd. simpl in Ht, Hs.
  repeat (apply elem_of_cons in Ht as [->|Ht]);
    [..|by apply elem_of_nil in Ht];
    repeat (apply elem_of_cons in Hs as [->|Hs]);
    try (by apply elem_of_nil in Hs);
    repeat (apply elem_of_cons in Hd as [->|Hd]);
    try (by apply elem_of_nil in Hd);
    vm_compute; reflexivity.
Qed.

End HeuristicsMore.

(** ** Splitting and cutting strings *)

Section SplitFacts.
Import Js JsText ProofSupport ProofSupportMore.

Lemma splitOn_nonempty (sep : ascii) (s : string) : splitOn sep s ≠ [].
Proof.
  induction s as [|c s IH]; simpl; [done|].
  destruct (Ascii.eqb c sep); [done|]. by destruct (splitOn sep s).
Qed.

Lemma splitOn_lacks (sep : ascii) (s : string) :
  Forall (λ l, lacksChar sep l = true) (splitOn sep s).
Proof.
  induction s as [|c s IH]; simpl; [by apply Forall_singleton|].
  destruct (Ascii.eqb c sep) eqn:Hc; [by apply Forall_cons|].
  destruct (splitOn sep s) as [|l ls].
  { apply Forall_singleton. simpl. by rewrite Hc. }
  apply Forall_cons in IH as [Hl Hls]. apply Forall_cons. split; [|done].
  simpl. by rewrite Hc.
Qed.

Lemma join_splitOn (sep : ascii) (s : string) :
  join (String sep EmptyString) (splitOn sep s) = s.
Proof.
  induction s as [|c s IH]; [done|]. simpl.
  pose proof (splitOn_nonempty sep s) as Hne.
  destruct (Ascii.eqb_spec c sep) as [->|Hc];
    destruct (splitOn sep s) as [|l ls]; try done.
  - rewrite join_cons_cons, IH. reflexivity.
  - by rewrite join_cons_char, IH.
Qed.

Lemma join_snoc_sep (sep : string) (ls : list string) (m : string) :
  ls ≠ [] → join sep (ls ++ [m]) = join sep ls +:+ sep +:+ m.
Proof.
  induction ls as [|l ls IH]; [done|]. intros _.
  destruct ls as [|l' ls]; [done|].
  change ((l :: l' :: ls) ++ [m]) with (l :: l' :: (ls ++ [m])).
  rewrite !join_cons_cons.
  change (l' :: ls ++ [m]) with ((l' :: ls) ++ [m]).
  rewrite IH by done. by rewrite !append_assoc.
Qed.

(** The last piece of a split: what follows the last separator. *)
Lemma last_splitOn (sep : ascii) (s : string) :
  ∃ seg, last (splitOn sep s) = Some seg
         ∧ lacksChar sep seg = true
         ∧ ∃ dir, s = dir +:+ seg
                  ∧ (dir = EmptyString
                     ∨ ∃ d, dir = d +:+ String sep EmptyString).
Proof.
  pose proof (splitOn_nonempty sep s) as Hne.
  pose proof (splitOn_lacks sep s) as Hall.
  pose proof (join_splitOn sep s) as Hjoin.
  destruct (splitOn sep s) as [|l ls] using rev_ind; [done|]. clear IHls.
  rename l into seg. exists seg. rewrite last_snoc. split; [done|].
  apply Forall_app in Hall as [_ Hseg]. apply Forall_inv in Hseg.
  split; [done|].
  destruct ls as [|l ls].
  - exists EmptyString. simpl in Hjoin. split; [by rewrite <- Hjoin|by left].
  - rewrite join_snoc_sep in Hjoin by done.
    exists (join (String sep EmptyString) (l :: ls) +:+ String sep EmptyString).
    split; [by rewrite append_assoc|]. right. by eexists.
Qed.

Lemma length_substring0 (n : nat) (s : string) :
  String.length (substring0 n s) ≤ n.
Proof.
  revert s. induction n as [|n IH]; intros s; [by destruct s|].
  destruct s as [|c s]; simpl; [lia|]. specialize (IH s). lia.
Qed.

Lemma truthy_append_r (a b : string) :
  truthy b = true → truthy (a +:+ b) = true.
Proof. destruct a; [done|]. by rewrite append_cons. Qed.

End SplitFacts.

(** ** The analysis of the selected files and the generated message *)

Section MessageFlow.
Import Js JsText Effects ProofSupport ProofSupportMore
  CommitMessageGenerator CommitMessageFlow.

Lemma fileNameOf_lacks (fileUri : Uri) :
  lacksChar "/" (fileNameOf fileUri) = true.
Proof.
  unfold fileNameOf.
  by destruct (last_splitOn "/" (fsPath fileUri)) as (seg & -> & Hseg & _).
Qed.

(** X15. The file name of an analysis is what follows the last slash of the
    path; the default for a missing name is never used. *)
Theorem fileNameOf_last_segment (fileUri : Uri) :
  lacksChar "/" (fileNameOf fileUri) = true
  ∧ ∃ dir, fsPath fileUri = dir +:+ fileNameOf fileUri
           ∧ (dir = EmptyString ∨ ∃ d, dir = d +:+ "/").
Proof.
  unfold fileNameOf.
  destruct (last_splitOn "/" (fsPath fileUri)) as (seg & -> & Hseg & Hdir).
  by split.
Qed.

Lemma analyzeFileChange_state (h : Host) (repository : Repository)
  (st : GitState) (fileUri : Uri) :
  state repository = Some st →
  analyzeFileChange h repository fileUri
  = match getFileChangeInfo st fileUri with
    | None => Normal None
    | Some (changeType, _) =>
        Normal
          (Some {| fileName := fileNameOf fileUri;
                   changeType := changeType;
                   diff :=
                     substring0 1500
                       (GitDiffService.getFileDiff (diffHost h) repository
                          fileUri (asRelativePath h fileUri) changeType);
                   summary :=
                     createChangeSummary (fileNameOf fileUri) changeType |})
    end.
Proof.
  intros Hst. unfold analyzeFileChange. rewrite Hst.
  by destruct (getFileChangeInfo st fileUri) as [[? ?]|].
Qed.

(** X16. Every diff handed to the prompt has at most 1500 characters, whatever
    the diff reader returned, and every file name is free of slashes. *)
Theorem analyses_are_capped (h : Host) (repository : Repository)
  (selectedFiles : list Uri) :
  Forall (λ a, String.length (diff a) ≤ 1500
               ∧ lacksChar "/" (fileName a) = true)
         (getSelectedFilesDiffs h repository selectedFiles).
Proof.
  induction selectedFiles as [|u rest IH]; simpl; [constructor|].
  destruct (state repository) as [st|] eqn:Hst.
  - rewrite (analyzeFileChange_state h repository st u Hst).
    destruct (getFileChangeInfo st u) as [[ct c]|]; [|done].
    constructor; [|done]. cbn [diff fileName].
    split; [apply length_substring0|].
    apply fileNameOf_lacks.
  - unfold analyzeFileChange. rewrite Hst. done.
Qed.

End MessageFlow.

Section MessageGeneration.
Import Js JsText Effects ProofSupport ProofSupportMore
  CommitMessageGenerator CommitMessageFlow.

(** X17. The analyses are, in order, those of the selected files that the
    enumeration lists: a selected file without a change is passed over, and
    without the repository state every file is. *)
Theorem analyses_follow_selection (h : Host) (repository : Repository)
  (selectedFiles : list Uri) :
  map fileName (getSelectedFilesDiffs h repository selectedFiles)
  = match state repository with
    | Some st =>
        map fileNameOf
            (filter (λ u, u ∈ FileSelectionService.getChangedFiles st)
                    selectedFiles)
    | None => []
    end.
Proof.
  induction selectedFiles as [|u rest IH]; simpl.
  - by destruct (state repository).
  - destruct (state repository) as [st|] eqn:Hst.
    + rewrite (analyzeFileChange_state h repository st u Hst).
      pose proof (getFileChangeInfo_is_Some st u) as Hu.
      destruct (getFileChangeInfo st u) as [[ct c]|].
      * rewrite filter_cons_True by (apply Hu; by eexists).
        simpl. by rewrite IH.
      * rewrite filter_cons_False; [done|].
        intros [? ?]%Hu. done.
    + unfold analyzeFileChange. by rewrite Hst.
Qed.

Lemma tryGitHubCopilotChat_resolves (h : Host) (prompt : string) (w : World) :
  ∃ answer, tryGitHubCopilotChat h prompt w = (Normal answer, w).
Proof.
  unfold tryGitHubCopilotChat.
  destruct (copilotActive h); simpl; [|by eexists].
  destruct (copilotCommand h (log w) prompt) as [[result|]|e];
    [|by eexists..].
  destruct (truthy (trim result)); by eexists.
Qed.

Lemma generateIntelligentCommitMessage_truthy (prompt : string) :
  truthyOption (generateIntelligentCommitMessage prompt) = true.
Proof.
  unfold generateIntelligentCommitMessage. simpl.
  by do 2 apply truthy_append_r.
Qed.

Lemma requestAICommitMessage_answer (h : Host) (prompt : string) (w : World) :
  ∃ m, requestAICommitMessage h prompt w = (Normal (Some m), w)
       ∧ truthy m = true
       ∧ (tryGitHubCopilotChat h prompt w = (Normal (Some m), w)
          ∨ generateIntelligentCommitMessage prompt = Some m).
Proof.
  unfold requestAICommitMessage, bind.
  destruct (tryGitHubCopilotChat_resolves h prompt w) as [answer Ha].
  rewrite Ha. simpl.
  destruct (truthyOption answer) eqn:Ht.
  - destruct answer as [m|]; [|done]. exists m. by repeat split; [|left].
  - pose proof (generateIntelligentCommitMessage_truthy prompt) as Hi.
    destruct (generateIntelligentCommitMessage prompt) as [m|] eqn:Hm;
      [|done].
    exists m. unfold ret. split; [done|]. split; [done|]. by right.
Qed.

(** X18. [generateCommitMessage] never throws and never touches the store. With
    nothing to analyse it answers [undefined] after one error message that
    says why; otherwise it shows nothing and answers with a message that is
    not empty: the assistant's, or else the one of the keyword heuristics.
    The rule-based generator is never what answers. *)
Theorem generateCommitMessage_outcome (h : Host) (repository : Repository)
  (selectedFiles : list Uri) (w : World) :
  let analyses := getSelectedFilesDiffs h repository selectedFiles in
  let prompt := createDetailedCommitPrompt analyses in
  let '(r, w') := generateCommitMessage h repository selectedFiles w in
  workspaceState w' = workspaceState w
  ∧ match analyses with
    | [] =>
        r = Normal None
        ∧ log w'
          = log w
            ++ [ShowErrorMessage
                  ("Failed to generate commit message: "
                   +:+ match selectedFiles with
                       | [] =>
                           "No files selected for commit message generation"
                       | _ =>
                           "No analyzable changes found in selected files"
                       end)]
    | _ =>
        log w' = log w
        ∧ ∃ m, r = Normal (Some m)
               ∧ truthy m = true
               ∧ (tryGitHubCopilotChat h prompt w = (Normal (Some m), w)
                  ∨ generateIntelligentCommitMessage prompt = Some m)
    end.
Proof.
  cbn zeta. unfold generateCommitMessage, tryCatch.
  destruct selectedFiles as [|u rest].
  { simpl. by repeat split. }
  remember (getSelectedFilesDiffs h repository (u :: rest)) as analyses
    eqn:Han.
  destruct analyses as [|a rest'].
  { simpl. by repeat split. }
  cbn beta iota zeta. unfold bind.
  destruct (requestAICommitMessage_answer h
              (createDetailedCommitPrompt (a :: rest')) w)
    as (m & Hreq & Hm & Hsrc).
  rewrite Hreq. cbn beta iota. cbn [truthyOption]. rewrite Hm.
  unfold ret. split; [done|]. split; [done|].
  exists m. by split.
Qed.

(** X19. Without the assistant the answer to a selection that can be analysed is
    the message of the keyword heuristics for the assembled prompt. *)
Theorem generateCommitMessage_without_copilot (h : Host)
  (repository : Repository) (selectedFiles : list Uri) (w : World) :
  copilotActive h = false →
  getSelectedFilesDiffs h repository selectedFiles ≠ [] →
  generateCommitMessage h repository selectedFiles w
  = (Normal (generateIntelligentCommitMessage
               (createDetailedCommitPrompt
                  (getSelectedFilesDiffs h repository selectedFiles))), w).
Proof.
  intros Hc Hne. unfold generateCommitMessage, tryCatch.
  destruct selectedFiles as [|u rest]; [done|].
  destruct (getSelectedFilesDiffs h repository (u :: rest)) as [|a l] eqn:Ha;
    [done|].
  unfold bind, requestAICommitMessage, bind, tryGitHubCopilotChat.
  rewrite Hc. cbn [negb truthyOption]. cbn beta iota.
  pose proof (generateIntelligentCommitMessage_truthy
                (createDetailedCommitPrompt (a :: l))) as Hi.
  unfold ret. by rewrite Hi.
Qed.

Lemma generateCommitMessage_without_copilot_witness :
  generateCommitMessage MoreSamples.plainHost Samples.sampleRepository
    [UriFile "/repo/b.txt"] Samples.emptyWorld
  = (Normal (generateIntelligentCommitMessage
               (createDetailedCommitPrompt
                  (getSelectedFilesDiffs MoreSamples.plainHost
                     Samples.sampleRepository [UriFile "/repo/b.txt"]))),
     Samples.emptyWorld).
Proof.
  apply generateCommitMessage_without_copilot.
  - reflexivity.
  - vm_compute. discriminate.
Defined.

End MessageGeneration.

(** ** More on the commit orchestration *)

Section OrchestrationMore.
Import Js Effects ProofSupport ProofSupportMore.

(** How [commit] goes on once the message is accepted and the state is
    there, in terms of the staging step. *)
Lemma commit_after_staging (s : GitService.Service) (repository : Repository)
  (st : GitState) (message : string) (amend : bool) (w : World) :
  truthy (trim message) = true →
  state repository = Some st →
  GitService.commit s repository message amend w
  = match (if amend then (Normal tt, w)
           else GitService.stageSelectedFiles s repository w) with
    | (Throw e, w1) =>
        (Throw (JsError ("Commit failed: " +:+ errorMessage e)),
         {| workspaceState := workspaceState w1;
            log := log w1
                   ++ [ShowErrorMessage
                         ("Commit failed: " +:+ errorMessage e)] |})
    | (Normal _, w1) =>
        let h := log w1 in
        let done :=
          (Normal tt,
           λ calls,
             {| workspaceState :=
                  FileSelectionService.clearSelection (rootUri repository)
                    (workspaceState w1);
                log := (h ++ calls) ++ successTail |}) in
        let failed e calls :=
          (Throw (JsError ("Commit failed: " +:+ errorMessage e)),
           {| workspaceState := workspaceState w1;
              log := (h ++ calls)
                     ++ [ShowErrorMessage
                           ("Commit failed: " +:+ errorMessage e)] |}) in
        match Api.commit repository h message amend with
        | None => (done.1, done.2 [RepoCommit message amend])
        | Some _ =>
            match GitService.simpleGitInstances s
                  !! fsPath (rootUri repository) with
            | None =>
                failed (JsError "Simple-git instance not found for repository")
                       [RepoCommit message amend]
            | Some git =>
                match sg_commit git (h ++ [RepoCommit message amend])
                        message amend with
                | None =>
                    (done.1,
                     done.2 [RepoCommit message amend;
                             SimpleGitCommit message amend])
                | Some e =>
                    failed e [RepoCommit message amend;
                              SimpleGitCommit message amend]
                end
            end
        end
    end.
Proof.
  intros Hm Hst. unfold GitService.commit. rewrite Hm, Hst.
  cbn [negb]. unfold tryCatch at 1, bind at 1. cbn [ret].
  unfold bind at 1.
  assert ((if negb amend then GitService.stageSelectedFiles s repository
           else ret ()) w
          = (if amend then (Normal (), w)
             else GitService.stageSelectedFiles s repository w)) as ->
    by by destruct amend.
  destruct (if amend then _ else _) as [[[]|e] w1]; [|reflexivity].
  unfold bind at 1, tryCatch at 1, external at 1.
  destruct (Api.commit repository (log w1) message amend) as [e|].
  - unfold GitService.commitWithSimpleGit.
    destruct (_ !! _) as [git|]; [|reflexivity].
    unfold tryCatch, external. cbn [log].
    destruct (sg_commit git _ message amend) as [e'|].
    + unfold bind, notify, external, throw. cbn.
      by rewrite <- !app_assoc.
    + unfold bind, notify, external, updateStore. cbn.
      unfold successTail. by rewrite <- !app_assoc.
  - unfold bind, notify, external, updateStore. cbn.
    unfold successTail. by rewrite <- !app_assoc.
Qed.

Lemma onlyWhiteSpace_false (message : string) :
  onlyWhiteSpace message = false → truthy (trim message) = true.
Proof.
  intros Hw. destruct (truthy (trim message)) eqn:Ht; [done|].
  apply trim_falsy in Ht. congruence.
Qed.

(** X20. Once the files are staged (or staging is skipped for an amend), the
    host API is asked to commit; simple-git is asked exactly when the host
    API refused, once, with the same message and amend flag; and the error
    shown when both refuse is the one of simple-git. *)
Theorem commit_fallback_once (s : GitService.Service)
  (repository : Repository) (st : GitState) (message : string)
  (amend : bool) (w w1 : World) :
  onlyWhiteSpace message = false →
  state repository = Some st →
  (if amend then (Normal tt, w)
   else GitService.stageSelectedFiles s repository w) = (Normal tt, w1) →
  log (GitService.commit s repository message amend w).2
  = log w1
    ++ RepoCommit message amend
       :: match Api.commit repository (log w1) message amend with
          | None => successTail
          | Some _ =>
              match GitService.simpleGitInstances s
                    !! fsPath (rootUri repository) with
              | None =>
                  [ShowErrorMessage
                     "Commit failed: Simple-git instance not found for repository"]
              | Some git =>
                  SimpleGitCommit message amend
                  :: match sg_commit git (log w1 ++ [RepoCommit message amend])
                             message amend with
                     | None => successTail
                     | Some e =>
                         [ShowErrorMessage
                            ("Commit failed: " +:+ errorMessage e)]
                     end
              end
          end.
Proof.
  intros Hm%onlyWhiteSpace_false Hst Hstaged.
  rewrite (commit_after_staging s repository st message amend w Hm Hst).
  rewrite Hstaged. cbn zeta.
  destruct (Api.commit repository (log w1) message amend) as [e|].
  - destruct (_ !! _) as [git|]; [|cbn; by rewrite <- app_assoc].
    destruct (sg_commit git _ message amend); cbn;
      by rewrite <- !app_assoc.
  - cbn. by rewrite <- !app_assoc.
Qed.

Lemma commit_fallback_once_witness :
  log (GitService.commit Samples.sampleService Samples.refusingRepository
         "docs: update" true Samples.emptyWorld).2
  = [RepoCommit "docs: update" true; SimpleGitCommit "docs: update" true;
     ShowInformationMessage "Commit successful!"; FireGitStateChange].
Proof.
  refine (commit_fallback_once Samples.sampleService
            Samples.refusingRepository Samples.sampleState "docs: update"
            true Samples.emptyWorld Samples.emptyWorld _ _ _);
    reflexivity.
Defined.

(** X21. When staging fails, no client is asked to commit: the failure is shown
    and thrown with the prefix of the commit. *)
Theorem commit_stops_when_staging_fails (s : GitService.Service)
  (repository : Repository) (st : GitState) (message : string)
  (w w1 : World) (e : Thrown) :
  onlyWhiteSpace message = false →
  state repository = Some st →
  GitService.stageSelectedFiles s repository w = (Throw e, w1) →
  GitService.commit s repository message false w
  = (Throw (JsError ("Commit failed: " +:+ errorMessage e)),
     {| workspaceState := workspaceState w1;
        log := log w1
               ++ [ShowErrorMessage ("Commit failed: " +:+ errorMessage e)]
     |}).
Proof.
  intros Hm%onlyWhiteSpace_false Hst Hstaged.
  rewrite (commit_after_staging s repository st message false w Hm Hst).
  by rewrite Hstaged.
Qed.

Lemma commit_stops_when_staging_fails_witness :
  GitService.commit Samples.refusingService Samples.refusingRepository
    "docs: update" false Samples.selectedWorld
  = (Throw (JsError
              "Commit failed: Failed to stage files: fallback add failed"),
     {| workspaceState := workspaceState Samples.selectedWorld;
        log := [RepoAdd "/repo/a.txt"; SimpleGitAdd ["a.txt"];
                ShowErrorMessage
                  "Commit failed: Failed to stage files: fallback add failed"]
     |}).
Proof.
  refine (commit_stops_when_staging_fails Samples.refusingService
            Samples.refusingRepository Samples.sampleState "docs: update"
            Samples.selectedWorld
            {| workspaceState := workspaceState Samples.selectedWorld;
               log := [RepoAdd "/repo/a.txt"; SimpleGitAdd ["a.txt"]] |}
            (JsError "Failed to stage files: fallback add failed") _ _ _).
  - reflexivity.
  - reflexivity.
  - vm_compute. reflexivity.
Defined.

(** X22. An amend never stages: whatever the message, the state and the clients,
    no call that adds files appears in what the commit does. *)
Theorem amend_never_stages (s : GitService.Service) (repository : Repository)
  (message : string) (w : World) :
  ∃ evs,
    log (GitService.commit s repository message true w).2 = log w ++ evs
    ∧ Forall (λ ev, ¬ stagingCall ev) evs.
Proof.
  destruct (truthy (trim message)) eqn:Hm.
  2:{ exists []. unfold GitService.commit. rewrite Hm. simpl.
      by rewrite app_nil_r. }
  destruct (state repository) as [st|] eqn:Hst.
  2:{ unfold GitService.commit. rewrite Hm, Hst. eexists. split.
      - reflexivity.
      - apply Forall_singleton. intros []. }
  rewrite (commit_after_staging s repository st message true w Hm Hst).
  cbn zeta.
  destruct (Api.commit repository (log w) message true) as [e|].
  - destruct (_ !! _) as [git|].
    + destruct (sg_commit git _ message true); cbn;
        rewrite <- !app_assoc; eexists; (split; [reflexivity|]);
        repeat constructor; intros [].
    + cbn. rewrite <- !app_assoc. eexists. split; [reflexivity|].
      repeat constructor; intros [].
  - cbn. rewrite <- !app_assoc. eexists. split; [reflexivity|].
    repeat constructor; intros [].
Qed.

(** X23. With files selected, staging is aimed at exactly these, stale or
    not, and the repository state is not consulted. The host API is asked
    to add each in turn, and staging resolves when it accepts them all; at
    the first file it refuses the loop stops and the fallback client is
    given all the selected files by relative path, once, and staging
    resolves or rejects as that client answers; without a fallback client
    staging rejects. *)
Theorem stage_selection_targets_selected (s : GitService.Service)
  (repository : Repository) (w : World) :
  FileSelectionService.storedSelection (workspaceState w)
    (fsPath (rootUri repository)) ≠ [] →
  let selected :=
    map UriFile
        (FileSelectionService.storedSelection (workspaceState w)
           (fsPath (rootUri repository))) in
  let '(r, w') := GitService.stageSelectedFiles s repository w in
  workspaceState w' = workspaceState w
  ∧ ((r = Normal tt
      ∧ (∀ i u, selected !! i = Some u →
                add repository (log w ++ addCalls (take i selected)) u = None)
      ∧ log w' = log w ++ addCalls selected)
     ∨ (∃ k u e,
          selected !! k = Some u
          ∧ (∀ i v, i < k → selected !! i = Some v →
                    add repository (log w ++ addCalls (take i selected)) v
                    = None)
          ∧ add repository (log w ++ addCalls (take k selected)) u = Some e
          ∧ let attempted := log w ++ addCalls (take (S k) selected) in
            match GitService.simpleGitInstances s
                  !! fsPath (rootUri repository) with
            | None =>
                log w' = attempted
                ∧ r = Throw (JsError
                               "Simple-git instance not found for repository")
            | Some git =>
                let filePaths :=
                  map (GitService.asRelativePath s) selected in
                log w' = attempted ++ [SimpleGitAdd filePaths]
                ∧ r = match sg_add git attempted filePaths with
                      | None => Normal tt
                      | Some e' =>
                          Throw (JsError ("Failed to stage files: "
                                          +:+ errorMessage e'))
                      end
            end)).
Proof.
  intros Hne. cbn zeta.
  pose proof (stageSelectedFiles_outcome s repository w) as H.
  cbn zeta in H. unfold filesToStage in H.
  unfold FileSelectionService.getSelectedFiles in H.
  destruct (FileSelectionService.storedSelection (workspaceState w)
              (fsPath (rootUri repository))) as [|p ps]; [done|].
  cbn [map] in H |- *.
  destruct (GitService.stageSelectedFiles s repository w) as [r w'].
  exact H.
Qed.

Lemma stage_selection_targets_selected_witness :
  FileSelectionService.storedSelection
    (workspaceState MoreSamples.staleWorld)
    (fsPath (rootUri Samples.sampleRepository)) ≠ []
  ∧ let '(r, w') :=
      GitService.stageSelectedFiles Samples.sampleService
        Samples.sampleRepository MoreSamples.staleWorld in
    stagingOutcome Samples.sampleService Samples.sampleRepository
      [UriFile "/repo/gone.txt"] MoreSamples.staleWorld r w'.
Proof.
  assert (FileSelectionService.storedSelection
            (workspaceState MoreSamples.staleWorld)
            (fsPath (rootUri Samples.sampleRepository)) ≠ []) as H
    by (vm_compute; discriminate).
  split; [exact H|].
  exact (stage_selection_targets_selected Samples.sampleService
           Samples.sampleRepository MoreSamples.staleWorld H).
Defined.

(** The host API refusing the selected file, the fallback client is asked,
    and its refusal is what staging rejects with. *)
Example stage_selection_refused :
  GitService.stageSelectedFiles Samples.refusingService
    Samples.refusingRepository Samples.selectedWorld
  = (Throw (JsError "Failed to stage files: fallback add failed"),
     {| workspaceState := workspaceState Samples.selectedWorld;
        log := [RepoAdd "/repo/a.txt"; SimpleGitAdd ["a.txt"]] |}).
Proof. vm_compute. reflexivity. Qed.

(** A selected file without a change is handed to the client all the
    same. *)
Example stage_stale_selection :
  GitService.stageSelectedFiles Samples.sampleService
    Samples.sampleRepository MoreSamples.staleWorld
  = (Normal tt,
     {| workspaceState := workspaceState MoreSamples.staleWorld;
        log := [RepoAdd "/repo/gone.txt"] |}).
Proof. vm_compute. reflexivity. Qed.

Lemma commit_clears_after (s : GitService.Service) (repository : Repository)
  (message : string) (amend : bool) (w : World) :
  match GitService.commit s repository message amend w with
  | (Normal _, w1) =>
      workspaceState w1
      = FileSelectionService.clearSelection (rootUri repository)
          (workspaceState w)
  | (Throw _, _) => True
  end.
Proof.
  unfold GitService.commit.
  destruct (truthy (trim message)); simpl; [|done].
  unfold tryCatch at 1. rewrite <- bind_assoc3.
  pose proof (quiet_commit_attempt s repository message amend w)
    as (Hs & _).
  unfold bind at 1.
  destruct (bind _ _ w) as [[[]|e] w1]; simpl in Hs; simpl; [|done].
  by rewrite Hs.
Qed.

Lemma commit_keeps_on_failure (s : GitService.Service)
  (repository : Repository) (message : string) (amend : bool) (w : World) :
  match GitService.commit s repository message amend w with
  | (Throw _, w1) => workspaceState w1 = workspaceState w
  | (Normal _, _) => True
  end.
Proof.
  unfold GitService.commit.
  destruct (truthy (trim message)); simpl; [|done].
  unfold tryCatch at 1. rewrite <- bind_assoc3.
  pose proof (quiet_commit_attempt s repository message amend w)
    as (Hs & _).
  unfold bind at 1.
  destruct (bind _ _ w) as [[[]|e] w1]; simpl in Hs; simpl; done.
Qed.

(** X24. [commit] refuses a message as empty exactly when
    [validateCommitMessage] reports it as empty. *)
Theorem commit_and_validation_agree_on_empty (s : GitService.Service)
  (repository : Repository) (message : string) (amend : bool) (w : World) :
  (GitService.commit s repository message amend w).1
  = Throw (JsError "Commit message cannot be empty")
  ↔ GitValidationService.issues
      (CommitMessageValidation.validateCommitMessage message)
    = ["Commit message cannot be empty"].
Proof.
  destruct (truthy (trim message)) eqn:Hm.
  - rewrite (validateCommitMessage_filled _ Hm).
    cbn [GitValidationService.issues]. split.
    + intros Hc. exfalso. unfold GitService.commit in Hc.
      rewrite Hm in Hc. cbn [negb] in Hc. unfold tryCatch in Hc.
      destruct (bind _ _ w) as [[[]|e] w1]; [discriminate|].
      unfold bind, notify, external, throw in Hc. cbn [fst] in Hc.
      injection Hc as Hc. discriminate.
    + destruct (Nat.ltb _ 10), (Nat.ltb 72 _); simpl; discriminate.
  - rewrite (validateCommitMessage_blank _ Hm).
    cbn [GitValidationService.issues].
    unfold GitService.commit. by rewrite Hm.
Qed.


(** A push after a commit that went through, and none after one that did
    not. *)
Example commitAndPush_pushes_once :
  let pw := {| GitServiceMore.world := Samples.emptyWorld;
               GitServiceMore.pushes := [] |} in
  GitServiceMore.pushes
    (GitServiceMore.commitAndPush Samples.sampleService
       Samples.sampleRepository (λ _, None) "docs: update" false pw).2
  = [[RepoAdd "/repo/b.txt"; RepoAdd "/repo/c.txt";
      RepoCommit "docs: update" false;
      ShowInformationMessage "Commit successful!"; FireGitStateChange]]
  ∧ GitServiceMore.pushes
      (GitServiceMore.commitAndPush Samples.refusingService
         Samples.refusingRepository (λ _, None) "docs: update" false pw).2
    = [].
Proof. vm_compute. by split. Qed.

(** X26. The handler of the commit panel never throws. A message that is
    missing or blank is answered with one error message and nothing else;
    otherwise the store is left as it was or has the selection of the
    repository cleared. *)
Theorem handleCommit_never_throws (s : GitService.Service)
  (activeRepo : Repository) (data : CommitPanelProvider.WebviewMessage)
  (w : World) :
  let '(r, w') := CommitPanelProvider.handleCommit s activeRepo data w in
  r = Normal tt
  ∧ if onlyWhiteSpace (default "" (CommitPanelProvider.message data))
    then workspaceState w' = workspaceState w
         ∧ log w'
           = log w
             ++ [ShowErrorMessage
                   "Commit failed: Commit message cannot be empty"]
    else workspaceState w' = workspaceState w
         ∨ workspaceState w'
           = FileSelectionService.clearSelection (rootUri activeRepo)
               (workspaceState w).
Proof.
  unfold CommitPanelProvider.handleCommit, tryCatch.
  set (message := default "" (CommitPanelProvider.message data)).
  set (amend := default false (CommitPanelProvider.amend data)).
  destruct (onlyWhiteSpace message) eqn:Hw.
  - apply trim_falsy in Hw. unfold GitService.commit. rewrite Hw. simpl.
    by repeat split.
  - pose proof (commit_clears_after s activeRepo message amend w) as Hc.
    pose proof (commit_keeps_on_failure s activeRepo message amend w) as Hk.
    destruct (GitService.commit s activeRepo message amend w)
      as [[[]|e] w1]; simpl.
    + split; [done|]. by right.
    + split; [done|]. by left.
Qed.

End OrchestrationMore.

(** ** The tree of changed files *)

Section TreeView.
Import Js Effects ProofSupport ProofSupportMore GitValidationService
  CommitViewProvider.

Lemma getRepositoryFiles_run (element : Repository) (st : GitState)
  (w : World) :
  state element = Some st →
  getRepositoryFiles element w
  = (Normal
       (map (λ u,
               FileItem
                 {| resourceUri := u;
                    repository := element;
                    isSelected :=
                      bool_decide
                        (fsPath u
                         ∈ FileSelectionService.storedSelection
                             (workspaceState w) (fsPath (rootUri element)));
                    changeType := (getFileChangeInfo st u).2 |})
            (FileSelectionService.getChangedFiles st)), w).
Proof.
  intros Hst.
  unfold getRepositoryFiles, GitService.getChangedFiles,
    GitService.getSelectedFiles, readStore, bind, ret.
  rewrite Hst. do 2 f_equal.
  apply map_ext. intros u. do 2 f_equal.
  unfold FileSelectionService.getSelectedFiles.
  rewrite map_map. simpl. by rewrite map_id.
Qed.

Lemma getChangedFiles_NoDup (st : GitState) :
  NoDup (FileSelectionService.getChangedFiles st).
Proof.
  apply (NoDup_fmap_1 fsPath).
  change (fsPath <$> FileSelectionService.getChangedFiles st)
    with (map fsPath (FileSelectionService.getChangedFiles st)).
  rewrite getChangedFiles_paths. apply firstOccurrences_NoDup.
Qed.

(** X27. The tree of a repository shows the changed files, each once and in the
    order of the enumeration, with the box of a file checked exactly when
    its path is stored as selected; a selected file without a change is not
    shown. No box is checked exactly when the validation of the setup
    reports that the selected files have no changes. Drawing the tree
    changes nothing; without the repository state it throws. *)
Theorem tree_shows_changed_files (element : Repository) (w : World) :
  match state element with
  | None => ∃ e, getRepositoryFiles element w = (Throw e, w)
  | Some st =>
      let stored :=
        FileSelectionService.storedSelection (workspaceState w)
          (fsPath (rootUri element)) in
      ∃ items,
        getRepositoryFiles element w = (Normal (map FileItem items), w)
        ∧ map resourceUri items = FileSelectionService.getChangedFiles st
        ∧ NoDup (map resourceUri items)
        ∧ Forall (λ f, isSelected f
                       = bool_decide (fsPath (resourceUri f) ∈ stored))
                 items
        ∧ (existsb isSelected items = false
           ↔ "Selected files have no changes"
             ∈ issues (validateCommitSetup
                         (Some (GitServiceMore.repositoryValue element))
                         (map UriFile stored)
                         (FileSelectionService.getChangedFiles st)))
  end.
Proof.
  destruct (state element) as [st|] eqn:Hst.
  2:{ unfold getRepositoryFiles, GitService.getChangedFiles, bind, throw.
      rewrite Hst. by eexists. }
  cbn zeta.
  set (stored := FileSelectionService.storedSelection _ _).
  set (changed := FileSelectionService.getChangedFiles st).
  exists (map (λ u, {| resourceUri := u;
                       repository := element;
                       isSelected := bool_decide (fsPath u ∈ stored);
                       changeType := (getFileChangeInfo st u).2 |})
              changed).
  split.
  { rewrite (getRepositoryFiles_run element st w Hst). by rewrite map_map. }
  assert (map resourceUri
            (map (λ u, {| resourceUri := u;
                          repository := element;
                          isSelected := bool_decide (fsPath u ∈ stored);
                          changeType := (getFileChangeInfo st u).2 |})
                 changed) = changed) as Hres.
  { rewrite map_map. simpl. apply map_id. }
  split; [done|]. split; [rewrite Hres; apply getChangedFiles_NoDup|].
  split.
  { apply Forall_forall. intros f Hf.
    apply list_elem_of_fmap in Hf as (u & -> & _). done. }
  unfold validateCommitSetup, GitServiceMore.repositoryValue.
  cbn [rv_rootUri rv_add_is_function rv_commit_is_function rv_state issues].
  rewrite Hst, !pushIf_app.
  assert (existsb isSelected
            (map (λ u, {| resourceUri := u;
                          repository := element;
                          isSelected := bool_decide (fsPath u ∈ stored);
                          changeType := (getFileChangeInfo st u).2 |})
                 changed) = false
          ↔ isEmpty (validSelectedFiles (map UriFile stored) changed) = true)
    as ->.
  { rewrite isEmpty_nil. split.
    - intros Hex.
      destruct (validSelectedFiles (map UriFile stored) changed)
        as [|f fs] eqn:Hv; [done|]. exfalso.
      assert (f ∈ validSelectedFiles (map UriFile stored) changed) as Hf
        by (rewrite Hv; left).
      apply validSelectedFiles_elem in Hf as [Hf Hc].
      apply uri_elem_of_map in Hf.
      apply list_elem_of_fmap in Hc as (c & Hc & Hin).
      apply not_true_iff_false in Hex. apply Hex.
      apply existsb_exists. eexists. split.
      + apply in_map_iff. exists c. split; [reflexivity|].
        by apply list_elem_of_In.
      + simpl. apply bool_decide_eq_true. by rewrite <- Hc.
    - intros Hv. apply not_true_iff_false. intros Hex.
      apply existsb_exists in Hex as (f & Hf & Hs).
      apply in_map_iff in Hf as (u & <- & Hu). simpl in Hs.
      apply bool_decide_eq_true in Hs. apply list_elem_of_In in Hu.
      assert (UriFile (fsPath u)
              ∈ validSelectedFiles (map UriFile stored) changed) as Hin.
      { apply validSelectedFiles_elem. split.
        - by apply uri_elem_of_map.
        - apply list_elem_of_fmap. by exists u. }
      rewrite Hv in Hin. by apply elem_of_nil in Hin. }
  destruct (isEmpty (map UriFile stored)),
    (isEmpty (validSelectedFiles (map UriFile stored) changed)); simpl;
    (split; [intros H|intros H]); try done;
    try (by repeat constructor);
    try (exfalso;
         repeat (apply elem_of_cons in H as [H|H]; [discriminate|]);
         by apply elem_of_nil in H).
Qed.

(** Awaited, the call and what it leaves pending make up
    [GitService.setFileSelection]. *)
Lemma setFileSelectionCall_awaited (fileUri repoUri : Uri)
  (isSelected : bool) (w : World) :
  bind (setFileSelectionCall fileUri repoUri isSelected) (λ pending, pending) w
  = GitService.setFileSelection fileUri repoUri isSelected w.
Proof. reflexivity. Qed.

(** When the handler returns, no notification has been fired, whatever the
    items: each file item has left one pending. *)
Lemma checkbox_handler_returns_first (items : list (TreeItem * bool))
  (w : World) :
  let '(r, w1) := onDidChangeCheckboxState items w in
  log w1 = log w
  ∧ r = Normal (replicate (countFileItems items) (notify FireGitStateChange)).
Proof.
  revert w. induction items as [|[item checked] items IH]; intros w.
  - by simpl.
  - destruct item as [label|repo n|f];
      cbn [onDidChangeCheckboxState countFileItems].
    + apply IH.
    + apply IH.
    + unfold bind at 1, setFileSelectionCall, bind at 1, updateStore, ret at 1.
      unfold bind at 1.
      specialize (IH {| workspaceState :=
                          FileSelectionService.setFileSelection
                            (resourceUri f) (rootUri (repository f)) checked
                            (workspaceState w);
                        log := log w |}).
      destruct (onDidChangeCheckboxState items _) as [r w1].
      destruct IH as (Hl & ->). unfold ret. by split.
Qed.

(** X28. The handler does not await the selection updates it starts. For one
    file item on a stored array without duplicates: when the handler
    returns, the store holds the new selection and no state-change
    notification has been fired; the one part left pending fires it, once,
    and changes nothing else. The tree drawn from then on shows the box of
    that file as it was set and every other box as before. *)
Theorem checkbox_then_tree (element : Repository) (st : GitState)
  (w : World) (u : Uri) (shown : bool) (label : string) (checked : bool) :
  state element = Some st →
  NoDup (FileSelectionService.storedSelection (workspaceState w)
           (fsPath (rootUri element))) →
  let stored :=
    FileSelectionService.storedSelection (workspaceState w)
      (fsPath (rootUri element)) in
  let item :=
    FileItem {| resourceUri := u; repository := element;
                isSelected := shown; changeType := label |} in
  let '(r, w1) := onDidChangeCheckboxState [(item, checked)] w in
  ∃ pending,
    r = Normal [pending]
    ∧ log w1 = log w
    ∧ workspaceState w1
      = FileSelectionService.setFileSelection u (rootUri element) checked
          (workspaceState w)
    ∧ let '(r2, w2) := settle [pending] w1 in
      r2 = Normal tt
      ∧ log w2 = log w ++ [FireGitStateChange]
      ∧ workspaceState w2 = workspaceState w1
      ∧ ∃ items,
          getRepositoryFiles element w1 = (Normal (map FileItem items), w1)
          ∧ getRepositoryFiles element w2 = (Normal (map FileItem items), w2)
          ∧ Forall (λ f, isSelected f
                         = if decide (fsPath (resourceUri f) = fsPath u)
                           then checked
                           else bool_decide (fsPath (resourceUri f) ∈ stored))
                   items.
Proof.
  intros Hst Hnd. cbn zeta.
  cbn [onDidChangeCheckboxState resourceUri repository].
  unfold bind, setFileSelectionCall, bind, updateStore, ret. cbn [log].
  exists (notify FireGitStateChange).
  split; [done|]. split; [done|]. split; [done|].
  cbn [settle]. unfold bind, tryCatch, notify, external, ret.
  cbn [log workspaceState].
  split; [done|]. split; [done|]. split; [done|].
  eexists. split.
  { rewrite (getRepositoryFiles_run element st _ Hst).
    rewrite <- map_map. reflexivity. }
  split.
  { rewrite (getRepositoryFiles_run element st _ Hst).
    rewrite <- map_map. reflexivity. }
  apply Forall_forall. intros f Hf.
  apply list_elem_of_fmap in Hf as (v & -> & _). cbn.
  pose proof (setFileSelection_stored u (rootUri element) checked
                (workspaceState w) (fsPath (rootUri element))) as Hs.
  rewrite decide_True in Hs by done. rewrite Hs.
  pose proof (selected_elem _ (fsPath u) checked (fsPath v) Hnd) as He.
  destruct (decide (fsPath v = fsPath u)) as [Heq|Hne].
  - destruct checked.
    + apply bool_decide_eq_true. by apply He.
    + apply bool_decide_eq_false. intros Hin. apply He in Hin. done.
  - apply bool_decide_ext. exact He.
Qed.

Lemma checkbox_then_tree_witness :
  let item :=
    FileItem {| resourceUri := UriFile "/repo/b.txt";
                repository := Samples.sampleRepository;
                isSelected := false; changeType := "M" |} in
  let '(r, w1) := onDidChangeCheckboxState [(item, true)] Samples.emptyWorld in
  ∃ pending,
    r = Normal [pending]
    ∧ log w1 = []
    ∧ workspaceState w1
      = FileSelectionService.setFileSelection (UriFile "/repo/b.txt")
          (UriFile "/repo") true ∅
    ∧ let '(r2, w2) := settle [pending] w1 in
      r2 = Normal tt
      ∧ log w2 = [FireGitStateChange]
      ∧ workspaceState w2 = workspaceState w1
      ∧ ∃ items,
          getRepositoryFiles Samples.sampleRepository w1
          = (Normal (map FileItem items), w1)
          ∧ getRepositoryFiles Samples.sampleRepository w2
            = (Normal (map FileItem items), w2)
          ∧ Forall (λ f, isSelected f
                         = if decide (fsPath (resourceUri f) = "/repo/b.txt")
                           then true
                           else bool_decide (fsPath (resourceUri f) ∈ []))
                   items.
Proof.
  assert (NoDup (FileSelectionService.storedSelection
                   (workspaceState Samples.emptyWorld)
                   (fsPath (rootUri Samples.sampleRepository)))) as Hnd.
  { apply (bool_decide_unpack _). vm_compute. exact I. }
  exact (checkbox_then_tree Samples.sampleRepository
           Samples.sampleState Samples.emptyWorld
           (UriFile "/repo/b.txt") false "M" true eq_refl Hnd).
Defined.

(** Boxes of items that are not files are ignored. *)
Lemma checkbox_of_other_items (items : list (TreeItem * bool)) (w : World) :
  Forall (λ '(item, _), match item with FileItem _ => False | _ => True end)
         items →
  onDidChangeCheckboxState items w = (Normal [], w).
Proof.
  induction items as [|[item b] items IH]; [done|].
  intros [Hi Hrest]%Forall_cons.
  destruct item; [|..|done]; cbn [onDidChangeCheckboxState]; by apply IH.
Qed.

(** The root of the tree: a single notice without repositories; otherwise
    one item per repository, counting its changed paths, unless a
    repository has no state, in which case the whole level throws. *)
Theorem root_level_items (repos : list Repository) (w : World) :
  getChildren repos None w
  = match repos with
    | [] => (Normal [PlainItem "No Git repositories found."], w)
    | _ =>
        if forallb (λ repo, bool_decide (is_Some (state repo))) repos
        then (Normal
                (map (λ repo,
                        RepositoryTreeItem repo
                          (length
                             (from_option
                                FileSelectionService.getChangedFiles []
                                (state repo))))
                     repos), w)
        else (Throw (JsError
                       "Cannot read properties of undefined (reading 'indexChanges')"),
              w)
    end.
Proof.
  unfold getChildren, getRootLevelItems.
  destruct repos as [|r0 rs0]; [done|].
  generalize (r0 :: rs0). clear r0 rs0. intros repos.
  induction repos as [|repo rest IH]; [done|].
  cbn [repositoryItems forallb map]. unfold bind at 1.
  unfold GitService.getChangedFiles at 1.
  destruct (state repo) as [st|]; [|done]. cbn [ret bool_decide].
  unfold ret at 1. unfold bind at 1. rewrite IH.
  rewrite bool_decide_eq_true_2 by by eexists. cbn [andb].
  by destruct (forallb _ rest).
Qed.

End TreeView.

(** ** Cleaning the assistant's response *)

Section Cleanup.
Import Js JsText ProofSupport ProofSupportMore CommitMessageValidation
  CommitMessageFlow.

Lemma trimEnd_prefix (s : string) : ∃ t, s = trimEnd s +:+ t.
Proof.
  induction s as [|c s [t IH]]; [by exists EmptyString|]. simpl.
  destruct (trimEnd s) as [|d r] eqn:Hr.
  - destruct (isWhiteSpace c); [by eexists|]. by exists s.
  - exists t. rewrite append_cons. by rewrite <- IH.
Qed.

Lemma firstLineOf_cons (c : ascii) (s : string) :
  firstLineOf (String c s)
  = if Ascii.eqb c "010" then EmptyString else String c (firstLineOf s).
Proof.
  unfold firstLineOf. simpl. destruct (Ascii.eqb c "010"); [done|].
  pose proof (splitOn_nonempty "010" s).
  by destruct (splitOn "010" s).
Qed.

Lemma firstLineOf_prefix (a b : string) :
  String.length (firstLineOf a) ≤ String.length (firstLineOf (a +:+ b)).
Proof.
  induction a as [|c a IH]; [unfold firstLineOf; simpl; lia|].
  rewrite append_cons, !firstLineOf_cons.
  destruct (Ascii.eqb c "010"); simpl; lia.
Qed.

Lemma firstLineOf_line (l tail : string) :
  lacksChar "010" l = true →
  firstLineOf l = l ∧ firstLineOf (l +:+ nl +:+ tail) = l.
Proof.
  induction l as [|c l IH]; [done|]. simpl.
  intros [Hc Hl]%andb_prop. apply negb_true_iff in Hc.
  rewrite append_cons, !firstLineOf_cons, Hc.
  destruct (IH Hl) as [-> ->]. done.
Qed.

Lemma firstLineOf_join (l : string) (rest : list string) :
  lacksChar "010" l = true → firstLineOf (join nl (l :: rest)) = l.
Proof.
  intros Hl. destruct rest as [|l' rest].
  - by apply (firstLineOf_line l EmptyString).
  - rewrite join_cons_cons. by apply firstLineOf_line.
Qed.

Lemma lacksChar_substring0 (c : ascii) (n : nat) (s : string) :
  lacksChar c s = true → lacksChar c (substring0 n s) = true.
Proof.
  revert s. induction n as [|n IH]; intros s; [by destruct s|].
  destruct s as [|d s]; simpl; [done|].
  intros [Hd Hs]%andb_prop. rewrite Hd. by apply IH.
Qed.

Lemma lacksChar_append (c : ascii) (a b : string) :
  lacksChar c a = true → lacksChar c b = true →
  lacksChar c (a +:+ b) = true.
Proof.
  intros Ha Hb. induction a as [|d a IH]; [done|].
  rewrite append_cons. simpl in *.
  apply andb_prop in Ha as [Hd Ha]. rewrite Hd. by apply IH.
Qed.

Lemma removeCommitMessagePrefix_startsClean (s : string) :
  startsClean s → startsClean (removeCommitMessagePrefix s).
Proof.
  intros Hs. unfold removeCommitMessagePrefix.
  destruct (afterIgnoreCase s "commit") as [[|c r1]|]; [done| |done].
  destruct (isWhiteSpace c); [|done].
  destruct (afterIgnoreCase _ "message:"); [|done].
  apply trimStart_startsClean.
Qed.

(** The first line of the array that [cleanupAIResponse] joins. *)
Lemma shortened_head (cleaned : string) :
  startsClean cleaned →
  ∃ l rest,
    (match splitOn "010" cleaned with
     | l0 :: rest0 =>
         if Nat.ltb 72 (String.length l0)
         then (substring0 69 l0 +:+ "...") :: rest0
         else splitOn "010" cleaned
     | [] => splitOn "010" cleaned
     end) = l :: rest
    ∧ String.length l ≤ 72
    ∧ lacksChar "010" l = true
    ∧ startsClean (join nl (l :: rest)).
Proof.
  intros Hc.
  pose proof (splitOn_nonempty "010" cleaned) as Hne.
  pose proof (splitOn_lacks "010" cleaned) as Hall.
  pose proof (join_splitOn "010" cleaned) as Hjoin.
  destruct (splitOn "010" cleaned) as [|l0 rest0]; [done|].
  apply Forall_cons in Hall as [Hl0 _].
  assert (startsClean (join nl (l0 :: rest0))) as Hj
    by (unfold nl; by rewrite Hjoin).
  destruct (Nat.ltb_spec 72 (String.length l0)) as [Hlong|Hshort].
  - exists (substring0 69 l0 +:+ "..."), rest0. split; [done|].
    split.
    { rewrite length_append. pose proof (length_substring0 69 l0).
      change (String.length "...") with 3. lia. }
    split.
    { apply lacksChar_append; [by apply lacksChar_substring0|done]. }
    destruct l0 as [|c l0]; [simpl in Hlong; lia|].
    assert (isWhiteSpace c = false) as Hws.
    { destruct rest0; [exact Hj|].
      rewrite join_cons_cons, append_cons in Hj. exact Hj. }
    change (substring0 69 (String c l0)) with (String c (substring0 68 l0)).
    destruct rest0; [by rewrite append_cons|].
    by rewrite join_cons_cons, !append_cons.
  - exists l0, rest0. by repeat split.
Qed.

(** X29. When what is left of the response without its quotes does not begin
    with white space, the first line of the cleaned message has at most 72
    characters. *)
Theorem cleanupAIResponse_first_line (response : string) :
  startsClean (unquote (trim response)) →
  String.length (firstLineOf (cleanupAIResponse response)) ≤ 72.
Proof.
  intros Hq. unfold cleanupAIResponse. fold (unquote (trim response)).
  apply removeCommitMessagePrefix_startsClean in Hq.
  destruct (shortened_head _ Hq) as (l & rest & -> & Hlen & Hl & Hj).
  unfold trim. rewrite (trimStart_clean _ Hj).
  destruct (trimEnd_prefix (join nl (l :: rest))) as [t Ht].
  pose proof (firstLineOf_prefix (trimEnd (join nl (l :: rest))) t) as Hp.
  rewrite <- Ht, (firstLineOf_join l rest Hl) in Hp. lia.
Qed.

Lemma cleanupAIResponse_first_line_witness :
  String.length
    (firstLineOf
       (cleanupAIResponse
          (dquote +:+ "Commit message: feat: add parser" +:+ dquote)))
  ≤ 72.
Proof.
  apply cleanupAIResponse_first_line. vm_compute. reflexivity.
Defined.

(** Quotes around a response that begins with a line break let a first
    line of eighty characters through. *)
Example cleanupAIResponse_long_first_line :
  String.length (firstLineOf (cleanupAIResponse quotedLongLine)) = 80.
Proof. vm_compute. reflexivity. Qed.

(** What the cleaning returns has no white space around it. *)
Lemma cleanupAIResponse_trimmed (response : string) :
  trim (cleanupAIResponse response) = cleanupAIResponse response.
Proof. unfold cleanupAIResponse. apply trim_idem. Qed.

(** X30. A message that is already clean comes back as it is: no white space
    around it, no quotes around it, no leading commit-message label, and a
    first line of at most 72 characters. *)
Theorem cleanupAIResponse_clean_message (message : string) :
  trim message = message →
  unquote message = message →
  removeCommitMessagePrefix message = message →
  String.length (firstLineOf message) ≤ 72 →
  cleanupAIResponse message = message.
Proof.
  intros Ht Hq Hp Hlen. unfold cleanupAIResponse.
  rewrite Ht. fold (unquote message). rewrite Hq, Hp.
  pose proof (splitOn_nonempty "010" message) as Hne.
  pose proof (join_splitOn "010" message) as Hjoin.
  unfold firstLineOf in Hlen.
  destruct (splitOn "010" message) as [|l rest]; [done|].
  apply Nat.ltb_ge in Hlen. rewrite Hlen.
  unfold nl. by rewrite Hjoin.
Qed.

Lemma cleanupAIResponse_clean_message_witness :
  cleanupAIResponse "fix(test): resolve issues" = "fix(test): resolve issues".
Proof.
  apply cleanupAIResponse_clean_message; vm_compute; try reflexivity.
  lia.
Defined.

End Cleanup.
